(** * Requisition validation and normalization (package [model], provisioning.go)

    A shallow embedding of the [IsValid] methods of the requisition tree
    (requisition, nodes, interfaces, monitored services, assets, categories
    and meta-data) and of the checks they perform, followed by the
    properties established about them.

    Modelling conventions.
    - Go [string] is [string]; the Go [int] of [Status] and of the counters
      kept in [map[string]int] is [Z].  A counter is incremented once per
      element of a slice, and the length of a slice is itself an [int], so
      no counter can wrap around; the increment is written without a
      modulus for that reason.
    - A slice is a [list].  A method that writes through a pointer ([m :=
      &xs[i]]) returns the element after the call and the caller stores it
      back; a method that works on a copy ([m := xs[i]]) has its updated
      copy dropped.  A value receiver copies the struct but not the backing
      array of its slices, so writes to slice elements stay visible to the
      caller; that is why [RequisitionMonitoredService.IsValid] and
      [Requisition.IsValid] return the receiver as the caller sees it
      afterwards.
    - A struct is a record with the fields of the struct, in its order;
      the [XMLName] field, which only the XML encoder reads, is left out.
    - [fmt.Errorf] builds an [Error] value whose text is given by
      [Error_message]; [fmt.Printf] adds to the [stdout] of the [Outcome].
    - What lies outside the package — [net.ParseIP], [net.LookupIP], the
      order in which [range] walks a map, and the package variable
      [AllowFqdnOnRequisitionedInterfaces] — is gathered in [Env].

    The model ends with the two commands that build an event from their
    arguments, daemon reload and events send. *)

From Stdlib Require Import Ascii.
From stdpp Require Import gmap strings list fin_maps pretty.

Local Open Scope Z_scope.

(** ** Characters and texts shared by the error messages *)

Definition quote_char : ascii := "034"%char.
Definition backslash_char : ascii := "092"%char.
Definition newline_char : ascii := "010"%char.

(** The eight characters of the class handed to [regexp.MatchString]: slash,
    backslash, question mark, colon, ampersand, star, single quote and
    double quote. *)
Definition forbidden_chars : list ascii :=
  ["/"%char; backslash_char; "?"%char; ":"%char; "&"%char; "*"%char; "'"%char; quote_char].

Definition is_forbidden (c : ascii) : bool :=
  bool_decide (c ∈ forbidden_chars).

(** [regexp.MatchString] with that class as its pattern: some character of
    [s] is in the class.  The class is ASCII only, so matching bytes and
    matching runes agree. *)
Fixpoint matchForbidden (s : string) : bool :=
  match s with
  | EmptyString => false
  | String c rest => is_forbidden c || matchForbidden rest
  end.

(** The tail shared by the format strings of the invalid-character errors,
    after their [%s]: colon, slash, backslash, question mark, ampersand,
    star, single quote and double quote, separated by comma and space. *)
Definition forbidden_listing : string :=
  ":, /, " +:+ String backslash_char (", ?, &, *, ', " +:+ String quote_char "").

(** ** Errors *)

Inductive Error : Type :=
  | MetaDataKeyEmpty
  | MetaDataValueEmpty (key : string)
  | ServiceNameEmpty
  | ServiceNameInvalidChars (name : string)
  | AssetNameEmpty
  | AssetNameInvalidChars (name : string)
  | AssetValueEmpty (name : string)
  | CategoryNameEmpty
  | CategoryNameInvalidChars (name : string)
  | IPAddressEmpty
  | InvalidStatus (ipAddress : string) (status : Z)
  | InvalidSnmpPrimary (ipAddress snmpPrimary : string)
  | CannotGetAddress (ipAddress : string) (lookupErr : option string)
  | NotValidAddress (ipAddress : string)
  | ServiceDefinedTwice (service ipAddress : string)
  | ForeignIDEmpty
  | ForeignIDInvalidChars (foreignID : string)
  | BothParents (nodeLabel : string)
  | ParentIsSelfByLabel
  | ParentIsSelfByForeignID
  | ManyPrimaryInterfaces (nodeLabel : string)
  | IPAddressDefinedTwice (ipAddress nodeLabel : string)
  | RequisitionNameEmpty
  | RequisitionNameInvalidChars (name : string)
  | ProblemOnNode (nodeLabel requisition : string) (cause : Error)
  | DuplicateForeignID (foreignID requisition : string).

(** [%s] applied to an [error]: its text, or what [fmt] prints for [nil]. *)
Definition fmt_error (e : option string) : string :=
  match e with
  | Some msg => msg
  | None => "%!s(<nil>)"
  end.

(** The text of each error, format string by format string. *)
Fixpoint Error_message (e : Error) : string :=
  match e with
  | MetaDataKeyEmpty => "Meta-data key cannot be empty"
  | MetaDataValueEmpty key => "Meta-data value for key " +:+ key +:+ " cannot be empty"
  | ServiceNameEmpty => "Service name cannot be empty"
  | ServiceNameInvalidChars name =>
      "Invalid characters on service name " +:+ name +:+ forbidden_listing
  | AssetNameEmpty => "Asset name cannot be empty"
  | AssetNameInvalidChars name =>
      "Invalid characters on asset name " +:+ name +:+ forbidden_listing
  | AssetValueEmpty name => "Asset value for " +:+ name +:+ " cannot be empty"
  | CategoryNameEmpty => "Category name cannot be empty"
  | CategoryNameInvalidChars name =>
      "Invalid characters on category name " +:+ name +:+ forbidden_listing
  | IPAddressEmpty => "IP Address cannot be empty"
  | InvalidStatus ip status =>
      "Invalid status for interface " +:+ ip +:+ ": " +:+ pretty status
  | InvalidSnmpPrimary ip snmp =>
      "Invalid snmp-primary for interface " +:+ ip +:+ ": " +:+ snmp
  | CannotGetAddress ip lookupErr =>
      "Cannot get address from " +:+ ip +:+ " (invalid IP or FQDN); " +:+ fmt_error lookupErr
  | NotValidAddress ip => ip +:+ " is not a valid IPv4 or IPv6 address"
  | ServiceDefinedTwice service ip =>
      "Service " +:+ service +:+ " is defined more than once on interface " +:+ ip
  | ForeignIDEmpty => "Foreign ID cannot be empty"
  | ForeignIDInvalidChars fid =>
      "Invalid characters on Foreign ID " +:+ fid +:+ forbidden_listing
  | BothParents label =>
      "Cannot set both parent foreign ID and parent node label on node "
        +:+ label +:+ ", choose one"
  | ParentIsSelfByLabel =>
      "The parent node cannot be the node itself. The parent-nodel-label has to be different than the node-label"
  | ParentIsSelfByForeignID =>
      "The parent node cannot be the node itself. The parent-foreign-id has to be different than the foreign-id"
  | ManyPrimaryInterfaces label =>
      "Node " +:+ label +:+ " cannot have more than one primary interface"
  | IPAddressDefinedTwice ip label =>
      "IP Address " +:+ ip +:+ " is defined more than once on node " +:+ label
  | RequisitionNameEmpty => "Requisition name cannot be empty"
  | RequisitionNameInvalidChars name =>
      "Invalid characters on requisition name " +:+ name +:+ forbidden_listing
  | ProblemOnNode label requisition cause =>
      "Problem on node " +:+ label +:+ " on requisition " +:+ requisition
        +:+ ": " +:+ Error_message cause
  | DuplicateForeignID fid requisition =>
      "Duplicate Foreign ID " +:+ fid +:+ " on requisition " +:+ requisition
  end.

(** ** The world outside the package *)

Record Env : Type := {
  (** the package variable of the same name *)
  AllowFqdnOnRequisitionedInterfaces : bool;
  (** [net.ParseIP(s) != nil] *)
  ParseIP : string -> bool;
  (** [net.LookupIP(s)]: the addresses, each rendered by [String()], and
      the text of the error when it is not [nil].  One validation call is
      taken to get the same answer whenever it asks about the same name. *)
  LookupIP : string -> list string * option string;
  (** the order in which [for k, v := range m] visits [m]; Go leaves it
      unspecified, so all that is known is that every entry comes once *)
  rangeMap : gmap string Z -> list (string * Z);
  rangeMap_perm : forall m, rangeMap m ≡ₚ map_to_list m
}.

(** [m[k]++] on a [map[string]int]: a missing key reads as zero. *)
Definition incr (k : string) (m : gmap string Z) : gmap string Z :=
  <[k := default 0 (m !! k) + 1]> m.

(** [for k, count := range m { if count > 1 { return ... k ... } }]: the
    first key, in visiting order, whose counter exceeds one. *)
Definition firstRepeated (env : Env) (m : gmap string Z) : option string :=
  fst <$> List.find (fun kc => 1 <? snd kc) (rangeMap env m).

(** ** Outcome of a validating method *)

(** The receiver as the caller sees it after the call, the text written to
    standard output during the call, and the returned error ([None] for
    [nil]). *)
Record Outcome (T : Type) : Type := mkOutcome {
  after : T;
  stdout : list string;
  err : option Error
}.
Arguments mkOutcome {T} _ _ _.
Arguments after {T} _.
Arguments stdout {T} _.
Arguments err {T} _.

Definition pass {T} (x : T) : Outcome T := mkOutcome x [] None.
Definition fail {T} (x : T) (e : Error) : Outcome T := mkOutcome x [] (Some e).

(** Run [k] on the receiver left by [o] unless [o] already failed. *)
Definition andThen {T} (o : Outcome T) (k : T -> Outcome T) : Outcome T :=
  match err o with
  | Some _ => o
  | None => let o' := k (after o) in
            mkOutcome (after o') (stdout o ++ stdout o') (err o')
  end.

(** [for i := range xs { p := &xs[i]; if err := p.f(); err != nil { return
    err } }]: elements are updated in place up to and including the one
    that fails; the rest is not visited. *)
Fixpoint rangePtr {A} (f : A -> A * option Error) (xs : list A) : list A * option Error :=
  match xs with
  | [] => ([], None)
  | x :: rest =>
      let (x', e) := f x in
      match e with
      | Some _ => (x' :: rest, e)
      | None => let (rest', e') := rangePtr f rest in (x' :: rest', e')
      end
  end.

(** [for i := range xs { x := xs[i]; if err := x.f(); err != nil { return
    err } }]: [f] runs on a copy, so [xs] is left as it was. *)
Fixpoint rangeCopy {A} (f : A -> A * option Error) (xs : list A) : option Error :=
  match xs with
  | [] => None
  | x :: rest =>
      match snd (f x) with
      | Some e => Some e
      | None => rangeCopy f rest
      end
  end.

(** The same loop over a method with a value receiver and no slices to
    write through. *)
Fixpoint rangeVal {A} (f : A -> option Error) (xs : list A) : option Error :=
  match xs with
  | [] => None
  | x :: rest =>
      match f x with
      | Some e => Some e
      | None => rangeVal f rest
      end
  end.

(** ** RequisitionMetaData *)

Module RequisitionMetaData.

Record t : Type := mk {
  Key : string;
  Value : string;
  Context : string
}.

Definition set_Context (c : string) (m : t) : t :=
  mk (Key m) (Value m) c.

(** Pointer receiver: the default written to [Context] stays whatever is
    returned afterwards. *)
Definition IsValid (m : t) : t * option Error :=
  let m := if decide (Context m = "") then set_Context "requisition" m else m in
  if decide (Key m = "") then (m, Some MetaDataKeyEmpty)
  else if decide (Value m = "") then (m, Some (MetaDataValueEmpty (Key m)))
  else (m, None).

End RequisitionMetaData.

(** ** RequisitionMonitoredService *)

Module RequisitionMonitoredService.

Record t : Type := mk {
  Name : string;
  MetaData : list RequisitionMetaData.t
}.

Definition set_MetaData (md : list RequisitionMetaData.t) (s : t) : t :=
  mk (Name s) md.

(** [AddMetaData]: pointer receiver; the new entry has no context yet. *)
Definition AddMetaData (key value : string) (s : t) : t :=
  set_MetaData (MetaData s ++ [RequisitionMetaData.mk key value ""]) s.

(** Value receiver, but [m := &s.MetaData[i]] points into the backing array
    the caller's slice also uses. *)
Definition IsValid (s : t) : t * option Error :=
  if decide (Name s = "") then (s, Some ServiceNameEmpty)
  else if matchForbidden (Name s) then (s, Some (ServiceNameInvalidChars (Name s)))
  else
    let (md, e) := rangePtr RequisitionMetaData.IsValid (MetaData s) in
    (set_MetaData md s, e).

End RequisitionMonitoredService.

(** ** RequisitionAsset *)

Module RequisitionAsset.

Record t : Type := mk {
  Name : string;
  Value : string
}.

Definition IsValid (a : t) : option Error :=
  if decide (Name a = "") then Some AssetNameEmpty
  else if matchForbidden (Name a) then Some (AssetNameInvalidChars (Name a))
  else if decide (Value a = "") then Some (AssetValueEmpty (Name a))
  else None.

End RequisitionAsset.

(** ** RequisitionCategory *)

Module RequisitionCategory.

Record t : Type := mk {
  Name : string
}.

Definition IsValid (c : t) : option Error :=
  if decide (Name c = "") then Some CategoryNameEmpty
  else if matchForbidden (Name c) then Some (CategoryNameInvalidChars (Name c))
  else None.

End RequisitionCategory.

(** ** RequisitionInterface *)

Module RequisitionInterface.

Record t : Type := mk {
  IPAddress : string;
  Description : string;
  SnmpPrimary : string;
  Status : Z;
  Services : list RequisitionMonitoredService.t;
  MetaData : list RequisitionMetaData.t
}.

Definition set_IPAddress (ip : string) (intf : t) : t :=
  mk ip (Description intf) (SnmpPrimary intf) (Status intf) (Services intf) (MetaData intf).
Definition set_SnmpPrimary (p : string) (intf : t) : t :=
  mk (IPAddress intf) (Description intf) p (Status intf) (Services intf) (MetaData intf).
Definition set_Status (st : Z) (intf : t) : t :=
  mk (IPAddress intf) (Description intf) (SnmpPrimary intf) st (Services intf) (MetaData intf).
Definition set_Services (ss : list RequisitionMonitoredService.t) (intf : t) : t :=
  mk (IPAddress intf) (Description intf) (SnmpPrimary intf) (Status intf) ss (MetaData intf).

Definition set_MetaData (md : list RequisitionMetaData.t) (intf : t) : t :=
  mk (IPAddress intf) (Description intf) (SnmpPrimary intf) (Status intf) (Services intf) md.

(** [AddMetaData]: pointer receiver; the new entry has no context yet. *)
Definition AddMetaData (key value : string) (intf : t) : t :=
  set_MetaData (MetaData intf ++ [RequisitionMetaData.mk key value ""]) intf.

(** The line printed by [fmt.Printf] when a name is translated. *)
Definition translates_line (name address : string) : string :=
  name +:+ " translates to " +:+ address +:+ "." +:+ String newline_char "".

Definition validateIP (env : Env) (intf : t) : Outcome t :=
  if ParseIP env (IPAddress intf) then pass intf
  else if AllowFqdnOnRequisitionedInterfaces env then
    let (addresses, lookupErr) := LookupIP env (IPAddress intf) in
    match lookupErr, addresses with
    | None, first :: _ =>
        mkOutcome (set_IPAddress first intf) [translates_line (IPAddress intf) first] None
    | _, _ => fail intf (CannotGetAddress (IPAddress intf) lookupErr)
    end
  else fail intf (NotValidAddress (IPAddress intf)).

(** The first loop of [validateServices]: each service is validated through
    a pointer and, once it has passed, counted under its name. *)
Fixpoint validateServices_range (ss : list RequisitionMonitoredService.t)
    (serviceMap : gmap string Z)
    : list RequisitionMonitoredService.t * gmap string Z * option Error :=
  match ss with
  | [] => ([], serviceMap, None)
  | s :: rest =>
      let (s', e) := RequisitionMonitoredService.IsValid s in
      match e with
      | Some _ => (s' :: rest, serviceMap, e)
      | None =>
          let '(rest', serviceMap', e') :=
            validateServices_range rest (incr (RequisitionMonitoredService.Name s') serviceMap) in
          (s' :: rest', serviceMap', e')
      end
  end.

Definition validateServices (env : Env) (intf : t) : Outcome t :=
  let '(ss, serviceMap, e) := validateServices_range (Services intf) ∅ in
  let intf := set_Services ss intf in
  match e with
  | Some e => fail intf e
  | None =>
      match firstRepeated env serviceMap with
      | Some service => fail intf (ServiceDefinedTwice service (IPAddress intf))
      | None => pass intf
      end
  end.

(** Pointer receiver.  The last loop validates a copy of each meta-data
    entry ([m := intf.MetaData[i]]), so the entries themselves are left as
    they were. *)
Definition IsValid (env : Env) (intf : t) : Outcome t :=
  if decide (IPAddress intf = "") then fail intf IPAddressEmpty
  else
    let intf := if decide (Status intf = 0) then set_Status 1 intf else intf in
    if decide (Status intf ≠ 1 ∧ Status intf ≠ 3)
    then fail intf (InvalidStatus (IPAddress intf) (Status intf))
    else
      let intf := if decide (SnmpPrimary intf = "") then set_SnmpPrimary "N" intf else intf in
      if decide (SnmpPrimary intf ≠ "P" ∧ SnmpPrimary intf ≠ "S" ∧ SnmpPrimary intf ≠ "N")
      then fail intf (InvalidSnmpPrimary (IPAddress intf) (SnmpPrimary intf))
      else
        andThen (validateIP env intf) (fun intf =>
        andThen (validateServices env intf) (fun intf =>
        match rangeCopy RequisitionMetaData.IsValid (MetaData intf) with
        | Some e => fail intf e
        | None => pass intf
        end)).

End RequisitionInterface.

(** ** RequisitionNode *)

Module RequisitionNode.

Record t : Type := mk {
  NodeLabel : string;
  ForeignID : string;
  Location : string;
  City : string;
  Building : string;
  ParentForeignSource : string;
  ParentForeignID : string;
  ParentNodeLabel : string;
  Interfaces : list RequisitionInterface.t;
  Categories : list RequisitionCategory.t;
  Assets : list RequisitionAsset.t;
  MetaData : list RequisitionMetaData.t
}.

Definition set_NodeLabel (l : string) (n : t) : t :=
  mk l (ForeignID n) (Location n) (City n) (Building n) (ParentForeignSource n)
     (ParentForeignID n) (ParentNodeLabel n) (Interfaces n) (Categories n) (Assets n)
     (MetaData n).
Definition set_Interfaces (ifaces : list RequisitionInterface.t) (n : t) : t :=
  mk (NodeLabel n) (ForeignID n) (Location n) (City n) (Building n) (ParentForeignSource n)
     (ParentForeignID n) (ParentNodeLabel n) ifaces (Categories n) (Assets n) (MetaData n).
Definition set_MetaData (md : list RequisitionMetaData.t) (n : t) : t :=
  mk (NodeLabel n) (ForeignID n) (Location n) (City n) (Building n) (ParentForeignSource n)
     (ParentForeignID n) (ParentNodeLabel n) (Interfaces n) (Categories n) (Assets n) md.

(** [AddMetaData]: pointer receiver; the new entry has no context yet. *)
Definition AddMetaData (key value : string) (n : t) : t :=
  set_MetaData (MetaData n ++ [RequisitionMetaData.mk key value ""]) n.

(** What the first loop of [validateInterfaces] leaves behind: the slice,
    the two local variables, the text printed and the error it stopped on. *)
Record range_state : Type := mkRange {
  intfs : list RequisitionInterface.t;
  primaryCount : Z;
  intfMap : gmap string Z;
  printed : list string;
  stopped : option Error
}.

(** Each interface is counted under the address it carries on entry, and
    as primary if it is flagged so on entry, before it is validated through
    a pointer. *)
Fixpoint validateInterfaces_range (env : Env) (ifaces : list RequisitionInterface.t)
    (primaryCount : Z) (intfMap : gmap string Z) : range_state :=
  match ifaces with
  | [] => mkRange [] primaryCount intfMap [] None
  | intf :: rest =>
      let intfMap := incr (RequisitionInterface.IPAddress intf) intfMap in
      let primaryCount :=
        if decide (RequisitionInterface.SnmpPrimary intf = "P")
        then primaryCount + 1 else primaryCount in
      let o := RequisitionInterface.IsValid env intf in
      match err o with
      | Some _ => mkRange (after o :: rest) primaryCount intfMap (stdout o) (err o)
      | None =>
          let r := validateInterfaces_range env rest primaryCount intfMap in
          mkRange (after o :: intfs r) (RequisitionNode.primaryCount r)
                  (RequisitionNode.intfMap r) (stdout o ++ printed r) (stopped r)
      end
  end.

Definition validateInterfaces (env : Env) (n : t) : Outcome t :=
  let r := validateInterfaces_range env (Interfaces n) 0 ∅ in
  let n := set_Interfaces (intfs r) n in
  match stopped r with
  | Some e => mkOutcome n (printed r) (Some e)
  | None =>
      if decide (primaryCount r > 1)
      then mkOutcome n (printed r) (Some (ManyPrimaryInterfaces (NodeLabel n)))
      else
        match firstRepeated env (intfMap r) with
        | Some ipAddr =>
            mkOutcome n (printed r) (Some (IPAddressDefinedTwice ipAddr (NodeLabel n)))
        | None => mkOutcome n (printed r) None
        end
  end.

(** Pointer receiver. *)
Definition IsValid (env : Env) (n : t) : Outcome t :=
  if decide (ForeignID n = "") then fail n ForeignIDEmpty
  else if matchForbidden (ForeignID n) then fail n (ForeignIDInvalidChars (ForeignID n))
  else
    let n := if decide (NodeLabel n = "") then set_NodeLabel (ForeignID n) n else n in
    if decide (ParentForeignID n ≠ "" ∧ ParentNodeLabel n ≠ "")
    then fail n (BothParents (NodeLabel n))
    else if decide (ParentNodeLabel n = NodeLabel n) then fail n ParentIsSelfByLabel
    else if decide (ParentForeignID n = ForeignID n) then fail n ParentIsSelfByForeignID
    else
      andThen (validateInterfaces env n) (fun n =>
      match rangeVal RequisitionCategory.IsValid (Categories n) with
      | Some e => fail n e
      | None =>
          match rangeVal RequisitionAsset.IsValid (Assets n) with
          | Some e => fail n e
          | None =>
              let (md, e) := rangePtr RequisitionMetaData.IsValid (MetaData n) in
              mkOutcome (set_MetaData md n) [] e
          end
      end).

End RequisitionNode.

(** ** Requisition *)

Module Requisition.

(** [DateStamp] and [LastImport] are pointers to a [Time] declared
    elsewhere in the package; [IsValid] never reads them, so [Time] is left
    as a parameter of the record. *)
Record t {Time : Type} : Type := mk {
  DateStamp : option Time;
  LastImport : option Time;
  Name : string;
  Nodes : list RequisitionNode.t
}.
Arguments t : clear implicits.

Definition set_Nodes {Time} (ns : list RequisitionNode.t) (r : t Time) : t Time :=
  mk Time (DateStamp r) (LastImport r) (Name r) ns.

(** What the loop over the nodes leaves behind. *)
Record range_state : Type := mkRange {
  nodes : list RequisitionNode.t;
  foreignIDs : gmap string Z;
  printed : list string;
  stopped : option Error
}.

(** Each node is counted under its foreign ID, then validated through a
    pointer; a failure is wrapped with the label the node carries after
    the call and with the name of the requisition. *)
Fixpoint IsValid_range (env : Env) (name : string) (ns : list RequisitionNode.t)
    (foreignIDs : gmap string Z) : range_state :=
  match ns with
  | [] => mkRange [] foreignIDs [] None
  | n :: rest =>
      let foreignIDs := incr (RequisitionNode.ForeignID n) foreignIDs in
      let o := RequisitionNode.IsValid env n in
      match err o with
      | Some e =>
          mkRange (after o :: rest) foreignIDs (stdout o)
                  (Some (ProblemOnNode (RequisitionNode.NodeLabel (after o)) name e))
      | None =>
          let r := IsValid_range env name rest foreignIDs in
          mkRange (after o :: nodes r) (Requisition.foreignIDs r)
                  (stdout o ++ printed r) (stopped r)
      end
  end.

(** Value receiver, but [n := &r.Nodes[i]] points into the backing array
    the caller's slice also uses. *)
Definition IsValid {Time} (env : Env) (r : t Time) : Outcome (t Time) :=
  if decide (Name r = "") then fail r RequisitionNameEmpty
  else if matchForbidden (Name r) then fail r (RequisitionNameInvalidChars (Name r))
  else
    let s := IsValid_range env (Name r) (Nodes r) ∅ in
    let r := set_Nodes (nodes s) r in
    match stopped s with
    | Some e => mkOutcome r (printed s) (Some e)
    | None =>
        match firstRepeated env (foreignIDs s) with
        | Some id => mkOutcome r (printed s) (Some (DuplicateForeignID id (Name r)))
        | None => mkOutcome r (printed s) None
        end
    end.

End Requisition.

(** ** RequisitionsList, RequisitionStats, RequisitionsStats *)

Module RequisitionsList.

Record t : Type := mk {
  Count : Z;
  ForeignSources : list string
}.

End RequisitionsList.

Module RequisitionStats.

Record t {Time : Type} : Type := mk {
  Name : string;
  Count : Z;
  ForeignIDs : list string;
  LastImport : option Time
}.
Arguments t : clear implicits.

(** The zero value [RequisitionStats{}]. *)
Definition zero {Time} : t Time := mk Time "" 0 [] None.

End RequisitionStats.

Module RequisitionsStats.

Record t {Time : Type} : Type := mk {
  Count : Z;
  ForeignSources : list (RequisitionStats.t Time)
}.
Arguments t : clear implicits.

(** The loop of [GetRequisitionStats] over what is left of the slice. *)
Fixpoint GetRequisitionStats_range {Time} (reqs : list (RequisitionStats.t Time))
    (foreignSource : string) : RequisitionStats.t Time :=
  match reqs with
  | [] => RequisitionStats.zero
  | req :: rest =>
      if decide (RequisitionStats.Name req = foreignSource) then req
      else GetRequisitionStats_range rest foreignSource
  end.

Definition GetRequisitionStats {Time} (stats : t Time) (foreignSource : string)
    : RequisitionStats.t Time :=
  GetRequisitionStats_range (ForeignSources stats) foreignSource.

End RequisitionsStats.

(** ** A stand-in environment for concrete runs

    A table plays the part of the network: the strings [net.ParseIP]
    accepts and the names [net.LookupIP] knows.  Maps are walked in the
    order of [map_to_list]. *)

Definition sample_literals : list string :=
  ["10.0.0.1"; "10.0.0.2"; "10.0.0.10"; "2001:db8::1"].

Definition sample_hosts : list (string * list string) :=
  [("router.example.org", ["10.0.0.1"; "2001:db8::1"]);
   ("gw.example.org", ["10.0.0.1"]);
   ("switch.example.org", ["10.0.0.2"])].

Definition sample_LookupIP (name : string) : list string * option string :=
  match List.find (fun h => bool_decide (fst h = name)) sample_hosts with
  | Some h => (snd h, None)
  | None => ([], Some ("lookup " +:+ name +:+ ": no such host"))
  end.

Definition sampleEnv (allowFqdn : bool) : Env := {|
  AllowFqdnOnRequisitionedInterfaces := allowFqdn;
  ParseIP := fun s => bool_decide (s ∈ sample_literals);
  LookupIP := sample_LookupIP;
  rangeMap := map_to_list;
  rangeMap_perm := fun m => Permutation_refl (map_to_list m)
|}.

Definition newInterface (ip : string) : RequisitionInterface.t :=
  RequisitionInterface.mk ip "" "" 0 [] [].

Definition newNode (foreignID : string) (ifaces : list RequisitionInterface.t)
    : RequisitionNode.t :=
  RequisitionNode.mk "" foreignID "" "" "" "" "" "" ifaces [] [] [].

Definition newRequisition (name : string) (ns : list RequisitionNode.t)
    : Requisition.t unit :=
  Requisition.mk unit None None name ns.

(** * Vocabulary of the properties *)

(** The characters of a string, in order. *)
Fixpoint chars (s : string) : list ascii :=
  match s with
  | EmptyString => []
  | String c rest => c :: chars rest
  end.

(** Some character of [s] belongs to the forbidden set. *)
Definition has_forbidden (s : string) : Prop :=
  ∃ c, c ∈ chars s ∧ c ∈ forbidden_chars.

(** The map a loop ends with after [m[k]++] for each [k] of [ks] in turn. *)
Definition tally (ks : list string) (m : gmap string Z) : gmap string Z :=
  foldl (λ m k, incr k m) m ks.

(** How often [k] occurs in [ks]. *)
Definition times (k : string) (ks : list string) : nat :=
  count_occ String.eq_dec ks k.

(** An entity passes when its own [IsValid] returns [nil]. *)
Definition metaData_passes (m : RequisitionMetaData.t) : Prop :=
  snd (RequisitionMetaData.IsValid m) = None.
Definition service_passes (s : RequisitionMonitoredService.t) : Prop :=
  snd (RequisitionMonitoredService.IsValid s) = None.
Definition interface_passes (env : Env) (i : RequisitionInterface.t) : Prop :=
  err (RequisitionInterface.IsValid env i) = None.
Definition node_passes (env : Env) (n : RequisitionNode.t) : Prop :=
  err (RequisitionNode.IsValid env n) = None.

(** A meta-data entry with its context defaulted. *)
Definition with_default_context (m : RequisitionMetaData.t) : RequisitionMetaData.t :=
  if decide (RequisitionMetaData.Context m = "")
  then RequisitionMetaData.set_Context "requisition" m else m.

(** The method that builds an error. *)
Inductive Origin : Type :=
  | FromMetaData | FromService | FromAsset | FromCategory
  | FromInterface | FromNode | FromRequisition.

Definition origin (e : Error) : Origin :=
  match e with
  | MetaDataKeyEmpty | MetaDataValueEmpty _ => FromMetaData
  | ServiceNameEmpty | ServiceNameInvalidChars _ => FromService
  | AssetNameEmpty | AssetNameInvalidChars _ | AssetValueEmpty _ => FromAsset
  | CategoryNameEmpty | CategoryNameInvalidChars _ => FromCategory
  | IPAddressEmpty | InvalidStatus _ _ | InvalidSnmpPrimary _ _
  | CannotGetAddress _ _ | NotValidAddress _ | ServiceDefinedTwice _ _ => FromInterface
  | ForeignIDEmpty | ForeignIDInvalidChars _ | BothParents _
  | ParentIsSelfByLabel | ParentIsSelfByForeignID
  | ManyPrimaryInterfaces _ | IPAddressDefinedTwice _ _ => FromNode
  | RequisitionNameEmpty | RequisitionNameInvalidChars _
  | ProblemOnNode _ _ _ | DuplicateForeignID _ _ => FromRequisition
  end.

(** An interface after the two defaults of [RequisitionInterface.IsValid]. *)
Definition with_default_status (i : RequisitionInterface.t) : RequisitionInterface.t :=
  if decide (RequisitionInterface.Status i = 0)
  then RequisitionInterface.set_Status 1 i else i.
Definition with_default_snmp (i : RequisitionInterface.t) : RequisitionInterface.t :=
  if decide (RequisitionInterface.SnmpPrimary i = "")
  then RequisitionInterface.set_SnmpPrimary "N" i else i.
Definition with_defaults (i : RequisitionInterface.t) : RequisitionInterface.t :=
  with_default_snmp (with_default_status i).

(** The three field checks that come before address resolution all pass. *)
Definition status_allowed (i : RequisitionInterface.t) : Prop :=
  RequisitionInterface.Status i = 0 ∨ RequisitionInterface.Status i = 1
  ∨ RequisitionInterface.Status i = 3.
Definition snmp_allowed (i : RequisitionInterface.t) : Prop :=
  RequisitionInterface.SnmpPrimary i = "" ∨ RequisitionInterface.SnmpPrimary i = "P"
  ∨ RequisitionInterface.SnmpPrimary i = "S" ∨ RequisitionInterface.SnmpPrimary i = "N".
Definition reaches_address_step (i : RequisitionInterface.t) : Prop :=
  RequisitionInterface.IPAddress i ≠ "" ∧ status_allowed i ∧ snmp_allowed i.

(** The errors of those three checks. *)
Definition field_check_error (e : Error) : bool :=
  match e with
  | IPAddressEmpty | InvalidStatus _ _ | InvalidSnmpPrimary _ _ => true
  | _ => false
  end.

(** The address step lets [ip] through: it is a literal address, or names
    may be resolved and [ip] resolves, without error, to at least one
    address. *)
Definition resolves_to (env : Env) (ip first : string) : Prop :=
  ∃ others, LookupIP env ip = (first :: others, None).
Definition address_accepted (env : Env) (ip : string) : Prop :=
  ParseIP env ip = true ∨
  (AllowFqdnOnRequisitionedInterfaces env = true ∧ ∃ first, resolves_to env ip first).

(** What is left of [IsValid] on an interface once the field checks have
    passed: address, then services, then meta-data. *)
Definition after_field_checks (env : Env) (i : RequisitionInterface.t)
    : Outcome RequisitionInterface.t :=
  andThen (RequisitionInterface.validateIP env i) (λ i,
  andThen (RequisitionInterface.validateServices env i) (λ i,
  match rangeCopy RequisitionMetaData.IsValid (RequisitionInterface.MetaData i) with
  | Some e => fail i e
  | None => pass i
  end)).

(** A node with its label defaulted to the foreign ID. *)
Definition with_default_label (n : RequisitionNode.t) : RequisitionNode.t :=
  if decide (RequisitionNode.NodeLabel n = "")
  then RequisitionNode.set_NodeLabel (RequisitionNode.ForeignID n) n else n.

(** The label a node carries once it has been defaulted. *)
Definition label_of (n : RequisitionNode.t) : string :=
  RequisitionNode.NodeLabel (with_default_label n).

(** The foreign ID check of a node passes. *)
Definition foreignID_passes (n : RequisitionNode.t) : Prop :=
  RequisitionNode.ForeignID n ≠ "" ∧ ¬ has_forbidden (RequisitionNode.ForeignID n).

(** Both ways of naming the parent are used at once. *)
Definition both_parents (n : RequisitionNode.t) : Prop :=
  RequisitionNode.ParentForeignID n ≠ "" ∧ RequisitionNode.ParentNodeLabel n ≠ "".

(** The checks a node runs on its own fields, before its interfaces, all
    pass. *)
Definition reaches_interfaces (n : RequisitionNode.t) : Prop :=
  foreignID_passes n ∧ ¬ both_parents n ∧
  RequisitionNode.ParentNodeLabel n ≠ label_of n ∧
  RequisitionNode.ParentForeignID n ≠ RequisitionNode.ForeignID n.

(** The addresses of the interfaces of a node, as supplied. *)
Definition addresses (n : RequisitionNode.t) : list string :=
  map RequisitionInterface.IPAddress (RequisitionNode.Interfaces n).

(** How many interfaces of a node are flagged primary, as supplied. *)
Definition primaries (n : RequisitionNode.t) : nat :=
  length (filter (λ i, RequisitionInterface.SnmpPrimary i = "P") (RequisitionNode.Interfaces n)).

(** What is left of [IsValid] on a node after its interfaces: categories,
    assets, meta-data. *)
Definition after_interfaces (n : RequisitionNode.t) : Outcome RequisitionNode.t :=
  match rangeVal RequisitionCategory.IsValid (RequisitionNode.Categories n) with
  | Some e => fail n e
  | None =>
      match rangeVal RequisitionAsset.IsValid (RequisitionNode.Assets n) with
      | Some e => fail n e
      | None =>
          let (md, e) := rangePtr RequisitionMetaData.IsValid (RequisitionNode.MetaData n) in
          mkOutcome (RequisitionNode.set_MetaData md n) [] e
      end
  end.

Definition category_passes (c : RequisitionCategory.t) : Prop :=
  RequisitionCategory.IsValid c = None.
Definition asset_passes (a : RequisitionAsset.t) : Prop :=
  RequisitionAsset.IsValid a = None.

(** The errors of the checks a node runs on its own fields. *)
Definition node_field_error (e : Error) : bool :=
  match e with
  | ForeignIDEmpty | ForeignIDInvalidChars _ | BothParents _
  | ParentIsSelfByLabel | ParentIsSelfByForeignID => true
  | _ => false
  end.

(** Every way [IsValid] on a node can end, in the order of its checks. *)
Inductive node_result (env : Env) (n : RequisitionNode.t) : option Error → Prop :=
  | node_without_foreignID :
      RequisitionNode.ForeignID n = "" →
      node_result env n (Some ForeignIDEmpty)
  | node_with_forbidden_foreignID :
      has_forbidden (RequisitionNode.ForeignID n) →
      node_result env n (Some (ForeignIDInvalidChars (RequisitionNode.ForeignID n)))
  | node_with_both_parents :
      foreignID_passes n → both_parents n →
      node_result env n (Some (BothParents (label_of n)))
  | node_parent_of_itself_by_label :
      foreignID_passes n → ¬ both_parents n →
      RequisitionNode.ParentNodeLabel n = label_of n →
      node_result env n (Some ParentIsSelfByLabel)
  | node_parent_of_itself_by_foreignID :
      foreignID_passes n → ¬ both_parents n →
      RequisitionNode.ParentNodeLabel n ≠ label_of n →
      RequisitionNode.ParentForeignID n = RequisitionNode.ForeignID n →
      node_result env n (Some ParentIsSelfByForeignID)
  | node_fails_on_interface before i rest e :
      reaches_interfaces n →
      RequisitionNode.Interfaces n = before ++ i :: rest →
      Forall (interface_passes env) before →
      err (RequisitionInterface.IsValid env i) = Some e →
      node_result env n (Some e)
  | node_fails_on_primaries :
      reaches_interfaces n →
      Forall (interface_passes env) (RequisitionNode.Interfaces n) →
      (1 < primaries n)%nat →
      node_result env n (Some (ManyPrimaryInterfaces (label_of n)))
  | node_fails_on_addresses ip :
      reaches_interfaces n →
      Forall (interface_passes env) (RequisitionNode.Interfaces n) →
      (primaries n ≤ 1)%nat →
      (1 < times ip (addresses n))%nat →
      node_result env n (Some (IPAddressDefinedTwice ip (label_of n)))
  | node_fails_later e :
      reaches_interfaces n →
      Forall (interface_passes env) (RequisitionNode.Interfaces n) →
      (primaries n ≤ 1)%nat → NoDup (addresses n) →
      origin e = FromCategory ∨ origin e = FromAsset ∨ origin e = FromMetaData →
      node_result env n (Some e)
  | node_is_valid :
      reaches_interfaces n →
      Forall (interface_passes env) (RequisitionNode.Interfaces n) →
      (primaries n ≤ 1)%nat → NoDup (addresses n) →
      Forall category_passes (RequisitionNode.Categories n) →
      Forall asset_passes (RequisitionNode.Assets n) →
      Forall metaData_passes (RequisitionNode.MetaData n) →
      node_result env n None.

(** The foreign IDs of the nodes of a requisition. *)
Definition foreign_ids {Time} (r : Requisition.t Time) : list string :=
  map RequisitionNode.ForeignID (Requisition.Nodes r).

(** The name check of a requisition passes. *)
Definition name_passes {Time} (r : Requisition.t Time) : Prop :=
  Requisition.Name r ≠ "" ∧ ¬ has_forbidden (Requisition.Name r).

(** A node failure as [Requisition.IsValid] reports it: the cause, with
    the label the node carries after its validation and the name of the
    requisition. *)
Definition wrapped (env : Env) (name : string) (n : RequisitionNode.t) (cause : Error)
    : Error :=
  ProblemOnNode (RequisitionNode.NodeLabel (after (RequisitionNode.IsValid env n))) name cause.

(** [text] begins with [prefix]. *)
Fixpoint starts_with (prefix text : string) : bool :=
  match prefix, text with
  | EmptyString, _ => true
  | String a p, String b t => bool_decide (a = b) && starts_with p t
  | String _ _, EmptyString => false
  end.

(** [name] occurs somewhere in [text]. *)
Fixpoint mentions (name text : string) : bool :=
  starts_with name text ||
  match text with
  | EmptyString => false
  | String _ rest => mentions name rest
  end.

(** The tree a successful validation leaves behind.  The meta-data of an
    interface appears as supplied: [RequisitionInterface.IsValid] never
    writes to it. *)
Definition normalized_service (s : RequisitionMonitoredService.t)
    : RequisitionMonitoredService.t :=
  RequisitionMonitoredService.set_MetaData
    (map with_default_context (RequisitionMonitoredService.MetaData s)) s.

Definition resolved_address (env : Env) (ip : string) : string :=
  if ParseIP env ip then ip
  else match LookupIP env ip with
       | (first :: _, None) => first
       | _ => ip
       end.

Definition normalized_interface (env : Env) (i : RequisitionInterface.t)
    : RequisitionInterface.t :=
  RequisitionInterface.mk
    (resolved_address env (RequisitionInterface.IPAddress i))
    (RequisitionInterface.Description i)
    (if decide (RequisitionInterface.SnmpPrimary i = "") then "N"
     else RequisitionInterface.SnmpPrimary i)
    (if decide (RequisitionInterface.Status i = 0) then 1 else RequisitionInterface.Status i)
    (map normalized_service (RequisitionInterface.Services i))
    (RequisitionInterface.MetaData i).

Definition normalized_node (env : Env) (n : RequisitionNode.t) : RequisitionNode.t :=
  RequisitionNode.mk
    (label_of n) (RequisitionNode.ForeignID n) (RequisitionNode.Location n)
    (RequisitionNode.City n) (RequisitionNode.Building n)
    (RequisitionNode.ParentForeignSource n) (RequisitionNode.ParentForeignID n)
    (RequisitionNode.ParentNodeLabel n)
    (map (normalized_interface env) (RequisitionNode.Interfaces n))
    (RequisitionNode.Categories n) (RequisitionNode.Assets n)
    (map with_default_context (RequisitionNode.MetaData n)).

(** Validity read off the fields alone, level by level. *)
Definition clean_name (s : string) : Prop := s ≠ "" ∧ ¬ has_forbidden s.

Definition metaData_ok (m : RequisitionMetaData.t) : Prop :=
  RequisitionMetaData.Key m ≠ "" ∧ RequisitionMetaData.Value m ≠ "".

Definition service_ok (s : RequisitionMonitoredService.t) : Prop :=
  clean_name (RequisitionMonitoredService.Name s) ∧
  Forall metaData_ok (RequisitionMonitoredService.MetaData s).

Definition asset_ok (a : RequisitionAsset.t) : Prop :=
  clean_name (RequisitionAsset.Name a) ∧ RequisitionAsset.Value a ≠ "".

Definition category_ok (c : RequisitionCategory.t) : Prop :=
  clean_name (RequisitionCategory.Name c).

Definition interface_ok (env : Env) (i : RequisitionInterface.t) : Prop :=
  RequisitionInterface.IPAddress i ≠ "" ∧ status_allowed i ∧ snmp_allowed i ∧
  address_accepted env (RequisitionInterface.IPAddress i) ∧
  Forall service_ok (RequisitionInterface.Services i) ∧
  NoDup (map RequisitionMonitoredService.Name (RequisitionInterface.Services i)) ∧
  Forall metaData_ok (RequisitionInterface.MetaData i).

Definition node_ok (env : Env) (n : RequisitionNode.t) : Prop :=
  clean_name (RequisitionNode.ForeignID n) ∧
  ¬ both_parents n ∧
  RequisitionNode.ParentNodeLabel n ≠ label_of n ∧
  RequisitionNode.ParentForeignID n ≠ RequisitionNode.ForeignID n ∧
  Forall (interface_ok env) (RequisitionNode.Interfaces n) ∧
  (primaries n ≤ 1)%nat ∧ NoDup (addresses n) ∧
  Forall category_ok (RequisitionNode.Categories n) ∧
  Forall asset_ok (RequisitionNode.Assets n) ∧
  Forall metaData_ok (RequisitionNode.MetaData n).

Definition requisition_ok {Time} (env : Env) (r : Requisition.t Time) : Prop :=
  clean_name (Requisition.Name r) ∧
  Forall (node_ok env) (Requisition.Nodes r) ∧
  NoDup (foreign_ids r).

(** What validation may write, level by level: the context of a meta-data
    entry (from empty to the default), the status and the primary flag of
    an interface (from unset to their defaults), the address of an
    interface (from a name to the first address it resolves to) and the
    label of a node (from empty to the foreign ID).  Everything else is
    kept, and so are the number and the order of the elements of every
    slice. *)
Definition entry_kept (m m' : RequisitionMetaData.t) : Prop :=
  RequisitionMetaData.Key m' = RequisitionMetaData.Key m ∧
  RequisitionMetaData.Value m' = RequisitionMetaData.Value m ∧
  (RequisitionMetaData.Context m' = RequisitionMetaData.Context m ∨
   (RequisitionMetaData.Context m = "" ∧ RequisitionMetaData.Context m' = "requisition")).

Definition service_kept (s s' : RequisitionMonitoredService.t) : Prop :=
  RequisitionMonitoredService.Name s' = RequisitionMonitoredService.Name s ∧
  Forall2 entry_kept (RequisitionMonitoredService.MetaData s)
                     (RequisitionMonitoredService.MetaData s').

Definition interface_kept (env : Env) (i i' : RequisitionInterface.t) : Prop :=
  RequisitionInterface.Description i' = RequisitionInterface.Description i ∧
  RequisitionInterface.MetaData i' = RequisitionInterface.MetaData i ∧
  (RequisitionInterface.IPAddress i' = RequisitionInterface.IPAddress i ∨
   (ParseIP env (RequisitionInterface.IPAddress i) = false ∧
    AllowFqdnOnRequisitionedInterfaces env = true ∧
    resolves_to env (RequisitionInterface.IPAddress i) (RequisitionInterface.IPAddress i'))) ∧
  (RequisitionInterface.Status i' = RequisitionInterface.Status i ∨
   (RequisitionInterface.Status i = 0 ∧ RequisitionInterface.Status i' = 1)) ∧
  (RequisitionInterface.SnmpPrimary i' = RequisitionInterface.SnmpPrimary i ∨
   (RequisitionInterface.SnmpPrimary i = "" ∧ RequisitionInterface.SnmpPrimary i' = "N")) ∧
  Forall2 service_kept (RequisitionInterface.Services i) (RequisitionInterface.Services i').

Definition node_kept (env : Env) (n n' : RequisitionNode.t) : Prop :=
  RequisitionNode.ForeignID n' = RequisitionNode.ForeignID n ∧
  RequisitionNode.Location n' = RequisitionNode.Location n ∧
  RequisitionNode.City n' = RequisitionNode.City n ∧
  RequisitionNode.Building n' = RequisitionNode.Building n ∧
  RequisitionNode.ParentForeignSource n' = RequisitionNode.ParentForeignSource n ∧
  RequisitionNode.ParentForeignID n' = RequisitionNode.ParentForeignID n ∧
  RequisitionNode.ParentNodeLabel n' = RequisitionNode.ParentNodeLabel n ∧
  RequisitionNode.Categories n' = RequisitionNode.Categories n ∧
  RequisitionNode.Assets n' = RequisitionNode.Assets n ∧
  (RequisitionNode.NodeLabel n' = RequisitionNode.NodeLabel n ∨
   (RequisitionNode.NodeLabel n = "" ∧
    RequisitionNode.NodeLabel n' = RequisitionNode.ForeignID n)) ∧
  Forall2 (interface_kept env) (RequisitionNode.Interfaces n) (RequisitionNode.Interfaces n') ∧
  Forall2 entry_kept (RequisitionNode.MetaData n) (RequisitionNode.MetaData n').

Definition requisition_kept {Time} (env : Env) (r r' : Requisition.t Time) : Prop :=
  Requisition.Name r' = Requisition.Name r ∧
  Requisition.DateStamp r' = Requisition.DateStamp r ∧
  Requisition.LastImport r' = Requisition.LastImport r ∧
  Forall2 (node_kept env) (Requisition.Nodes r) (Requisition.Nodes r').

(** The lines a successful validation prints: one for each interface whose
    address is not a literal one, in the order of the tree. *)
Definition interface_lines (env : Env) (i : RequisitionInterface.t) : list string :=
  if ParseIP env (RequisitionInterface.IPAddress i) then []
  else [RequisitionInterface.translates_line (RequisitionInterface.IPAddress i)
          (resolved_address env (RequisitionInterface.IPAddress i))].

Definition node_lines (env : Env) (n : RequisitionNode.t) : list string :=
  flat_map (interface_lines env) (RequisitionNode.Interfaces n).

Definition requisition_lines {Time} (env : Env) (r : Requisition.t Time) : list string :=
  flat_map (node_lines env) (Requisition.Nodes r).

(** Every interface of the requisition carries a literal address. *)
Definition all_literal {Time} (env : Env) (r : Requisition.t Time) : Prop :=
  Forall (λ n, Forall (λ i, ParseIP env (RequisitionInterface.IPAddress i) = true)
                      (RequisitionNode.Interfaces n))
         (Requisition.Nodes r).

(** The addresses of a node once resolved, and the assumption on the
    resolver under which a second validation is studied: what a name of
    the requisition resolves to is the text of a literal address, not
    empty.  [net.IP.String] gives such a text for every address a
    successful [net.LookupIP] returns. *)
Definition resolved_addresses (env : Env) (n : RequisitionNode.t) : list string :=
  map (resolved_address env) (addresses n).

Definition literal_address (env : Env) (a : string) : Prop :=
  a ≠ "" ∧ ParseIP env a = true.

Definition resolves_to_literals {Time} (env : Env) (r : Requisition.t Time) : Prop :=
  Forall (λ n, Forall (λ i, literal_address env
                              (resolved_address env (RequisitionInterface.IPAddress i)))
                      (RequisitionNode.Interfaces n))
         (Requisition.Nodes r).

(** Two nodes that differ at most in the order of their interfaces,
    categories, assets and meta-data (and in the fields validation never
    reads), and two requisitions of the same name that differ at most in
    the order of their nodes and in the order inside the nodes. *)
Definition reordered_node (n n' : RequisitionNode.t) : Prop :=
  RequisitionNode.NodeLabel n' = RequisitionNode.NodeLabel n ∧
  RequisitionNode.ForeignID n' = RequisitionNode.ForeignID n ∧
  RequisitionNode.ParentForeignID n' = RequisitionNode.ParentForeignID n ∧
  RequisitionNode.ParentNodeLabel n' = RequisitionNode.ParentNodeLabel n ∧
  Permutation (RequisitionNode.Interfaces n) (RequisitionNode.Interfaces n') ∧
  Permutation (RequisitionNode.Categories n) (RequisitionNode.Categories n') ∧
  Permutation (RequisitionNode.Assets n) (RequisitionNode.Assets n') ∧
  Permutation (RequisitionNode.MetaData n) (RequisitionNode.MetaData n').

Definition reordered {Time} (r r' : Requisition.t Time) : Prop :=
  Requisition.Name r' = Requisition.Name r ∧
  ∃ l, Permutation (Requisition.Nodes r) l ∧ Forall2 reordered_node l (Requisition.Nodes r').

(** Two environments that agree on everything but the order in which maps
    are walked. *)
Definition same_resolver (env env' : Env) : Prop :=
  AllowFqdnOnRequisitionedInterfaces env' = AllowFqdnOnRequisitionedInterfaces env ∧
  (∀ s, ParseIP env' s = ParseIP env s) ∧
  (∀ s, LookupIP env' s = LookupIP env s).

(** Two errors that are the same but for the repeated service, address or
    foreign ID they name. *)
Inductive same_but_for_duplicate : Error → Error → Prop :=
  | same_error e : same_but_for_duplicate e e
  | other_service s s' ip :
      same_but_for_duplicate (ServiceDefinedTwice s ip) (ServiceDefinedTwice s' ip)
  | other_address a a' label :
      same_but_for_duplicate (IPAddressDefinedTwice a label) (IPAddressDefinedTwice a' label)
  | other_foreignID id id' name :
      same_but_for_duplicate (DuplicateForeignID id name) (DuplicateForeignID id' name)
  | on_same_node label name e e' :
      same_but_for_duplicate e e' →
      same_but_for_duplicate (ProblemOnNode label name e) (ProblemOnNode label name e').

Definition same_verdict (e e' : option Error) : Prop :=
  match e, e' with
  | None, None => True
  | Some a, Some b => same_but_for_duplicate a b
  | _, _ => False
  end.

Definition same_run {T} (o o' : Outcome T) : Prop :=
  after o = after o' ∧ stdout o = stdout o' ∧ same_verdict (err o) (err o').

(** The stand-in environment with maps walked the other way round. *)
Definition sampleEnv_backwards (allowFqdn : bool) : Env := {|
  AllowFqdnOnRequisitionedInterfaces := allowFqdn;
  ParseIP := fun s => bool_decide (s ∈ sample_literals);
  LookupIP := sample_LookupIP;
  rangeMap := fun m => reverse (map_to_list m);
  rangeMap_perm := fun m => reverse_Permutation (map_to_list m)
|}.

(** The environment with the package variable set to [allow]. *)
Definition with_toggle (allow : bool) (env : Env) : Env := {|
  AllowFqdnOnRequisitionedInterfaces := allow;
  ParseIP := ParseIP env;
  LookupIP := LookupIP env;
  rangeMap := rangeMap env;
  rangeMap_perm := rangeMap_perm env
|}.

(** * The commands daemon and events

    Both commands read their arguments, build an event and hand it to the
    events service.  The event type, its [AddParameter] and the service
    are declared elsewhere; what is modelled of them is what these
    functions do: the fields of the literal they build and the calls of
    [AddParameter] they make, in order.  The model of a command ends with
    the call of [SendEvent], whose answer the command returns as it is. *)

(** [strings.Split(s, sep)] for a separator of one byte: the pieces of [s]
    between the occurrences of [sep], one more than there are
    occurrences. *)
Fixpoint Split (sep : ascii) (s : string) : list string :=
  match s with
  | EmptyString => [""]
  | String c rest =>
      if Ascii.eqb c sep then "" :: Split sep rest
      else match Split sep rest with
           | first :: others => String c first :: others
           | [] => [String c ""]
           end
  end.

(** [strings.HasPrefix(s, prefix)]. *)
Definition HasPrefix (s prefix : string) : bool := String.prefix prefix s.

(** [m[k]] on a [map[string]string]: a missing key reads as the empty
    string. *)
Definition index (m : gmap string string) (k : string) : string := default "" (m !! k).

Module daemon.

Definition CorrelatorPrefix : string := "correlation".

Definition DaemonMap_literal : list (string * string) :=
  [("ackd", "Ackd");
   ("alarmd", "alarmd");
   ("bsmd", "Bsmd");
   ("collectd", "Collectd");
   (CorrelatorPrefix, "DroolsCorrelationEngine");
   ("discoverd", "Discovery");
   ("enlinkd", "Enlinkd");
   ("eventd", "Eventd");
   ("ticketd", "Ticketd");
   ("syslogd", "syslogd");
   ("trapd", "trapd");
   ("telemetryd", "telemetryd");
   ("nbi-email", "EmailNBI");
   ("nbi-snmptrap", "SnmpTrapNBI");
   ("nbi-syslog", "SyslogNBI");
   ("notifd", "Notifd");
   ("reportd", "Reportd");
   ("pollerd", "Pollerd");
   ("poller-backend", "PollerBackEnd");
   ("provisiond", "Provisiond");
   ("provisiond-snmp-asset", "Provisiond.SnmpAssetProvisioningAdapter");
   ("provisiond-snmp-hardware-inventory",
    "Provisiond.SnmpHardwareInventoryProvisioningAdapter");
   ("provisiond-wsman", "WsManAssetProvisioningAdapter");
   ("scriptd", "Scriptd");
   ("statsd", "Statsd");
   ("tl1d", "Tl1d");
   ("threshd", "Threshd");
   ("translator", "Translator");
   ("vacuumd", "Vacuumd")].

Definition DaemonMap : gmap string string := list_to_map DaemonMap_literal.

Inductive Error : Type :=
  | DaemonNameRequired
  | InvalidDaemonName (daemonName : string).

Definition Error_message (e : Error) : string :=
  match e with
  | DaemonNameRequired => "Daemon name required"
  | InvalidDaemonName daemonName => "Invalid daemon name " +:+ daemonName
  end.

(** The event as [reloadDaemon] builds it; [Parameters] holds the calls
    of [AddParameter] in the order they are made. *)
Record Event : Type := mkEvent {
  UEI : string;
  Source : string;
  Parameters : list (string * string)
}.

Definition AddParameter (name value : string) (e : Event) : Event :=
  mkEvent (UEI e) (Source e) (Parameters e ++ [(name, value)]).

(** How a command ends: with an error of its own, or with the call of
    [SendEvent] on an event. *)
Inductive Result : Type :=
  | Failed (e : Error)
  | SendEvent (event : Event).

(** [strings.ToLower] is left as a parameter. *)
Definition isValidDaemon (ToLower : string → string) (daemonName : string) : bool :=
  let name := ToLower daemonName in
  match DaemonMap !! name with
  | Some _ => true
  | None => if HasPrefix name CorrelatorPrefix then true else false
  end.

Definition getDaemonName (id : string) : string :=
  if HasPrefix id CorrelatorPrefix then
    let data := Split ":" id in
    if decide (length data = 2%nat)
    then index DaemonMap CorrelatorPrefix +:+ ":" +:+ nth 1 data ""
    else index DaemonMap CorrelatorPrefix
  else index DaemonMap id.

(** [args] are the arguments of the command ([c.Args()]), [configFile]
    the value of the flag of that name. *)
Definition reloadDaemon (ToLower : string → string) (args : list string)
    (configFile : string) : Result :=
  match args with
  | [] => Failed DaemonNameRequired
  | daemonName :: _ =>
      if negb (isValidDaemon ToLower daemonName) then Failed (InvalidDaemonName daemonName)
      else
        let event := mkEvent "uei.opennms.org/internal/reloadDaemonConfig" "onmsctl" [] in
        let event := AddParameter "daemonName" (getDaemonName daemonName) event in
        let event :=
          if decide (configFile ≠ "") then AddParameter "configFile" configFile event
          else event in
        SendEvent event
  end.

End daemon.

Module events.

(** The flags of the command send, as [c.Int64], [c.String], [c.Int] and
    [c.StringSlice] read them. *)
Record Flags : Type := mkFlags {
  nodeid : Z;
  interface : string;
  service : string;
  ifindex : Z;
  descr : string;
  severity : string;
  host : string;
  parm : list string
}.

(** The event as [sendEvent] builds it; [Parameters] holds the calls of
    [AddParameter] in the order they are made. *)
Record Event : Type := mkEvent {
  UEI : string;
  NodeID : Z;
  Interface : string;
  Service : string;
  IfIndex : Z;
  Description : string;
  Severity : string;
  Host : string;
  Source : string;
  Parameters : list (string * string)
}.

Definition AddParameter (name value : string) (e : Event) : Event :=
  mkEvent (UEI e) (NodeID e) (Interface e) (Service e) (IfIndex e) (Description e)
          (Severity e) (Host e) (Source e) (Parameters e ++ [(name, value)]).

Inductive Error : Type :=
  | UEIRequired.

Definition Error_message (e : Error) : string :=
  match e with
  | UEIRequired => "UEI required"
  end.

(** How the command ends: with an error of its own, with a run-time panic
    (an index out of range), or with the call of [SendEvent]. *)
Inductive Result : Type :=
  | Failed (e : Error)
  | Panic
  | SendEvent (event : Event).

(** The loop over the parameters: [data[1]] panics when the parameter
    holds no separator. *)
Fixpoint sendEvent_range (params : list string) (event : Event) : option Event :=
  match params with
  | [] => Some event
  | p :: rest =>
      match Split "=" p with
      | name :: value :: _ => sendEvent_range rest (AddParameter name value event)
      | _ => None
      end
  end.

Definition sendEvent (args : list string) (flags : Flags) : Result :=
  match args with
  | [] => Failed UEIRequired
  | uei :: _ =>
      let event := mkEvent uei (nodeid flags) (interface flags) (service flags)
                           (ifindex flags) (descr flags) (severity flags) (host flags)
                           "onmsctl" [] in
      match sendEvent_range (parm flags) event with
      | Some event => SendEvent event
      | None => Panic
      end
  end.

End events.

(** [strings.ToLower] on a string of ASCII bytes, for concrete runs. *)
Definition sample_ToLower_byte (c : ascii) : ascii :=
  let n := nat_of_ascii c in
  if ((65 <=? n)%nat && (n <=? 90)%nat)%bool then ascii_of_nat (n + 32) else c.

Fixpoint sample_ToLower (s : string) : string :=
  match s with
  | EmptyString => EmptyString
  | String c rest => String (sample_ToLower_byte c) (sample_ToLower rest)
  end.

(** How often a byte occurs in a string, and the part of a string before
    the first occurrence of a byte. *)
Fixpoint occurrences (sep : ascii) (s : string) : nat :=
  match s with
  | EmptyString => 0
  | String c rest => if Ascii.eqb c sep then S (occurrences sep rest) else occurrences sep rest
  end.

Fixpoint before_first (sep : ascii) (s : string) : string :=
  match s with
  | EmptyString => EmptyString
  | String c rest => if Ascii.eqb c sep then EmptyString else String c (before_first sep rest)
  end.

(** * Properties *)

(** Closes [Forall P [x1; ...; xn]] when each [P xi] holds by computation. *)
Ltac all_by_computation :=
  match goal with
  | |- Forall ?P ?l => let l' := eval cbn in l in change (Forall P l')
  end;
  repeat (constructor; [vm_compute; reflexivity|]); constructor.

(** ** Forbidden characters *)

Lemma matchForbidden_true (s : string) :
  matchForbidden s = true ↔ has_forbidden s.
Proof.
  unfold has_forbidden. induction s as [|c s IH]; simpl.
  - split; [discriminate|]. intros (c & Hc & _). inversion Hc.
  - rewrite orb_true_iff, IH. unfold is_forbidden. rewrite bool_decide_eq_true.
    split.
    + intros [Hc | (d & Hd & Hf)].
      * exists c. split; [left | exact Hc].
      * exists d. split; [right; exact Hd | exact Hf].
    + intros (d & Hd & Hf). apply elem_of_cons in Hd as [-> | Hd].
      * left; exact Hf.
      * right. exists d. split; assumption.
Qed.

Lemma matchForbidden_false (s : string) :
  matchForbidden s = false ↔ ¬ has_forbidden s.
Proof.
  rewrite <- matchForbidden_true. destruct (matchForbidden s); split; congruence.
Qed.

Lemma has_forbidden_nonempty (s : string) : has_forbidden s → s ≠ "".
Proof. intros (c & Hc & _) ->. inversion Hc. Qed.

(** ** Counting with a map *)

Lemma tally_lookup (ks : list string) (m : gmap string Z) (k : string) :
  tally ks m !! k =
    if decide (times k ks = 0%nat) then m !! k
    else Some (default 0 (m !! k) + Z.of_nat (times k ks)).
Proof.
  unfold tally, times. revert m. induction ks as [|x ks IH]; intros m; simpl.
  - reflexivity.
  - rewrite IH. unfold incr. destruct (String.eq_dec x k) as [->|Hne].
    + rewrite lookup_insert_eq. simpl.
      repeat case_decide; try lia; f_equal; lia.
    + rewrite lookup_insert_ne by exact Hne. reflexivity.
Qed.

Lemma tally_empty_lookup (ks : list string) (k : string) (c : Z) :
  tally ks ∅ !! k = Some c ↔ (0 < times k ks)%nat ∧ c = Z.of_nat (times k ks).
Proof.
  rewrite tally_lookup, lookup_empty. simpl.
  destruct (decide (times k ks = 0%nat)) as [E|E].
  - split; [discriminate | lia].
  - split.
    + intros [= <-]. lia.
    + intros [_ ->]. f_equal.
Qed.

Lemma NoDup_times (ks : list string) :
  NoDup ks ↔ ∀ k, (times k ks ≤ 1)%nat.
Proof.
  unfold times. rewrite <- (NoDup_count_occ String.eq_dec).
  apply NoDup_ListNoDup.
Qed.

Lemma not_NoDup_times (ks : list string) :
  ¬ NoDup ks ↔ ∃ k, (1 < times k ks)%nat.
Proof.
  split.
  - induction ks as [|x ks IH]; intros H.
    + destruct H. constructor.
    + destruct (decide (x ∈ ks)) as [Hin|Hnin].
      * exists x. unfold times. simpl. destruct (String.eq_dec x x); [|congruence].
        apply list_elem_of_In in Hin.
        apply (count_occ_In String.eq_dec) in Hin. lia.
      * destruct IH as [k Hk].
        { intros Hnd. apply H. constructor; assumption. }
        exists k. unfold times in *. simpl. destruct (String.eq_dec x k); lia.
  - intros [k Hk] Hnd. rewrite NoDup_times in Hnd. specialize (Hnd k). lia.
Qed.

(** ** The first repeated key *)

Lemma firstRepeated_Some (env : Env) (m : gmap string Z) (k : string) :
  firstRepeated env m = Some k → ∃ c, m !! k = Some c ∧ 1 < c.
Proof.
  unfold firstRepeated. destruct (List.find _ _) as [[k' c]|] eqn:E; [|discriminate].
  intros [= <-]. apply find_some in E as [Hin Hc]. simpl in *.
  exists c. split; [|lia].
  apply elem_of_map_to_list. rewrite <- (rangeMap_perm env m).
  apply list_elem_of_In. exact Hin.
Qed.

Lemma firstRepeated_None (env : Env) (m : gmap string Z) :
  firstRepeated env m = None ↔ ∀ k c, m !! k = Some c → c ≤ 1.
Proof.
  unfold firstRepeated. split.
  - destruct (List.find _ _) eqn:E; [discriminate|]. intros _ k c Hk.
    apply elem_of_map_to_list in Hk. rewrite <- (rangeMap_perm env m) in Hk.
    apply list_elem_of_In in Hk. apply (find_none _ _ E) in Hk. simpl in Hk. lia.
  - intros H. destruct (List.find _ _) as [[k c]|] eqn:E; [|reflexivity].
    apply find_some in E as [Hin Hc]. simpl in Hc.
    apply list_elem_of_In in Hin. rewrite (rangeMap_perm env m) in Hin.
    apply elem_of_map_to_list in Hin. apply H in Hin. lia.
Qed.

Lemma firstRepeated_tally_Some (env : Env) (ks : list string) (k : string) :
  firstRepeated env (tally ks ∅) = Some k → (1 < times k ks)%nat.
Proof.
  intros H. apply firstRepeated_Some in H as (c & Hc & Hlt).
  apply tally_empty_lookup in Hc as [_ ->]. lia.
Qed.

Lemma firstRepeated_tally_None (env : Env) (ks : list string) :
  firstRepeated env (tally ks ∅) = None ↔ NoDup ks.
Proof.
  rewrite firstRepeated_None, NoDup_times. split.
  - intros H k. destruct (decide (times k ks = 0%nat)) as [->|Hne]; [lia|].
    specialize (H k (Z.of_nat (times k ks))).
    rewrite tally_empty_lookup in H. lia.
  - intros H k c Hc. apply tally_empty_lookup in Hc as [_ ->]. specialize (H k). lia.
Qed.

Lemma firstRepeated_tally_dup (env : Env) (ks : list string) :
  ¬ NoDup ks → ∃ k, firstRepeated env (tally ks ∅) = Some k ∧ (1 < times k ks)%nat.
Proof.
  intros H. destruct (firstRepeated env (tally ks ∅)) as [k|] eqn:E.
  - exists k. split; [reflexivity|]. eapply firstRepeated_tally_Some; eassumption.
  - apply firstRepeated_tally_None in E. contradiction.
Qed.

(** ** The loops *)

Section Ranges.
Context {A : Type}.

Lemma rangePtr_None (f : A → A * option Error) (xs : list A) :
  snd (rangePtr f xs) = None ↔ Forall (λ x, snd (f x) = None) xs.
Proof.
  induction xs as [|x xs IH]; simpl.
  - split; [constructor | reflexivity].
  - destruct (f x) as [x' [e|]] eqn:E; simpl.
    + split; [discriminate|]. intros H. inversion H as [|? ? Hx _]; subst.
      rewrite E in Hx. discriminate.
    + destruct (rangePtr f xs) as [rest' e'] eqn:R; simpl in *. rewrite IH.
      split.
      * intros H. constructor; [rewrite E; reflexivity | exact H].
      * intros H. inversion H; assumption.
Qed.

Lemma rangePtr_pass (f : A → A * option Error) (xs : list A) :
  snd (rangePtr f xs) = None → fst (rangePtr f xs) = map (λ x, fst (f x)) xs.
Proof.
  induction xs as [|x xs IH]; simpl; [reflexivity|].
  destruct (f x) as [x' [e|]] eqn:E; simpl; [discriminate|].
  destruct (rangePtr f xs) as [rest' e'] eqn:R; simpl in *.
  intros H. rewrite IH by exact H. reflexivity.
Qed.

Lemma rangePtr_stop (f : A → A * option Error) (xs : list A) (e : Error) :
  snd (rangePtr f xs) = Some e →
  ∃ before x rest,
    xs = before ++ x :: rest ∧ Forall (λ x, snd (f x) = None) before ∧
    snd (f x) = Some e ∧
    fst (rangePtr f xs) = map (λ x, fst (f x)) before ++ fst (f x) :: rest.
Proof.
  induction xs as [|x xs IH]; simpl; [discriminate|].
  destruct (f x) as [x' [e0|]] eqn:E; simpl.
  - intros [= ->]. exists [], x, xs. rewrite E. simpl. repeat split. constructor.
  - destruct (rangePtr f xs) as [rest' e'] eqn:R; simpl in *. intros H.
    destruct (IH H) as (before & y & rest & -> & Hb & Hy & Hfst).
    exists (x :: before), y, rest. simpl. rewrite E. simpl. repeat split.
    + constructor; [rewrite E; reflexivity | exact Hb].
    + exact Hy.
    + rewrite Hfst. reflexivity.
Qed.

Lemma rangeCopy_rangePtr (f : A → A * option Error) (xs : list A) :
  rangeCopy f xs = snd (rangePtr f xs).
Proof.
  induction xs as [|x xs IH]; simpl; [reflexivity|].
  destruct (f x) as [x' [e|]]; simpl; [reflexivity|].
  rewrite IH. destruct (rangePtr f xs); reflexivity.
Qed.

Lemma rangeCopy_None (f : A → A * option Error) (xs : list A) :
  rangeCopy f xs = None ↔ Forall (λ x, snd (f x) = None) xs.
Proof. rewrite rangeCopy_rangePtr. apply rangePtr_None. Qed.

Lemma rangeVal_None (f : A → option Error) (xs : list A) :
  rangeVal f xs = None ↔ Forall (λ x, f x = None) xs.
Proof.
  induction xs as [|x xs IH]; simpl.
  - split; [constructor | reflexivity].
  - destruct (f x) as [e|] eqn:E.
    + split; [discriminate|]. intros H. inversion H; congruence.
    + rewrite IH. split.
      * intros H. constructor; assumption.
      * intros H. inversion H; assumption.
Qed.

Lemma rangeVal_Some (f : A → option Error) (xs : list A) (e : Error) :
  rangeVal f xs = Some e → ∃ x, x ∈ xs ∧ f x = Some e.
Proof.
  induction xs as [|x xs IH]; simpl; [discriminate|].
  destruct (f x) as [e0|] eqn:E.
  - intros [= ->]. exists x. split; [left | exact E].
  - intros H. destruct (IH H) as (y & Hy & Hf). exists y. split; [right; exact Hy | exact Hf].
Qed.

Lemma rangePtr_Some_elem (f : A → A * option Error) (xs : list A) (e : Error) :
  snd (rangePtr f xs) = Some e → ∃ x, x ∈ xs ∧ snd (f x) = Some e.
Proof.
  intros H. apply rangePtr_stop in H as (before & x & rest & -> & _ & Hx & _).
  exists x. split; [|exact Hx]. apply elem_of_app. right. left.
Qed.

End Ranges.

(** ** Meta-data *)

Lemma MetaData_IsValid_after (m : RequisitionMetaData.t) :
  fst (RequisitionMetaData.IsValid m) = with_default_context m.
Proof.
  unfold RequisitionMetaData.IsValid, with_default_context.
  repeat case_decide; reflexivity.
Qed.

Lemma MetaData_IsValid_err (m : RequisitionMetaData.t) :
  snd (RequisitionMetaData.IsValid m) =
    if decide (RequisitionMetaData.Key m = "") then Some MetaDataKeyEmpty
    else if decide (RequisitionMetaData.Value m = "")
         then Some (MetaDataValueEmpty (RequisitionMetaData.Key m))
         else None.
Proof.
  unfold RequisitionMetaData.IsValid.
  destruct m as [k v c]; simpl.
  destruct (decide (c = "")); simpl; repeat case_decide; reflexivity.
Qed.

Lemma metaData_passes_iff (m : RequisitionMetaData.t) :
  metaData_passes m ↔ RequisitionMetaData.Key m ≠ "" ∧ RequisitionMetaData.Value m ≠ "".
Proof.
  unfold metaData_passes. rewrite MetaData_IsValid_err.
  repeat case_decide; split; try discriminate; try tauto. 
Qed.

(** ** Outcomes *)

Lemma err_andThen {T} (o : Outcome T) (k : T → Outcome T) :
  err (andThen o k) = match err o with Some e => Some e | None => err (k (after o)) end.
Proof. unfold andThen. destruct (err o) eqn:E; simpl; [exact E | reflexivity]. Qed.

Lemma after_andThen {T} (o : Outcome T) (k : T → Outcome T) :
  after (andThen o k) = match err o with Some _ => after o | None => after (k (after o)) end.
Proof. unfold andThen. destruct (err o); reflexivity. Qed.

(** ** Where errors come from *)

Lemma MetaData_origin (m : RequisitionMetaData.t) (e : Error) :
  snd (RequisitionMetaData.IsValid m) = Some e → origin e = FromMetaData.
Proof.
  rewrite MetaData_IsValid_err. repeat case_decide; intros [= <-]; reflexivity.
Qed.

Lemma rangePtr_MetaData_origin (ms : list RequisitionMetaData.t) (e : Error) :
  snd (rangePtr RequisitionMetaData.IsValid ms) = Some e → origin e = FromMetaData.
Proof.
  intros H. apply rangePtr_Some_elem in H as (m & _ & Hm).
  eapply MetaData_origin; eassumption.
Qed.

(** ** Monitored services *)

Lemma Service_IsValid_err (s : RequisitionMonitoredService.t) :
  snd (RequisitionMonitoredService.IsValid s) =
    if decide (RequisitionMonitoredService.Name s = "") then Some ServiceNameEmpty
    else if matchForbidden (RequisitionMonitoredService.Name s)
         then Some (ServiceNameInvalidChars (RequisitionMonitoredService.Name s))
         else snd (rangePtr RequisitionMetaData.IsValid (RequisitionMonitoredService.MetaData s)).
Proof.
  unfold RequisitionMonitoredService.IsValid. case_decide; [reflexivity|].
  destruct (matchForbidden _); [reflexivity|].
  destruct (rangePtr _ _); reflexivity.
Qed.

Lemma Service_IsValid_Name (s : RequisitionMonitoredService.t) :
  RequisitionMonitoredService.Name (fst (RequisitionMonitoredService.IsValid s)) =
  RequisitionMonitoredService.Name s.
Proof.
  unfold RequisitionMonitoredService.IsValid. case_decide; [reflexivity|].
  destruct (matchForbidden _); [reflexivity|].
  destruct (rangePtr _ _); reflexivity.
Qed.

Lemma service_passes_iff (s : RequisitionMonitoredService.t) :
  service_passes s ↔
    RequisitionMonitoredService.Name s ≠ "" ∧
    ¬ has_forbidden (RequisitionMonitoredService.Name s) ∧
    Forall metaData_passes (RequisitionMonitoredService.MetaData s).
Proof.
  unfold service_passes. rewrite Service_IsValid_err, <- matchForbidden_false.
  case_decide.
  - split; [discriminate | tauto].
  - destruct (matchForbidden _).
    + split; [discriminate | intros (_ & ? & _); discriminate].
    + rewrite rangePtr_None. unfold metaData_passes. tauto.
Qed.

Lemma Service_origin (s : RequisitionMonitoredService.t) (e : Error) :
  snd (RequisitionMonitoredService.IsValid s) = Some e →
  origin e = FromService ∨ origin e = FromMetaData.
Proof.
  rewrite Service_IsValid_err. case_decide; [intros [= <-]; left; reflexivity|].
  destruct (matchForbidden _); [intros [= <-]; left; reflexivity|].
  intros Hmd. right. eapply rangePtr_MetaData_origin; eassumption.
Qed.

(** ** Interfaces: the services *)

Lemma validateServices_range_spec (ss : list RequisitionMonitoredService.t)
    (m : gmap string Z) :
  let r := RequisitionInterface.validateServices_range ss m in
  (r.2 = None ↔ Forall service_passes ss) ∧
  (r.2 = None →
     r.1.1 = map (λ s, fst (RequisitionMonitoredService.IsValid s)) ss ∧
     r.1.2 = tally (map RequisitionMonitoredService.Name ss) m) ∧
  (∀ e, r.2 = Some e → ∃ s, s ∈ ss ∧ snd (RequisitionMonitoredService.IsValid s) = Some e).
Proof.
  revert m. induction ss as [|s ss IH]; intros m; simpl.
  - repeat split; try constructor; discriminate.
  - pose proof (Service_IsValid_Name s) as HN.
    destruct (RequisitionMonitoredService.IsValid s) as [s' [e|]] eqn:E; simpl in *.
    + repeat split; try discriminate.
      * intros H. inversion H as [|? ? Hs _]; subst. unfold service_passes in Hs.
        rewrite E in Hs. discriminate.
      * intros e0 [= <-]. exists s. split; [left | rewrite E; reflexivity].
    + specialize (IH (incr (RequisitionMonitoredService.Name s') m)).
      destruct (RequisitionInterface.validateServices_range ss _) as [[rest' m'] e'] eqn:R.
      simpl in *. destruct IH as (IH1 & IH2 & IH3). repeat split.
      * intros H. constructor; [unfold service_passes; rewrite E; reflexivity | tauto].
      * intros H. inversion H; subst. tauto.
      * rewrite (proj1 (IH2 H)). reflexivity.
      * rewrite (proj2 (IH2 H)), HN. reflexivity.
      * intros e0 He0. destruct (IH3 e0 He0) as (x & Hx & Hxe).
        exists x. split; [right; exact Hx | exact Hxe].
Qed.

Lemma validateServices_err (env : Env) (i : RequisitionInterface.t) :
  err (RequisitionInterface.validateServices env i) = None ↔
    Forall service_passes (RequisitionInterface.Services i) ∧
    NoDup (map RequisitionMonitoredService.Name (RequisitionInterface.Services i)).
Proof.
  unfold RequisitionInterface.validateServices.
  pose proof (validateServices_range_spec (RequisitionInterface.Services i) ∅) as (H1 & H2 & _).
  destruct (RequisitionInterface.validateServices_range _ _) as [[ss m] e]; simpl in *.
  destruct e as [e|]; simpl.
  - split; [discriminate|]. intros [Hall _]. apply H1 in Hall. discriminate.
  - destruct (H2 eq_refl) as [_ ->]. rewrite <- firstRepeated_tally_None with (env := env).
    destruct (firstRepeated env _); simpl.
    + split; [discriminate|]. intros [_ ?]; discriminate.
    + split; [|reflexivity]. intros _. split; [apply H1|]; reflexivity.
Qed.

Lemma validateServices_after (env : Env) (i : RequisitionInterface.t) :
  let i' := after (RequisitionInterface.validateServices env i) in
  RequisitionInterface.IPAddress i' = RequisitionInterface.IPAddress i ∧
  RequisitionInterface.Status i' = RequisitionInterface.Status i ∧
  RequisitionInterface.SnmpPrimary i' = RequisitionInterface.SnmpPrimary i ∧
  RequisitionInterface.MetaData i' = RequisitionInterface.MetaData i.
Proof.
  unfold RequisitionInterface.validateServices.
  destruct (RequisitionInterface.validateServices_range _ _) as [[ss m] e]; simpl.
  destruct e; [|destruct (firstRepeated env m)]; simpl; repeat split.
Qed.

(** ** Interfaces: the address *)

Section ValidateIP.
Variable env : Env.
Variable i : RequisitionInterface.t.
Let ip := RequisitionInterface.IPAddress i.

Lemma validateIP_literal :
  ParseIP env ip = true → RequisitionInterface.validateIP env i = pass i.
Proof. unfold RequisitionInterface.validateIP. fold ip. intros ->. reflexivity. Qed.

Lemma validateIP_disabled :
  ParseIP env ip = false → AllowFqdnOnRequisitionedInterfaces env = false →
  RequisitionInterface.validateIP env i = fail i (NotValidAddress ip).
Proof.
  unfold RequisitionInterface.validateIP. fold ip. intros -> ->. reflexivity.
Qed.

Lemma validateIP_resolved (first : string) (others : list string) :
  ParseIP env ip = false → AllowFqdnOnRequisitionedInterfaces env = true →
  LookupIP env ip = (first :: others, None) →
  RequisitionInterface.validateIP env i =
    mkOutcome (RequisitionInterface.set_IPAddress first i)
              [RequisitionInterface.translates_line ip first] None.
Proof.
  unfold RequisitionInterface.validateIP. fold ip. intros -> -> ->. reflexivity.
Qed.

Lemma validateIP_unresolved (addresses : list string) (lookupErr : option string) :
  ParseIP env ip = false → AllowFqdnOnRequisitionedInterfaces env = true →
  LookupIP env ip = (addresses, lookupErr) →
  lookupErr ≠ None ∨ addresses = [] →
  RequisitionInterface.validateIP env i = fail i (CannotGetAddress ip lookupErr).
Proof.
  unfold RequisitionInterface.validateIP. fold ip. intros -> -> -> H.
  destruct lookupErr as [msg|]; [reflexivity|].
  destruct addresses as [|a l]; [reflexivity|].
  destruct H as [H|H]; [congruence | discriminate].
Qed.

Lemma validateIP_err_None :
  err (RequisitionInterface.validateIP env i) = None ↔ address_accepted env ip.
Proof.
  unfold address_accepted, resolves_to.
  destruct (ParseIP env ip) eqn:P.
  - rewrite validateIP_literal by exact P. simpl. tauto.
  - destruct (AllowFqdnOnRequisitionedInterfaces env) eqn:Al.
    + destruct (LookupIP env ip) as [addresses lookupErr] eqn:L.
      destruct lookupErr as [msg|].
      * rewrite (validateIP_unresolved addresses (Some msg)); auto. simpl.
        split; [discriminate|]. intros [?|(_ & first & others & ?)]; discriminate.
      * destruct addresses as [|first others].
        -- rewrite (validateIP_unresolved [] None); auto. simpl.
           split; [discriminate|]. intros [?|(_ & first & others & ?)]; discriminate.
        -- rewrite (validateIP_resolved first others); auto. simpl.
           split; [|reflexivity]. intros _. right. split; [reflexivity|]. eauto.
    + rewrite validateIP_disabled by assumption. simpl.
      split; [discriminate|]. intros [?|(? & _)]; discriminate.
Qed.

Lemma validateIP_after :
  let i' := after (RequisitionInterface.validateIP env i) in
  RequisitionInterface.Status i' = RequisitionInterface.Status i ∧
  RequisitionInterface.SnmpPrimary i' = RequisitionInterface.SnmpPrimary i ∧
  RequisitionInterface.Services i' = RequisitionInterface.Services i ∧
  RequisitionInterface.MetaData i' = RequisitionInterface.MetaData i.
Proof.
  unfold RequisitionInterface.validateIP.
  destruct (ParseIP env _); [repeat split|].
  destruct (AllowFqdnOnRequisitionedInterfaces env); [|repeat split].
  destruct (LookupIP env _) as [addresses [msg|]]; [repeat split|].
  destruct addresses; repeat split.
Qed.

End ValidateIP.

(** ** Interfaces: the field checks *)

Section InterfaceChecks.
Variable env : Env.
Variable i : RequisitionInterface.t.

Lemma with_defaults_fields :
  RequisitionInterface.IPAddress (with_defaults i) = RequisitionInterface.IPAddress i ∧
  RequisitionInterface.Services (with_defaults i) = RequisitionInterface.Services i ∧
  RequisitionInterface.MetaData (with_defaults i) = RequisitionInterface.MetaData i ∧
  RequisitionInterface.Status (with_defaults i) =
    (if decide (RequisitionInterface.Status i = 0) then 1 else RequisitionInterface.Status i) ∧
  RequisitionInterface.SnmpPrimary (with_defaults i) =
    (if decide (RequisitionInterface.SnmpPrimary i = "") then "N"
     else RequisitionInterface.SnmpPrimary i).
Proof.
  unfold with_defaults, with_default_snmp, with_default_status.
  destruct i as [ip d p st ss md]; simpl.
  destruct (decide (st = 0)); simpl; destruct (decide (p = "")); simpl; repeat split.
Qed.

Lemma status_check_passes :
  ¬ (RequisitionInterface.Status (with_default_status i) ≠ 1 ∧
     RequisitionInterface.Status (with_default_status i) ≠ 3) ↔ status_allowed i.
Proof.
  unfold with_default_status, status_allowed.
  destruct (decide (RequisitionInterface.Status i = 0)) as [E|E]; simpl; lia.
Qed.

Lemma snmp_check_passes :
  ¬ (RequisitionInterface.SnmpPrimary (with_defaults i) ≠ "P" ∧
     RequisitionInterface.SnmpPrimary (with_defaults i) ≠ "S" ∧
     RequisitionInterface.SnmpPrimary (with_defaults i) ≠ "N") ↔ snmp_allowed i.
Proof.
  destruct with_defaults_fields as (_ & _ & _ & _ & ->). unfold snmp_allowed.
  destruct (decide (RequisitionInterface.SnmpPrimary i = "")) as [E|E].
  - split; [tauto|]. intros _ (_ & _ & ?). congruence.
  - destruct (decide (RequisitionInterface.SnmpPrimary i = "P"));
    destruct (decide (RequisitionInterface.SnmpPrimary i = "S"));
    destruct (decide (RequisitionInterface.SnmpPrimary i = "N")); tauto.
Qed.

(** [IsValid] on an interface, check by check. *)
Lemma Interface_IsValid_unfold :
  RequisitionInterface.IsValid env i =
    if decide (RequisitionInterface.IPAddress i = "") then fail i IPAddressEmpty
    else if decide (RequisitionInterface.Status (with_default_status i) ≠ 1 ∧
                    RequisitionInterface.Status (with_default_status i) ≠ 3)
    then fail (with_default_status i)
              (InvalidStatus (RequisitionInterface.IPAddress (with_default_status i))
                             (RequisitionInterface.Status (with_default_status i)))
    else if decide (RequisitionInterface.SnmpPrimary (with_defaults i) ≠ "P" ∧
                    RequisitionInterface.SnmpPrimary (with_defaults i) ≠ "S" ∧
                    RequisitionInterface.SnmpPrimary (with_defaults i) ≠ "N")
    then fail (with_defaults i)
              (InvalidSnmpPrimary (RequisitionInterface.IPAddress (with_defaults i))
                                  (RequisitionInterface.SnmpPrimary (with_defaults i)))
    else after_field_checks env (with_defaults i).
Proof. reflexivity. Qed.

Lemma Interface_IsValid_reached :
  reaches_address_step i →
  RequisitionInterface.IsValid env i = after_field_checks env (with_defaults i).
Proof.
  intros (Hip & Hst & Hp). rewrite Interface_IsValid_unfold.
  rewrite decide_False by exact Hip.
  rewrite decide_False by (apply status_check_passes; exact Hst).
  rewrite decide_False by (apply snmp_check_passes; exact Hp).
  reflexivity.
Qed.

Lemma Interface_IsValid_not_reached :
  ¬ reaches_address_step i →
  ∃ e, field_check_error e = true ∧ err (RequisitionInterface.IsValid env i) = Some e.
Proof.
  intros H. rewrite Interface_IsValid_unfold.
  destruct (decide (RequisitionInterface.IPAddress i = "")) as [Hip|Hip];
    [eexists; split; [|reflexivity]; reflexivity|].
  destruct (decide (_ ∧ _)) as [Hst|Hst]; [eexists; split; [|reflexivity]; reflexivity|].
  destruct (decide (_ ∧ _)) as [Hp|Hp]; [eexists; split; [|reflexivity]; reflexivity|].
  destruct H. split; [exact Hip|]. split.
  - apply status_check_passes; exact Hst.
  - apply snmp_check_passes; exact Hp.
Qed.

End InterfaceChecks.

Lemma classic_reaches (i : RequisitionInterface.t) :
  reaches_address_step i ∨ ¬ reaches_address_step i.
Proof.
  unfold reaches_address_step, status_allowed, snmp_allowed.
  destruct (decide (RequisitionInterface.IPAddress i = "")); [right; tauto|].
  destruct (decide (RequisitionInterface.Status i = 0));
  destruct (decide (RequisitionInterface.Status i = 1));
  destruct (decide (RequisitionInterface.Status i = 3));
  destruct (decide (RequisitionInterface.SnmpPrimary i = ""));
  destruct (decide (RequisitionInterface.SnmpPrimary i = "P"));
  destruct (decide (RequisitionInterface.SnmpPrimary i = "S"));
  destruct (decide (RequisitionInterface.SnmpPrimary i = "N")); tauto.
Qed.

(** ** Interfaces: after the field checks *)

Lemma after_field_checks_err (env : Env) (i : RequisitionInterface.t) :
  err (after_field_checks env i) = None ↔
    address_accepted env (RequisitionInterface.IPAddress i) ∧
    Forall service_passes (RequisitionInterface.Services i) ∧
    NoDup (map RequisitionMonitoredService.Name (RequisitionInterface.Services i)) ∧
    Forall metaData_passes (RequisitionInterface.MetaData i).
Proof.
  unfold after_field_checks. rewrite err_andThen.
  rewrite <- validateIP_err_None.
  destruct (validateIP_after env i) as (_ & _ & Hss & Hmd).
  destruct (err (RequisitionInterface.validateIP env i)) as [e|].
  { split; [discriminate | intros [? _]; discriminate]. }
  rewrite err_andThen.
  set (i1 := after (RequisitionInterface.validateIP env i)) in *.
  pose proof (validateServices_err env i1) as Hs. rewrite Hss in Hs.
  destruct (validateServices_after env i1) as (_ & _ & _ & Hmd2).
  destruct (err (RequisitionInterface.validateServices env i1)) as [e|].
  { split; [discriminate|]. intros (_ & H1 & H2 & _).
    assert (Some e = None) by (apply Hs; split; assumption). discriminate. }
  rewrite Hmd2, Hmd.
  pose proof (rangeCopy_None RequisitionMetaData.IsValid (RequisitionInterface.MetaData i)) as Hc.
  destruct (rangeCopy _ _) as [e|]; simpl.
  - split; [discriminate|]. intros (_ & _ & _ & H). apply Hc in H. discriminate.
  - split; [|reflexivity]. intros _. split; [reflexivity|].
    destruct Hs as [Hs _]. destruct (Hs eq_refl). repeat split; try assumption.
    apply Hc. reflexivity.
Qed.

Lemma field_check_error_origin (e : Error) :
  field_check_error e = true → origin e = FromInterface.
Proof. destruct e; simpl; intros; try discriminate; reflexivity. Qed.

Lemma validateIP_error_shape (env : Env) (i : RequisitionInterface.t) (e : Error) :
  err (RequisitionInterface.validateIP env i) = Some e →
  e = NotValidAddress (RequisitionInterface.IPAddress i) ∨
  ∃ lookupErr, e = CannotGetAddress (RequisitionInterface.IPAddress i) lookupErr.
Proof.
  unfold RequisitionInterface.validateIP.
  destruct (ParseIP env _); [discriminate|].
  destruct (AllowFqdnOnRequisitionedInterfaces env).
  - destruct (LookupIP env _) as [addresses [msg|]].
    + intros [= <-]. right. eauto.
    + destruct addresses; intros [= <-]. right. eauto.
  - intros [= <-]. left. reflexivity.
Qed.

Lemma validateServices_error_shape (env : Env) (i : RequisitionInterface.t) (e : Error) :
  err (RequisitionInterface.validateServices env i) = Some e →
  (∃ s, s ∈ RequisitionInterface.Services i ∧
        snd (RequisitionMonitoredService.IsValid s) = Some e) ∨
  (Forall service_passes (RequisitionInterface.Services i) ∧
   ∃ service, e = ServiceDefinedTwice service (RequisitionInterface.IPAddress i) ∧
     (1 < times service (map RequisitionMonitoredService.Name
                             (RequisitionInterface.Services i)))%nat).
Proof.
  unfold RequisitionInterface.validateServices.
  pose proof (validateServices_range_spec (RequisitionInterface.Services i) ∅)
    as (H1 & H2 & H3).
  destruct (RequisitionInterface.validateServices_range _ _) as [[ss m] e0]; simpl in *.
  destruct e0 as [e0|]; simpl.
  - intros [= <-]. left. apply H3. reflexivity.
  - destruct (H2 eq_refl) as [_ ->].
    destruct (firstRepeated env _) as [k|] eqn:F; simpl; [|discriminate].
    intros [= <-]. right. split; [apply H1; reflexivity|].
    exists k. split; [reflexivity|]. eapply firstRepeated_tally_Some; eassumption.
Qed.

Lemma after_field_checks_origin (env : Env) (i : RequisitionInterface.t) (e : Error) :
  err (after_field_checks env i) = Some e →
  field_check_error e = false ∧
  (origin e = FromInterface ∨ origin e = FromService ∨ origin e = FromMetaData).
Proof.
  unfold after_field_checks. rewrite err_andThen.
  destruct (err (RequisitionInterface.validateIP env i)) as [e0|] eqn:E0.
  { intros [= <-]. apply validateIP_error_shape in E0 as [->|[le ->]];
      (split; [reflexivity | left; reflexivity]). }
  rewrite err_andThen.
  destruct (err (RequisitionInterface.validateServices env _)) as [e1|] eqn:E1.
  { intros [= <-]. apply validateServices_error_shape in E1 as [(s & _ & Hs)|(_ & k & -> & _)].
    - apply Service_origin in Hs.
      split; [|right; exact Hs].
      destruct (field_check_error e1) eqn:F; [|reflexivity].
      apply field_check_error_origin in F. destruct Hs; congruence.
    - split; [reflexivity | left; reflexivity]. }
  destruct (rangeCopy _ _) as [e2|] eqn:E2; simpl; [|discriminate].
  intros [= <-]. rewrite rangeCopy_rangePtr in E2.
  apply rangePtr_MetaData_origin in E2.
  split; [|right; right; exact E2].
  destruct (field_check_error e2) eqn:F; [|reflexivity].
  apply field_check_error_origin in F. congruence.
Qed.

Lemma Interface_origin (env : Env) (i : RequisitionInterface.t) (e : Error) :
  err (RequisitionInterface.IsValid env i) = Some e →
  origin e = FromInterface ∨ origin e = FromService ∨ origin e = FromMetaData.
Proof.
  destruct (classic_reaches i) as [H|H].
  - rewrite Interface_IsValid_reached by exact H. intros He.
    apply after_field_checks_origin in He. tauto.
  - destruct (Interface_IsValid_not_reached env i H) as (e' & F & ->).
    intros [= <-]. left. apply field_check_error_origin. exact F.
Qed.

Lemma interface_passes_iff (env : Env) (i : RequisitionInterface.t) :
  interface_passes env i ↔
    reaches_address_step i ∧
    address_accepted env (RequisitionInterface.IPAddress i) ∧
    Forall service_passes (RequisitionInterface.Services i) ∧
    NoDup (map RequisitionMonitoredService.Name (RequisitionInterface.Services i)) ∧
    Forall metaData_passes (RequisitionInterface.MetaData i).
Proof.
  unfold interface_passes. destruct (classic_reaches i) as [H|H].
  - rewrite Interface_IsValid_reached by exact H. rewrite after_field_checks_err.
    destruct (with_defaults_fields i) as (-> & -> & -> & _). tauto.
  - destruct (Interface_IsValid_not_reached env i H) as (e' & _ & ->).
    split; [discriminate | tauto].
Qed.

(** ** Nodes: the loop over the interfaces *)

Lemma validateInterfaces_range_spec (env : Env) (ifaces : list RequisitionInterface.t)
    (pc : Z) (m : gmap string Z) :
  let r := RequisitionNode.validateInterfaces_range env ifaces pc m in
  (RequisitionNode.stopped r = None ↔ Forall (interface_passes env) ifaces) ∧
  (RequisitionNode.stopped r = None →
     RequisitionNode.intfs r = map (λ i, after (RequisitionInterface.IsValid env i)) ifaces ∧
     RequisitionNode.intfMap r = tally (map RequisitionInterface.IPAddress ifaces) m ∧
     RequisitionNode.primaryCount r =
       pc + Z.of_nat (length (filter (λ i, RequisitionInterface.SnmpPrimary i = "P") ifaces))) ∧
  (∀ e, RequisitionNode.stopped r = Some e →
     ∃ before i rest, ifaces = before ++ i :: rest ∧
       Forall (interface_passes env) before ∧
       err (RequisitionInterface.IsValid env i) = Some e).
Proof.
  revert pc m. induction ifaces as [|i ifaces IH]; intros pc m; simpl.
  - repeat split; try constructor; try discriminate. lia.
  - destruct (err (RequisitionInterface.IsValid env i)) as [e|] eqn:E; simpl.
    + repeat split; try discriminate.
      * intros H. inversion H as [|? ? Hi _]; subst. unfold interface_passes in Hi. congruence.
      * intros e0 [= <-]. exists [], i, ifaces. repeat split; [constructor | exact E].
    + match goal with |- context [RequisitionNode.validateInterfaces_range env ifaces ?p ?q] =>
        specialize (IH p q); destruct IH as (IH1 & IH2 & IH3) end.
      repeat split.
      * intros H. constructor; [exact E | apply IH1; exact H].
      * intros H. inversion H; subst. apply IH1. assumption.
      * rewrite (proj1 (IH2 H)). reflexivity.
      * rewrite (proj1 (proj2 (IH2 H))). reflexivity.
      * rewrite (proj2 (proj2 (IH2 H))). rewrite filter_cons.
        destruct (decide (RequisitionInterface.SnmpPrimary i = "P")); simpl; lia.
      * intros e0 He0. destruct (IH3 e0 He0) as (before & x & rest & -> & Hb & Hx).
        exists (i :: before), x, rest. repeat split; [constructor; assumption | exact Hx].
Qed.

(** [validateInterfaces], outcome by outcome. *)
Lemma validateInterfaces_err (env : Env) (n : RequisitionNode.t) :
  let r := RequisitionNode.validateInterfaces_range env (RequisitionNode.Interfaces n) 0 ∅ in
  err (RequisitionNode.validateInterfaces env n) =
    match RequisitionNode.stopped r with
    | Some e => Some e
    | None =>
        if decide (RequisitionNode.primaryCount r > 1)
        then Some (ManyPrimaryInterfaces (RequisitionNode.NodeLabel n))
        else match firstRepeated env (RequisitionNode.intfMap r) with
             | Some ipAddr => Some (IPAddressDefinedTwice ipAddr (RequisitionNode.NodeLabel n))
             | None => None
             end
    end.
Proof.
  unfold RequisitionNode.validateInterfaces. simpl.
  destruct (RequisitionNode.stopped _); [reflexivity|].
  case_decide; [reflexivity|].
  destruct (firstRepeated env _); reflexivity.
Qed.

Lemma validateInterfaces_after (env : Env) (n : RequisitionNode.t) :
  let n' := after (RequisitionNode.validateInterfaces env n) in
  RequisitionNode.NodeLabel n' = RequisitionNode.NodeLabel n ∧
  RequisitionNode.ForeignID n' = RequisitionNode.ForeignID n ∧
  RequisitionNode.Categories n' = RequisitionNode.Categories n ∧
  RequisitionNode.Assets n' = RequisitionNode.Assets n ∧
  RequisitionNode.MetaData n' = RequisitionNode.MetaData n ∧
  RequisitionNode.Interfaces n' =
    RequisitionNode.intfs
      (RequisitionNode.validateInterfaces_range env (RequisitionNode.Interfaces n) 0 ∅).
Proof.
  unfold RequisitionNode.validateInterfaces. simpl.
  destruct (RequisitionNode.stopped _); [repeat split|].
  case_decide; [repeat split|].
  destruct (firstRepeated env _); repeat split.
Qed.

(** The outcome of [validateInterfaces] in terms of the node as supplied. *)
Lemma validateInterfaces_cases (env : Env) (n : RequisitionNode.t) :
  match err (RequisitionNode.validateInterfaces env n) with
  | None =>
      Forall (interface_passes env) (RequisitionNode.Interfaces n) ∧
      (primaries n ≤ 1)%nat ∧ NoDup (addresses n)
  | Some e =>
      (∃ before i rest, RequisitionNode.Interfaces n = before ++ i :: rest ∧
         Forall (interface_passes env) before ∧
         err (RequisitionInterface.IsValid env i) = Some e) ∨
      (Forall (interface_passes env) (RequisitionNode.Interfaces n) ∧
       (1 < primaries n)%nat ∧ e = ManyPrimaryInterfaces (RequisitionNode.NodeLabel n)) ∨
      (Forall (interface_passes env) (RequisitionNode.Interfaces n) ∧
       (primaries n ≤ 1)%nat ∧
       ∃ ip, (1 < times ip (addresses n))%nat ∧
             e = IPAddressDefinedTwice ip (RequisitionNode.NodeLabel n))
  end.
Proof.
  rewrite validateInterfaces_err. unfold primaries, addresses.
  pose proof (validateInterfaces_range_spec env (RequisitionNode.Interfaces n) 0 ∅)
    as (H1 & H2 & H3).
  simpl in *.
  destruct (RequisitionNode.stopped _) as [e|] eqn:S.
  - left. apply H3. reflexivity.
  - destruct (H2 eq_refl) as (_ & -> & ->). pose proof (proj1 H1 eq_refl) as Hall.
    case_decide.
    + right. left. repeat split; [exact Hall | lia].
    + destruct (firstRepeated env _) as [ip|] eqn:F.
      * right. right. repeat split; [exact Hall | lia |].
        exists ip. split; [|reflexivity]. eapply firstRepeated_tally_Some; eassumption.
      * repeat split; [exact Hall | lia |]. eapply firstRepeated_tally_None; eassumption.
Qed.

(** ** Nodes: the field checks *)

Section NodeChecks.
Variable env : Env.
Variable n : RequisitionNode.t.

Lemma with_default_label_fields :
  RequisitionNode.ForeignID (with_default_label n) = RequisitionNode.ForeignID n ∧
  RequisitionNode.ParentForeignID (with_default_label n) = RequisitionNode.ParentForeignID n ∧
  RequisitionNode.ParentNodeLabel (with_default_label n) = RequisitionNode.ParentNodeLabel n ∧
  RequisitionNode.Interfaces (with_default_label n) = RequisitionNode.Interfaces n ∧
  RequisitionNode.Categories (with_default_label n) = RequisitionNode.Categories n ∧
  RequisitionNode.Assets (with_default_label n) = RequisitionNode.Assets n ∧
  RequisitionNode.MetaData (with_default_label n) = RequisitionNode.MetaData n.
Proof. unfold with_default_label. case_decide; repeat split. Qed.

Lemma label_of_eq :
  label_of n = if decide (RequisitionNode.NodeLabel n = "")
               then RequisitionNode.ForeignID n else RequisitionNode.NodeLabel n.
Proof. unfold label_of, with_default_label. case_decide; reflexivity. Qed.

(** [IsValid] on a node, check by check. *)
Lemma Node_IsValid_unfold :
  RequisitionNode.IsValid env n =
    if decide (RequisitionNode.ForeignID n = "") then fail n ForeignIDEmpty
    else if matchForbidden (RequisitionNode.ForeignID n)
    then fail n (ForeignIDInvalidChars (RequisitionNode.ForeignID n))
    else if decide (RequisitionNode.ParentForeignID (with_default_label n) ≠ "" ∧
                    RequisitionNode.ParentNodeLabel (with_default_label n) ≠ "")
    then fail (with_default_label n) (BothParents (label_of n))
    else if decide (RequisitionNode.ParentNodeLabel (with_default_label n) = label_of n)
    then fail (with_default_label n) ParentIsSelfByLabel
    else if decide (RequisitionNode.ParentForeignID (with_default_label n) =
                    RequisitionNode.ForeignID (with_default_label n))
    then fail (with_default_label n) ParentIsSelfByForeignID
    else andThen (RequisitionNode.validateInterfaces env (with_default_label n))
                 after_interfaces.
Proof. reflexivity. Qed.

Lemma Node_IsValid_reached :
  reaches_interfaces n →
  RequisitionNode.IsValid env n =
    andThen (RequisitionNode.validateInterfaces env (with_default_label n)) after_interfaces.
Proof.
  intros ((Hf & Hc) & Hb & Hl & Hp). rewrite Node_IsValid_unfold.
  destruct with_default_label_fields as (-> & -> & -> & _).
  rewrite decide_False by exact Hf.
  apply matchForbidden_false in Hc. rewrite Hc.
  rewrite decide_False by exact Hb.
  rewrite decide_False by exact Hl.
  rewrite decide_False by exact Hp.
  reflexivity.
Qed.

Lemma Node_IsValid_not_reached :
  ¬ reaches_interfaces n →
  ∃ e, node_field_error e = true ∧ err (RequisitionNode.IsValid env n) = Some e.
Proof.
  intros H. rewrite Node_IsValid_unfold.
  destruct with_default_label_fields as (-> & -> & -> & _).
  destruct (decide (RequisitionNode.ForeignID n = "")) as [Hf|Hf];
    [eexists; split; [|reflexivity]; reflexivity|].
  destruct (matchForbidden _) eqn:Hc; [eexists; split; [|reflexivity]; reflexivity|].
  destruct (decide (_ ∧ _)) as [Hb|Hb]; [eexists; split; [|reflexivity]; reflexivity|].
  destruct (decide (_ = label_of n)) as [Hl|Hl]; [eexists; split; [|reflexivity]; reflexivity|].
  destruct (decide (_ = _)) as [Hp|Hp]; [eexists; split; [|reflexivity]; reflexivity|].
  destruct H. repeat split; try assumption. apply matchForbidden_false. exact Hc.
Qed.

Lemma classic_reaches_interfaces :
  reaches_interfaces n ∨ ¬ reaches_interfaces n.
Proof.
  unfold reaches_interfaces, foreignID_passes, both_parents.
  rewrite <- matchForbidden_false.
  destruct (decide (RequisitionNode.ForeignID n = "")); [right; tauto|].
  destruct (matchForbidden (RequisitionNode.ForeignID n));
    [right; intros ((_ & ?) & _); discriminate|].
  destruct (decide (RequisitionNode.ParentForeignID n = ""));
  destruct (decide (RequisitionNode.ParentNodeLabel n = ""));
  destruct (decide (RequisitionNode.ParentNodeLabel n = label_of n));
  destruct (decide (RequisitionNode.ParentForeignID n = RequisitionNode.ForeignID n));
  tauto.
Qed.

End NodeChecks.

(** ** Nodes: after the interfaces *)

Lemma Category_origin (c : RequisitionCategory.t) (e : Error) :
  RequisitionCategory.IsValid c = Some e → origin e = FromCategory.
Proof.
  unfold RequisitionCategory.IsValid. case_decide; [intros [= <-]; reflexivity|].
  destruct (matchForbidden _); [intros [= <-]; reflexivity | discriminate].
Qed.

Lemma Asset_origin (a : RequisitionAsset.t) (e : Error) :
  RequisitionAsset.IsValid a = Some e → origin e = FromAsset.
Proof.
  unfold RequisitionAsset.IsValid. case_decide; [intros [= <-]; reflexivity|].
  destruct (matchForbidden _); [intros [= <-]; reflexivity|].
  case_decide; [intros [= <-]; reflexivity | discriminate].
Qed.

Lemma after_interfaces_err (n : RequisitionNode.t) :
  match err (after_interfaces n) with
  | None =>
      Forall category_passes (RequisitionNode.Categories n) ∧
      Forall asset_passes (RequisitionNode.Assets n) ∧
      Forall metaData_passes (RequisitionNode.MetaData n)
  | Some e => origin e = FromCategory ∨ origin e = FromAsset ∨ origin e = FromMetaData
  end.
Proof.
  unfold after_interfaces.
  destruct (rangeVal RequisitionCategory.IsValid _) as [e|] eqn:C; simpl.
  { apply rangeVal_Some in C as (c & _ & Hc). left. eapply Category_origin; eassumption. }
  destruct (rangeVal RequisitionAsset.IsValid _) as [e|] eqn:A; simpl.
  { apply rangeVal_Some in A as (a & _ & Ha). right. left. eapply Asset_origin; eassumption. }
  destruct (rangePtr RequisitionMetaData.IsValid _) as [md [e|]] eqn:M; simpl.
  { right. right. eapply rangePtr_MetaData_origin. rewrite M. reflexivity. }
  repeat split.
  - apply rangeVal_None. exact C.
  - apply rangeVal_None. exact A.
  - apply (rangePtr_None RequisitionMetaData.IsValid). rewrite M. reflexivity.
Qed.

Lemma after_interfaces_passes (n : RequisitionNode.t) :
  Forall category_passes (RequisitionNode.Categories n) →
  Forall asset_passes (RequisitionNode.Assets n) →
  Forall metaData_passes (RequisitionNode.MetaData n) →
  err (after_interfaces n) = None.
Proof.
  intros C A M. unfold after_interfaces.
  apply rangeVal_None in C. rewrite C.
  apply rangeVal_None in A. rewrite A.
  apply (rangePtr_None RequisitionMetaData.IsValid) in M.
  destruct (rangePtr _ _) as [md e]; simpl in *. exact M.
Qed.

(** ** Nodes: every way [IsValid] can end *)

Lemma Node_IsValid_result (env : Env) (n : RequisitionNode.t) :
  node_result env n (err (RequisitionNode.IsValid env n)).
Proof.
  destruct (classic_reaches_interfaces n) as [R|R].
  2:{ rewrite Node_IsValid_unfold.
      destruct (with_default_label_fields n) as (-> & -> & -> & _).
      destruct (decide (RequisitionNode.ForeignID n = "")) as [Hf|Hf];
        [apply node_without_foreignID; exact Hf|].
      destruct (matchForbidden _) eqn:Hc;
        [apply node_with_forbidden_foreignID, matchForbidden_true; exact Hc|].
      apply matchForbidden_false in Hc.
      destruct (decide (_ ∧ _)) as [Hb|Hb];
        [apply node_with_both_parents; [split|]; assumption|].
      destruct (decide (_ = label_of n)) as [Hl|Hl];
        [apply node_parent_of_itself_by_label; [split| |]; assumption|].
      destruct (decide (_ = _)) as [Hp|Hp];
        [apply node_parent_of_itself_by_foreignID; [split| | |]; assumption|].
      destruct R. repeat split; assumption. }
  rewrite Node_IsValid_reached by exact R. rewrite err_andThen.
  pose proof (validateInterfaces_cases env (with_default_label n)) as V.
  pose proof (validateInterfaces_after env (with_default_label n)) as (_ & _ & HC & HA & HM & _).
  unfold primaries, addresses in V.
  destruct (with_default_label_fields n) as (_ & _ & _ & HI & HC' & HA' & HM').
  rewrite HI in V. fold (primaries n) in V. fold (addresses n) in V. fold (label_of n) in V.
  destruct (err (RequisitionNode.validateInterfaces env _)) as [e|].
  - destruct V as [(before & i & rest & Hs & Hb & Hi)|[(Hall & Hp & ->)|(Hall & Hp & ip & Ht & ->)]].
    + eapply node_fails_on_interface; eassumption.
    + apply node_fails_on_primaries; assumption.
    + apply node_fails_on_addresses; assumption.
  - destruct V as (Hall & Hp & Hd).
    pose proof (after_interfaces_err (after (RequisitionNode.validateInterfaces env (with_default_label n)))) as L.
    rewrite HC, HA, HM, HC', HA', HM' in L.
    destruct (err (after_interfaces _)) as [e|].
    + apply node_fails_later; assumption.
    + destruct L as (? & ? & ?). apply node_is_valid; assumption.
Qed.

(** ** Requisitions: the loop over the nodes *)

Lemma IsValid_range_passes (env : Env) (name : string) (ns : list RequisitionNode.t)
    (m : gmap string Z) :
  let s := Requisition.IsValid_range env name ns m in
  (Requisition.stopped s = None ↔ Forall (node_passes env) ns) ∧
  (Requisition.stopped s = None →
     Requisition.nodes s = map (λ n, after (RequisitionNode.IsValid env n)) ns ∧
     Requisition.foreignIDs s = tally (map RequisitionNode.ForeignID ns) m).
Proof.
  revert m. induction ns as [|n ns IH]; intros m; simpl.
  - repeat split; try constructor; discriminate.
  - destruct (err (RequisitionNode.IsValid env n)) as [e|] eqn:E; simpl.
    + repeat split; try discriminate.
      intros H. inversion H as [|? ? Hn _]; subst. unfold node_passes in Hn. congruence.
    + match goal with |- context [Requisition.IsValid_range env name ns ?q] =>
        specialize (IH q); destruct IH as (IH1 & IH2) end.
      repeat split.
      * intros H. constructor; [exact E | apply IH1; exact H].
      * intros H. inversion H; subst. apply IH1. assumption.
      * rewrite (proj1 (IH2 H)). reflexivity.
      * rewrite (proj2 (IH2 H)). reflexivity.
Qed.

Lemma IsValid_range_stops (env : Env) (name : string)
    (before : list RequisitionNode.t) (n : RequisitionNode.t)
    (rest : list RequisitionNode.t) (e : Error) (m : gmap string Z) :
  Forall (node_passes env) before →
  err (RequisitionNode.IsValid env n) = Some e →
  Requisition.stopped (Requisition.IsValid_range env name (before ++ n :: rest) m) =
    Some (wrapped env name n e).
Proof.
  intros Hb Hn. revert m. induction Hb as [|x before Hx Hb IH]; intros m; simpl.
  - rewrite Hn. reflexivity.
  - unfold node_passes in Hx. rewrite Hx. simpl. apply IH.
Qed.

Lemma IsValid_range_stopped (env : Env) (name : string) (ns : list RequisitionNode.t)
    (m : gmap string Z) (e : Error) :
  Requisition.stopped (Requisition.IsValid_range env name ns m) = Some e →
  ∃ before n rest cause,
    ns = before ++ n :: rest ∧ Forall (node_passes env) before ∧
    err (RequisitionNode.IsValid env n) = Some cause ∧ e = wrapped env name n cause.
Proof.
  revert m. induction ns as [|n ns IH]; intros m; simpl; [discriminate|].
  destruct (err (RequisitionNode.IsValid env n)) as [c|] eqn:E; simpl.
  - intros [= <-]. exists [], n, ns, c. repeat split; [constructor | exact E].
  - intros H. destruct (IH _ H) as (before & x & rest & c & -> & Hb & Hx & ->).
    exists (n :: before), x, rest, c. repeat split; [constructor; assumption | exact Hx].
Qed.

(** [IsValid] on a requisition, outcome by outcome. *)
Lemma Requisition_IsValid_err {Time} (env : Env) (r : Requisition.t Time) :
  err (Requisition.IsValid env r) =
    if decide (Requisition.Name r = "") then Some RequisitionNameEmpty
    else if matchForbidden (Requisition.Name r)
    then Some (RequisitionNameInvalidChars (Requisition.Name r))
    else
      let s := Requisition.IsValid_range env (Requisition.Name r) (Requisition.Nodes r) ∅ in
      match Requisition.stopped s with
      | Some e => Some e
      | None =>
          match firstRepeated env (Requisition.foreignIDs s) with
          | Some id => Some (DuplicateForeignID id (Requisition.Name r))
          | None => None
          end
      end.
Proof.
  unfold Requisition.IsValid. case_decide; [reflexivity|].
  destruct (matchForbidden _); [reflexivity|]. simpl.
  destruct (Requisition.stopped _); [reflexivity|].
  destruct (firstRepeated env _); reflexivity.
Qed.

(** ** Texts *)

Lemma chars_app (a b : string) : chars (a +:+ b) = chars a ++ chars b.
Proof. induction a as [|c a IH]; simpl; [reflexivity | rewrite IH; reflexivity]. Qed.

Lemma starts_with_app (x b : string) : starts_with x (x +:+ b) = true.
Proof.
  induction x as [|c x IH]; simpl; [reflexivity|].
  rewrite bool_decide_eq_true_2 by reflexivity. exact IH.
Qed.

Lemma mentions_app (a x b : string) : mentions x (a +:+ x +:+ b) = true.
Proof.
  induction a as [|c a IH]; simpl.
  - destruct (x +:+ b) eqn:E; simpl; rewrite <- E, starts_with_app; reflexivity.
  - rewrite IH. apply orb_true_r.
Qed.

(** ** Nodes: the label *)

Lemma label_of_nonempty (n : RequisitionNode.t) :
  RequisitionNode.ForeignID n ≠ "" → label_of n ≠ "".
Proof. rewrite label_of_eq. case_decide; congruence. Qed.

Lemma Node_IsValid_label (env : Env) (n : RequisitionNode.t) :
  foreignID_passes n →
  RequisitionNode.NodeLabel (after (RequisitionNode.IsValid env n)) = label_of n.
Proof.
  intros [Hf Hc]. apply matchForbidden_false in Hc.
  rewrite Node_IsValid_unfold. rewrite decide_False by exact Hf. rewrite Hc.
  repeat case_decide; try reflexivity.
  rewrite after_andThen.
  destruct (validateInterfaces_after env (with_default_label n)) as (HL & _).
  destruct (err (RequisitionNode.validateInterfaces env _)); [exact HL|].
  unfold after_interfaces.
  destruct (rangeVal RequisitionCategory.IsValid _); [exact HL|].
  destruct (rangeVal RequisitionAsset.IsValid _); [exact HL|].
  destruct (rangePtr RequisitionMetaData.IsValid _). exact HL.
Qed.

(** ** Nodes: which check reports *)

Lemma stopped_interface_absurd (env : Env) (n : RequisitionNode.t)
    (before : list RequisitionInterface.t) (i : RequisitionInterface.t)
    (rest : list RequisitionInterface.t) (e : Error) :
  RequisitionNode.Interfaces n = before ++ i :: rest →
  err (RequisitionInterface.IsValid env i) = Some e →
  ¬ Forall (interface_passes env) (RequisitionNode.Interfaces n).
Proof.
  intros Hs Hi Hall. rewrite Hs in Hall. apply Forall_app in Hall as [_ Hall].
  inversion Hall as [|? ? Hp _]; subst. unfold interface_passes in Hp. congruence.
Qed.

(** Discards the cases of [node_result] that contradict what is known. *)
Ltac absurd_node_case :=
  exfalso;
  first
    [ lia
    | contradiction
    | match goal with
      | Hs : RequisitionNode.Interfaces _ = _ ++ _ :: _,
        Hi : err (RequisitionInterface.IsValid _ _) = Some _,
        Hall : Forall (interface_passes _) _ |- _ =>
          exact (stopped_interface_absurd _ _ _ _ _ _ Hs Hi Hall)
      end
    | match goal with
      | R : reaches_interfaces _ |- _ =>
          destruct R as ((? & ?) & ? & ? & ?); first [contradiction | congruence]
      end
    | match goal with
      | H : _ ∨ _ ∨ _ |- _ => destruct H as [H|[H|H]]; discriminate
      end ].

Lemma Node_IsValid_many_primaries (env : Env) (n : RequisitionNode.t) :
  reaches_interfaces n →
  Forall (interface_passes env) (RequisitionNode.Interfaces n) →
  (1 < primaries n)%nat →
  err (RequisitionNode.IsValid env n) = Some (ManyPrimaryInterfaces (label_of n)).
Proof.
  intros Hr Hall Hp. pose proof (Node_IsValid_result env n) as R.
  inversion R; try reflexivity; absurd_node_case.
Qed.

Lemma Node_IsValid_repeated_address (env : Env) (n : RequisitionNode.t) :
  reaches_interfaces n →
  Forall (interface_passes env) (RequisitionNode.Interfaces n) →
  (primaries n ≤ 1)%nat → ¬ NoDup (addresses n) →
  ∃ ip, (1 < times ip (addresses n))%nat ∧
        err (RequisitionNode.IsValid env n) = Some (IPAddressDefinedTwice ip (label_of n)).
Proof.
  intros Hr Hall Hp Hd. pose proof (Node_IsValid_result env n) as R.
  inversion R; try absurd_node_case.
  eexists; split; [eassumption | reflexivity].
Qed.

Lemma Node_IsValid_many_primaries_inv (env : Env) (n : RequisitionNode.t) (label : string) :
  err (RequisitionNode.IsValid env n) = Some (ManyPrimaryInterfaces label) →
  reaches_interfaces n ∧ Forall (interface_passes env) (RequisitionNode.Interfaces n) ∧
  (1 < primaries n)%nat ∧ label = label_of n.
Proof.
  intros He. pose proof (Node_IsValid_result env n) as R. rewrite He in R.
  inversion R as [| | | | | before i rest e Hr Hs Hb Hi | | | e Hr Hall Hp Hd Ho | ]; subst.
  - apply Interface_origin in Hi. absurd_node_case.
  - tauto.
  - absurd_node_case.
Qed.

Lemma Node_IsValid_repeated_address_inv (env : Env) (n : RequisitionNode.t)
    (ip label : string) :
  err (RequisitionNode.IsValid env n) = Some (IPAddressDefinedTwice ip label) →
  reaches_interfaces n ∧ Forall (interface_passes env) (RequisitionNode.Interfaces n) ∧
  (primaries n ≤ 1)%nat ∧ (1 < times ip (addresses n))%nat ∧ label = label_of n.
Proof.
  intros He. pose proof (Node_IsValid_result env n) as R. rewrite He in R.
  inversion R as [| | | | | before i rest e Hr Hs Hb Hi | | | e Hr Hall Hp Hd Ho | ]; subst.
  - apply Interface_origin in Hi. absurd_node_case.
  - tauto.
  - absurd_node_case.
Qed.

Lemma Node_IsValid_passes (env : Env) (n : RequisitionNode.t) :
  node_passes env n ↔
    reaches_interfaces n ∧
    Forall (interface_passes env) (RequisitionNode.Interfaces n) ∧
    (primaries n ≤ 1)%nat ∧ NoDup (addresses n) ∧
    Forall category_passes (RequisitionNode.Categories n) ∧
    Forall asset_passes (RequisitionNode.Assets n) ∧
    Forall metaData_passes (RequisitionNode.MetaData n).
Proof.
  unfold node_passes. split.
  - intros He. pose proof (Node_IsValid_result env n) as R. rewrite He in R.
    inversion R. tauto.
  - intros (Hr & Hall & Hp & Hd & Hc & Ha & Hm).
    rewrite Node_IsValid_reached by exact Hr. rewrite err_andThen.
    pose proof (validateInterfaces_cases env (with_default_label n)) as V.
    pose proof (validateInterfaces_after env (with_default_label n)) as (_ & _ & HC & HA & HM & _).
    unfold primaries, addresses in V.
    destruct (with_default_label_fields n) as (_ & _ & _ & HI & HC' & HA' & HM').
    rewrite HI in V. fold (primaries n) in V. fold (addresses n) in V.
    destruct (err (RequisitionNode.validateInterfaces env _)) as [e|].
    + exfalso.
      destruct V as [(before & i & rest & Hs & Hb & Hi)|[(_ & ? & _)|(_ & _ & ip & Ht & _)]].
      * exact (stopped_interface_absurd _ _ _ _ _ _ Hs Hi Hall).
      * lia.
      * pose proof (proj1 (NoDup_times _) Hd ip). lia.
    + apply after_interfaces_passes; rewrite ?HC, ?HA, ?HM, ?HC', ?HA', ?HM'; assumption.
Qed.

(** ** Interfaces: what [IsValid] leaves behind *)

Lemma after_field_checks_after (env : Env) (i : RequisitionInterface.t) :
  let i' := after (after_field_checks env i) in
  RequisitionInterface.IPAddress i' =
    RequisitionInterface.IPAddress (after (RequisitionInterface.validateIP env i)) ∧
  RequisitionInterface.Status i' = RequisitionInterface.Status i ∧
  RequisitionInterface.SnmpPrimary i' = RequisitionInterface.SnmpPrimary i ∧
  RequisitionInterface.MetaData i' = RequisitionInterface.MetaData i.
Proof.
  unfold after_field_checks. simpl. rewrite after_andThen.
  destruct (validateIP_after env i) as (Hst & Hp & _ & Hmd).
  destruct (err (RequisitionInterface.validateIP env i)); [repeat split; assumption|].
  rewrite after_andThen.
  destruct (validateServices_after env (after (RequisitionInterface.validateIP env i)))
    as (Hip2 & Hst2 & Hp2 & Hmd2).
  destruct (err (RequisitionInterface.validateServices env _));
    [repeat split; congruence|].
  destruct (rangeCopy _ _); simpl; repeat split; congruence.
Qed.

(** The meta-data of an interface is never written to. *)
Lemma Interface_IsValid_MetaData (env : Env) (i : RequisitionInterface.t) :
  RequisitionInterface.MetaData (after (RequisitionInterface.IsValid env i)) =
  RequisitionInterface.MetaData i.
Proof.
  destruct (with_defaults_fields i) as (_ & _ & Hmd & _).
  rewrite Interface_IsValid_unfold.
  destruct (decide (RequisitionInterface.IPAddress i = "")); [reflexivity|].
  destruct (decide (_ ∧ _)).
  { unfold with_default_status. destruct (decide (RequisitionInterface.Status i = 0)); reflexivity. }
  destruct (decide (_ ∧ _)); [exact Hmd|].
  destruct (after_field_checks_after env (with_defaults i)) as (_ & _ & _ & ->). exact Hmd.
Qed.

Lemma Interface_IsValid_address (env : Env) (i : RequisitionInterface.t) :
  reaches_address_step i →
  RequisitionInterface.IPAddress (after (RequisitionInterface.IsValid env i)) =
  RequisitionInterface.IPAddress
    (after (RequisitionInterface.validateIP env (with_defaults i))).
Proof.
  intros Hr. rewrite Interface_IsValid_reached by exact Hr.
  apply after_field_checks_after.
Qed.

Lemma Interface_IsValid_resolved (env : Env) (i : RequisitionInterface.t) (first : string) :
  interface_passes env i →
  ParseIP env (RequisitionInterface.IPAddress i) = false →
  resolves_to env (RequisitionInterface.IPAddress i) first →
  RequisitionInterface.IPAddress (after (RequisitionInterface.IsValid env i)) = first.
Proof.
  intros Hp Hparse [others Hl]. apply interface_passes_iff in Hp as (Hr & Ha & _).
  rewrite Interface_IsValid_address by exact Hr.
  destruct (with_defaults_fields i) as (Hip & _).
  destruct Ha as [Ha|[Hallow _]]; [congruence|].
  rewrite (validateIP_resolved env (with_defaults i) first others);
    [reflexivity | | exact Hallow |]; rewrite Hip; assumption.
Qed.

(** The two address errors never read the same for one and the same
    address: their texts differ in length. *)
Lemma address_errors_differ (ip : string) (lookupErr : option string) :
  Error_message (CannotGetAddress ip lookupErr) ≠ Error_message (NotValidAddress ip).
Proof.
  intros H. apply (f_equal (λ s, length (chars s))) in H. simpl in H.
  rewrite !chars_app, !length_app in H. simpl in H. lia.
Qed.

(** ** What a successful validation leaves behind *)

Lemma rangePtr_MetaData_pass (ms : list RequisitionMetaData.t) :
  Forall metaData_passes ms →
  rangePtr RequisitionMetaData.IsValid ms = (map with_default_context ms, None).
Proof.
  intros H. apply (rangePtr_None RequisitionMetaData.IsValid) in H.
  pose proof (rangePtr_pass RequisitionMetaData.IsValid ms H) as Hf.
  destruct (rangePtr RequisitionMetaData.IsValid ms) as [ms' e]; simpl in *. subst.
  f_equal. apply map_ext. intros m. apply MetaData_IsValid_after.
Qed.

Lemma Service_IsValid_pass (s : RequisitionMonitoredService.t) :
  service_passes s → RequisitionMonitoredService.IsValid s = (normalized_service s, None).
Proof.
  intros H. apply service_passes_iff in H as (Hn & Hc & Hm).
  apply matchForbidden_false in Hc. unfold RequisitionMonitoredService.IsValid.
  rewrite decide_False by exact Hn. rewrite Hc.
  rewrite rangePtr_MetaData_pass by exact Hm. reflexivity.
Qed.

Lemma validateServices_pass (env : Env) (i : RequisitionInterface.t) :
  err (RequisitionInterface.validateServices env i) = None →
  RequisitionInterface.validateServices env i =
    pass (RequisitionInterface.set_Services
            (map normalized_service (RequisitionInterface.Services i)) i).
Proof.
  intros He. pose proof He as Hp. apply validateServices_err in Hp as (Hall & _).
  revert He. unfold RequisitionInterface.validateServices.
  pose proof (validateServices_range_spec (RequisitionInterface.Services i) ∅) as (H1 & H2 & _).
  destruct (RequisitionInterface.validateServices_range _ _) as [[ss m] e]; simpl in *.
  apply H1 in Hall. subst e. destruct (H2 eq_refl) as [-> _].
  destruct (firstRepeated env m); simpl; [discriminate|]. intros _.
  do 2 f_equal. apply map_ext_Forall. eapply Forall_impl; [apply H1; reflexivity|].
  intros s Hs. simpl. rewrite Service_IsValid_pass by exact Hs. reflexivity.
Qed.

Lemma validateIP_pass (env : Env) (i : RequisitionInterface.t) :
  err (RequisitionInterface.validateIP env i) = None →
  after (RequisitionInterface.validateIP env i) =
    RequisitionInterface.set_IPAddress
      (resolved_address env (RequisitionInterface.IPAddress i)) i.
Proof.
  unfold RequisitionInterface.validateIP, resolved_address.
  destruct (ParseIP env _); [intros _; destruct i; reflexivity|].
  destruct (AllowFqdnOnRequisitionedInterfaces env); [|discriminate].
  destruct (LookupIP env _) as [addresses [msg|]]; [discriminate|].
  destruct addresses; [discriminate|]. reflexivity.
Qed.

Lemma with_defaults_eq (i : RequisitionInterface.t) :
  with_defaults i =
    RequisitionInterface.mk
      (RequisitionInterface.IPAddress i) (RequisitionInterface.Description i)
      (if decide (RequisitionInterface.SnmpPrimary i = "") then "N"
       else RequisitionInterface.SnmpPrimary i)
      (if decide (RequisitionInterface.Status i = 0) then 1 else RequisitionInterface.Status i)
      (RequisitionInterface.Services i) (RequisitionInterface.MetaData i).
Proof.
  unfold with_defaults, with_default_snmp, with_default_status.
  destruct i as [ip d p st ss md]; simpl.
  destruct (decide (st = 0)); simpl; destruct (decide (p = "")); reflexivity.
Qed.

Lemma Interface_IsValid_pass (env : Env) (i : RequisitionInterface.t) :
  interface_passes env i →
  after (RequisitionInterface.IsValid env i) = normalized_interface env i.
Proof.
  intros Hp. pose proof Hp as Hq. apply interface_passes_iff in Hq as (Hr & _ & _ & _ & Hmd).
  unfold interface_passes in Hp. rewrite Interface_IsValid_reached in * by exact Hr.
  unfold after_field_checks in *. rewrite err_andThen in Hp. rewrite after_andThen.
  destruct (err (RequisitionInterface.validateIP env (with_defaults i))) eqn:E1;
    [discriminate|].
  rewrite err_andThen in Hp. rewrite after_andThen.
  destruct (err (RequisitionInterface.validateServices env _)) eqn:E2; [discriminate|].
  clear Hp.
  rewrite (validateServices_pass env _ E2), (validateIP_pass env _ E1), with_defaults_eq.
  simpl. apply rangeCopy_None in Hmd. rewrite Hmd. reflexivity.
Qed.

Lemma Node_IsValid_pass (env : Env) (n : RequisitionNode.t) :
  node_passes env n → after (RequisitionNode.IsValid env n) = normalized_node env n.
Proof.
  intros Hp. pose proof Hp as Hq.
  apply Node_IsValid_passes in Hq as (Hr & Hall & _ & _ & Hc & Ha & Hm).
  unfold node_passes in Hp. rewrite Node_IsValid_reached in * by exact Hr.
  rewrite err_andThen in Hp. rewrite after_andThen.
  destruct (err (RequisitionNode.validateInterfaces env (with_default_label n))) eqn:E1;
    [discriminate|].
  destruct (with_default_label_fields n) as (Hf & Hpf & Hpl & Hi & Hcs & Has & Hms).
  assert (Hv : after (RequisitionNode.validateInterfaces env (with_default_label n)) =
    RequisitionNode.set_Interfaces
      (map (normalized_interface env) (RequisitionNode.Interfaces n)) (with_default_label n)).
  { pose proof (validateInterfaces_range_spec env
                  (RequisitionNode.Interfaces (with_default_label n)) 0 ∅) as (H1 & H2 & _).
    simpl in H1, H2. rewrite Hi in H1, H2.
    pose proof (proj2 H1 Hall) as Hs. destruct (H2 Hs) as (Hintfs & _).
    unfold RequisitionNode.validateInterfaces. rewrite Hi, Hs, Hintfs.
    assert (Hmap : map (λ i, after (RequisitionInterface.IsValid env i))
                     (RequisitionNode.Interfaces n) =
                   map (normalized_interface env) (RequisitionNode.Interfaces n)).
    { apply map_ext_Forall. eapply Forall_impl; [exact Hall|].
      intros i. apply Interface_IsValid_pass. }
    rewrite Hmap. case_decide; [reflexivity|].
    destruct (firstRepeated env _); reflexivity. }
  rewrite Hv in *. unfold after_interfaces in *. simpl in *.
  rewrite Hcs, Has, Hms in *.
  apply rangeVal_None in Hc. rewrite Hc in *.
  apply rangeVal_None in Ha. rewrite Ha in *.
  rewrite rangePtr_MetaData_pass by exact Hm. simpl.
  unfold normalized_node, label_of, with_default_label.
  destruct n; simpl. case_decide; reflexivity.
Qed.

(** When [IsValid] succeeds on a requisition, every node has its label
    defaulted, every interface its status, primary flag and address, and
    every meta-data entry of a service or of a node its context; the
    meta-data entries of the interfaces, and everything else, are as
    supplied. *)
Lemma Requisition_IsValid_pass {Time : Type} (env : Env) (r : Requisition.t Time) :
  err (Requisition.IsValid env r) = None →
  after (Requisition.IsValid env r) =
    Requisition.set_Nodes (map (normalized_node env) (Requisition.Nodes r)) r.
Proof.
  unfold Requisition.IsValid. case_decide; [discriminate|].
  destruct (matchForbidden _); [discriminate|]. simpl.
  pose proof (IsValid_range_passes env (Requisition.Name r) (Requisition.Nodes r) ∅)
    as (H1 & H2).
  simpl in H1, H2.
  destruct (Requisition.stopped _) eqn:S; [discriminate|].
  destruct (H2 eq_refl) as (-> & _).
  assert (Hmap : map (λ n, after (RequisitionNode.IsValid env n)) (Requisition.Nodes r) =
                 map (normalized_node env) (Requisition.Nodes r)).
  { apply map_ext_Forall. eapply Forall_impl; [apply H1; reflexivity|].
    intros n. apply Node_IsValid_pass. }
  rewrite Hmap. destruct (firstRepeated env _); [discriminate|]. reflexivity.
Qed.

Lemma Requisition_IsValid_passes {Time : Type} (env : Env) (r : Requisition.t Time) :
  err (Requisition.IsValid env r) = None ↔
    name_passes r ∧ Forall (node_passes env) (Requisition.Nodes r) ∧ NoDup (foreign_ids r).
Proof.
  rewrite Requisition_IsValid_err. unfold name_passes.
  rewrite <- matchForbidden_false.
  case_decide; [split; [discriminate | tauto]|].
  destruct (matchForbidden _); [split; [discriminate | intros ((_ & ?) & _); discriminate]|].
  simpl.
  pose proof (IsValid_range_passes env (Requisition.Name r) (Requisition.Nodes r) ∅)
    as (H1 & H2).
  simpl in H1, H2.
  destruct (Requisition.stopped _) as [e|].
  - split; [discriminate|]. intros (_ & Hall & _). apply H1 in Hall. discriminate.
  - destruct (H2 eq_refl) as (_ & ->). fold (foreign_ids r).
    rewrite <- (firstRepeated_tally_None env).
    destruct (firstRepeated env _).
    + split; [discriminate | intros (_ & _ & ?); discriminate].
    + split; [|reflexivity]. intros _. repeat split; try assumption. apply H1. reflexivity.
Qed.

(** The scenario of the specification: one node, one interface with a
    literal address, everything else left out. *)
Lemma Requisition_IsValid_scenario (env : Env) :
  ParseIP env "10.0.0.1" = true →
  err (Requisition.IsValid env
         (newRequisition "Test" [newNode "n1" [newInterface "10.0.0.1"]])) = None ∧
  after (Requisition.IsValid env
           (newRequisition "Test" [newNode "n1" [newInterface "10.0.0.1"]])) =
    newRequisition "Test"
      [RequisitionNode.mk "n1" "n1" "" "" "" "" "" ""
         [RequisitionInterface.mk "10.0.0.1" "" "N" 1 [] []] [] [] []].
Proof.
  intros Hparse.
  assert (Hi : interface_passes env (newInterface "10.0.0.1")).
  { apply interface_passes_iff.
    split; [split; [discriminate | split; left; reflexivity]|].
    split; [left; exact Hparse|]. repeat split; constructor. }
  assert (Hn : node_passes env (newNode "n1" [newInterface "10.0.0.1"])).
  { apply Node_IsValid_passes. split.
    { split; [split; [discriminate | apply matchForbidden_false; reflexivity]|].
      split; [intros [Hpf _]; apply Hpf; reflexivity|]. split; discriminate. }
    split; [repeat constructor; exact Hi|].
    split; [vm_compute; lia|].
    split; [apply NoDup_singleton|].
    repeat split; constructor. }
  assert (Hok : err (Requisition.IsValid env
                  (newRequisition "Test" [newNode "n1" [newInterface "10.0.0.1"]])) = None).
  { apply Requisition_IsValid_passes. split; [|split].
    - split; [discriminate | apply matchForbidden_false; reflexivity].
    - repeat constructor. exact Hn.
    - apply NoDup_singleton. }
  split; [exact Hok|].
  rewrite (Requisition_IsValid_pass env _ Hok). simpl.
  unfold normalized_node, normalized_interface, resolved_address. simpl.
  rewrite Hparse. reflexivity.
Qed.

(** * The properties of the specification, one by one *)

(** ** C1 *)

(** C1 at a valid requisition that carries one meta-data entry with an
    empty context at each of the three places where meta-data may stand:
    on a service, on an interface and on the node.  [IsValid] succeeds;
    the label, the status and the primary flag are defaulted, and so is
    the context of the entry on the service and of the entry on the node,
    whose loops work through a pointer.  The entry on the interface keeps
    its empty context, because the loop over the meta-data of an interface
    validates a copy of each entry. *)
Theorem C1_interface_metadata_context_not_defaulted :
  Requisition.IsValid (sampleEnv true)
    (newRequisition "Test"
       [RequisitionNode.mk "" "n1" "" "" "" "" "" ""
          [RequisitionInterface.mk "10.0.0.1" "" "" 0
             [RequisitionMonitoredService.mk "ICMP"
                [RequisitionMetaData.mk "on-service" "v" ""]]
             [RequisitionMetaData.mk "on-interface" "v" ""]]
          [] []
          [RequisitionMetaData.mk "on-node" "v" ""]])
  = pass
    (newRequisition "Test"
       [RequisitionNode.mk "n1" "n1" "" "" "" "" "" ""
          [RequisitionInterface.mk "10.0.0.1" "" "N" 1
             [RequisitionMonitoredService.mk "ICMP"
                [RequisitionMetaData.mk "on-service" "v" "requisition"]]
             [RequisitionMetaData.mk "on-interface" "v" ""]]
          [] []
          [RequisitionMetaData.mk "on-node" "v" "requisition"]]).
Proof. vm_compute. reflexivity. Qed.

(** ** C2 *)

(** C2, as stated, fails on four interfaces whose address is not a literal
    one.  With resolution disabled and a status of 2, the call fails on
    the status, not on the address.  With resolution enabled, a name that
    resolves and a status of 2, the call fails and the address is left as
    it was.  With resolution enabled, a name that does not resolve and an
    unknown primary flag, the call fails on the flag, not on the
    resolution.  With resolution enabled, a name that resolves and a
    service without a name, the call fails on the service. *)
Lemma C2_counterexample :
  (ParseIP (sampleEnv false) "not-an-ip" = false ∧
   err (RequisitionInterface.IsValid (sampleEnv false)
          (RequisitionInterface.mk "not-an-ip" "" "" 2 [] []))
     = Some (InvalidStatus "not-an-ip" 2)) ∧
  (ParseIP (sampleEnv true) "gw.example.org" = false ∧
   LookupIP (sampleEnv true) "gw.example.org" = (["10.0.0.1"], None) ∧
   RequisitionInterface.IsValid (sampleEnv true)
     (RequisitionInterface.mk "gw.example.org" "" "" 2 [] [])
     = fail (RequisitionInterface.mk "gw.example.org" "" "" 2 [] [])
            (InvalidStatus "gw.example.org" 2)) ∧
  (ParseIP (sampleEnv true) "nowhere.example.org" = false ∧
   LookupIP (sampleEnv true) "nowhere.example.org" =
     ([], Some "lookup nowhere.example.org: no such host") ∧
   err (RequisitionInterface.IsValid (sampleEnv true)
          (RequisitionInterface.mk "nowhere.example.org" "" "X" 1 [] []))
     = Some (InvalidSnmpPrimary "nowhere.example.org" "X")) ∧
  (ParseIP (sampleEnv true) "gw.example.org" = false ∧
   LookupIP (sampleEnv true) "gw.example.org" = (["10.0.0.1"], None) ∧
   err (RequisitionInterface.IsValid (sampleEnv true)
          (RequisitionInterface.mk "gw.example.org" "" "" 0
             [RequisitionMonitoredService.mk "" []] []))
     = Some ServiceNameEmpty).
Proof.
  repeat split; vm_compute; reflexivity.
Qed.

(** C2, amended.  Take an interface whose address is not a literal one.
    With resolution disabled, [IsValid] always fails; with resolution
    enabled and a lookup that returns an error or no address, [IsValid]
    always fails too.  When the interface passes the three field checks
    that come first (address not empty, status 0, 1 or 3, primary flag
    empty, P, S or N), more is known.  With resolution disabled the
    failure is the error saying that the value is not a valid address.
    With resolution enabled and a lookup that returns, without error, at
    least one address, the address of the interface is overwritten with
    the first one returned and one line is printed; [IsValid] then
    succeeds exactly when the services pass on their own, their names are
    distinct and the meta-data passes.  With resolution enabled and a
    lookup that returns an error or no address, the failure is the error
    saying that no address could be got, which never reads the same as the
    error of the disabled case. *)
Theorem C2_address_resolution (env : Env) (i : RequisitionInterface.t) :
  ParseIP env (RequisitionInterface.IPAddress i) = false →
  (AllowFqdnOnRequisitionedInterfaces env = false →
     (∃ e, err (RequisitionInterface.IsValid env i) = Some e) ∧
     (reaches_address_step i →
      RequisitionInterface.IsValid env i =
        fail (with_defaults i) (NotValidAddress (RequisitionInterface.IPAddress i)))) ∧
  (AllowFqdnOnRequisitionedInterfaces env = true →
   ∀ first others,
     LookupIP env (RequisitionInterface.IPAddress i) = (first :: others, None) →
     reaches_address_step i →
     RequisitionInterface.IPAddress (after (RequisitionInterface.IsValid env i)) = first ∧
     stdout (RequisitionInterface.IsValid env i) =
       [RequisitionInterface.translates_line (RequisitionInterface.IPAddress i) first] ∧
     (err (RequisitionInterface.IsValid env i) = None ↔
        Forall service_passes (RequisitionInterface.Services i) ∧
        NoDup (map RequisitionMonitoredService.Name (RequisitionInterface.Services i)) ∧
        Forall metaData_passes (RequisitionInterface.MetaData i))) ∧
  (AllowFqdnOnRequisitionedInterfaces env = true →
   ∀ addresses lookupErr,
     LookupIP env (RequisitionInterface.IPAddress i) = (addresses, lookupErr) →
     lookupErr ≠ None ∨ addresses = [] →
     (∃ e, err (RequisitionInterface.IsValid env i) = Some e) ∧
     (reaches_address_step i →
      RequisitionInterface.IsValid env i =
        fail (with_defaults i)
             (CannotGetAddress (RequisitionInterface.IPAddress i) lookupErr))) ∧
  (∀ lookupErr,
     Error_message (CannotGetAddress (RequisitionInterface.IPAddress i) lookupErr) ≠
     Error_message (NotValidAddress (RequisitionInterface.IPAddress i))).
Proof.
  intros Hparse.
  destruct (with_defaults_fields i) as (Hip & Hss & Hmd & _).
  rewrite <- Hip in Hparse.
  assert (Hfails : ∀ e,
    (reaches_address_step i → RequisitionInterface.IsValid env i = fail (with_defaults i) e) →
    ∃ e', err (RequisitionInterface.IsValid env i) = Some e').
  { intros e H. destruct (classic_reaches i) as [Hr|Hr].
    - rewrite (H Hr). simpl. eauto.
    - destruct (Interface_IsValid_not_reached env i Hr) as (e' & _ & He'). eauto. }
  assert (Hoff : AllowFqdnOnRequisitionedInterfaces env = false → reaches_address_step i →
    RequisitionInterface.IsValid env i =
      fail (with_defaults i) (NotValidAddress (RequisitionInterface.IPAddress i))).
  { intros Hallow Hr. rewrite Interface_IsValid_reached by exact Hr.
    unfold after_field_checks.
    rewrite validateIP_disabled by assumption. rewrite Hip. reflexivity. }
  assert (Hbad : AllowFqdnOnRequisitionedInterfaces env = true →
    ∀ addresses lookupErr,
      LookupIP env (RequisitionInterface.IPAddress i) = (addresses, lookupErr) →
      lookupErr ≠ None ∨ addresses = [] → reaches_address_step i →
      RequisitionInterface.IsValid env i =
        fail (with_defaults i)
             (CannotGetAddress (RequisitionInterface.IPAddress i) lookupErr)).
  { intros Hallow addresses lookupErr Hl Hb Hr. rewrite <- Hip in Hl.
    rewrite Interface_IsValid_reached by exact Hr. unfold after_field_checks.
    rewrite (validateIP_unresolved env _ addresses lookupErr) by assumption.
    rewrite Hip. reflexivity. }
  split; [|split; [|split]].
  - intros Hallow. split; [eapply Hfails|]; apply Hoff; exact Hallow.
  - intros Hallow first others Hl Hr. rewrite <- Hip in Hl.
    rewrite Interface_IsValid_reached by exact Hr.
    split; [|split; [|split]].
    + destruct (after_field_checks_after env (with_defaults i)) as (-> & _).
      rewrite (validateIP_resolved env _ first others) by assumption. reflexivity.
    + unfold after_field_checks.
      rewrite (validateIP_resolved env _ first others) by assumption.
      unfold andThen at 1. simpl. rewrite Hip.
      unfold andThen, RequisitionInterface.validateServices.
      destruct (RequisitionInterface.validateServices_range _ _) as [[ss m] [e|]]; simpl;
        [reflexivity|].
      destruct (firstRepeated env m); simpl; [reflexivity|].
      destruct (rangeCopy _ _); reflexivity.
    + intros He. apply after_field_checks_err in He. rewrite Hss, Hmd in He. tauto.
    + intros (H1 & H2 & H3). apply after_field_checks_err. rewrite Hss, Hmd.
      repeat split; try assumption.
      right. split; [exact Hallow|]. exists first, others. exact Hl.
  - intros Hallow addresses lookupErr Hl Hb.
    split; [eapply Hfails|]; apply (Hbad Hallow addresses lookupErr Hl Hb).
  - intros lookupErr. apply address_errors_differ.
Qed.

Lemma C2_address_resolution_witness :
  err (RequisitionInterface.IsValid (sampleEnv false) (newInterface "not-an-ip"))
    = Some (NotValidAddress "not-an-ip") ∧
  (err (RequisitionInterface.IsValid (sampleEnv true) (newInterface "router.example.org"))
     = None ∧
   RequisitionInterface.IPAddress
     (after (RequisitionInterface.IsValid (sampleEnv true) (newInterface "router.example.org")))
     = "10.0.0.1") ∧
  err (RequisitionInterface.IsValid (sampleEnv true) (newInterface "not-an-ip"))
    = Some (CannotGetAddress "not-an-ip" (Some "lookup not-an-ip: no such host")).
Proof.
  assert (Hr : ∀ ip, ip ≠ "" → reaches_address_step (newInterface ip)).
  { intros ip Hne. split; [exact Hne|]. split; left; reflexivity. }
  split; [|split].
  - destruct (C2_address_resolution (sampleEnv false) (newInterface "not-an-ip") eq_refl)
      as (H & _).
    destruct (H eq_refl) as (_ & Hoff).
    rewrite Hoff; [reflexivity | apply Hr; discriminate].
  - destruct (C2_address_resolution (sampleEnv true) (newInterface "router.example.org")
                eq_refl)
      as (_ & H & _).
    destruct (H eq_refl "10.0.0.1" ["2001:db8::1"] eq_refl) as (Hip & _ & Hok);
      [apply Hr; discriminate|].
    split; [|exact Hip].
    apply Hok. repeat split; constructor.
  - destruct (C2_address_resolution (sampleEnv true) (newInterface "not-an-ip") eq_refl)
      as (_ & _ & H & _).
    destruct (H eq_refl [] (Some "lookup not-an-ip: no such host") eq_refl) as (_ & Hbad);
      [left; discriminate|].
    rewrite Hbad; [reflexivity | apply Hr; discriminate].
Defined.

(** ** C3 *)

(** C3.  [Requisition.IsValid] looks at the name first (empty, then
    forbidden characters).  It then validates the nodes in the order they
    are declared: the first node that fails ends the call, and its error
    is wrapped with the label of that node and the name of the
    requisition.  Only when every node has passed on its own are the
    foreign IDs compared: if some foreign ID occurs more than once the
    call fails with the duplicate error for such an ID, otherwise it
    succeeds.  A duplicate error is never returned while some node fails
    on its own. *)
Theorem C3_requisition_order {Time : Type} (env : Env) (r : Requisition.t Time) :
  (Requisition.Name r = "" → Requisition.IsValid env r = fail r RequisitionNameEmpty) ∧
  (has_forbidden (Requisition.Name r) →
   Requisition.IsValid env r = fail r (RequisitionNameInvalidChars (Requisition.Name r))) ∧
  (name_passes r →
     (∀ before n rest cause,
        Requisition.Nodes r = before ++ n :: rest →
        Forall (node_passes env) before →
        err (RequisitionNode.IsValid env n) = Some cause →
        err (Requisition.IsValid env r) =
          Some (ProblemOnNode
                  (RequisitionNode.NodeLabel (after (RequisitionNode.IsValid env n)))
                  (Requisition.Name r) cause)) ∧
     (Forall (node_passes env) (Requisition.Nodes r) →
        (¬ NoDup (foreign_ids r) →
           ∃ id, (1 < times id (foreign_ids r))%nat ∧
                 err (Requisition.IsValid env r) =
                   Some (DuplicateForeignID id (Requisition.Name r))) ∧
        (NoDup (foreign_ids r) → err (Requisition.IsValid env r) = None))) ∧
  (∀ id name, err (Requisition.IsValid env r) = Some (DuplicateForeignID id name) →
     name = Requisition.Name r ∧ name_passes r ∧
     Forall (node_passes env) (Requisition.Nodes r) ∧
     (1 < times id (foreign_ids r))%nat).
Proof.
  split; [|split; [|split]].
  - intros H. unfold Requisition.IsValid. rewrite decide_True by exact H. reflexivity.
  - intros H. pose proof (has_forbidden_nonempty _ H) as Hne.
    apply matchForbidden_true in H. unfold Requisition.IsValid.
    rewrite decide_False by exact Hne. rewrite H. reflexivity.
  - intros [Hne Hc]. apply matchForbidden_false in Hc.
    rewrite Requisition_IsValid_err, decide_False by exact Hne. rewrite Hc. simpl.
    split.
    + intros before n rest cause Hs Hb Hn. rewrite Hs.
      rewrite (IsValid_range_stops env _ before n rest cause ∅ Hb Hn). reflexivity.
    + intros Hall.
      pose proof (IsValid_range_passes env (Requisition.Name r) (Requisition.Nodes r) ∅)
        as (H1 & H2).
      simpl in H1, H2. rewrite (proj2 H1 Hall).
      rewrite (proj2 (H2 (proj2 H1 Hall))). fold (foreign_ids r). split.
      * intros Hd. destruct (firstRepeated_tally_dup env _ Hd) as (id & -> & Ht).
        exists id. split; [exact Ht | reflexivity].
      * intros Hd. apply (firstRepeated_tally_None env) in Hd. rewrite Hd. reflexivity.
  - intros id name. rewrite Requisition_IsValid_err.
    case_decide; [discriminate|].
    destruct (matchForbidden _) eqn:Hc; [discriminate|]. simpl.
    pose proof (IsValid_range_passes env (Requisition.Name r) (Requisition.Nodes r) ∅)
      as (H1 & H2).
    simpl in H1, H2.
    destruct (Requisition.stopped _) as [e|] eqn:S.
    + apply IsValid_range_stopped in S as (? & ? & ? & ? & _ & _ & _ & ->). discriminate.
    + rewrite (proj2 (H2 eq_refl)). fold (foreign_ids r).
      destruct (firstRepeated env _) as [k|] eqn:F; [|discriminate].
      intros [= -> <-]. repeat split.
      * assumption.
      * apply matchForbidden_false. exact Hc.
      * apply H1. reflexivity.
      * eapply firstRepeated_tally_Some; eassumption.
Qed.

Lemma C3_requisition_order_witness :
  (∃ id, err (Requisition.IsValid (sampleEnv true)
                (newRequisition "Test"
                   [newNode "n1" [newInterface "10.0.0.1"];
                    newNode "n1" [newInterface "10.0.0.2"]])) =
         Some (DuplicateForeignID id "Test")) ∧
  err (Requisition.IsValid (sampleEnv true)
         (newRequisition "Test"
            [newNode "n1" [newInterface "10.0.0.1"];
             newNode "n2" [newInterface "10.0.0.2"]])) = None ∧
  err (Requisition.IsValid (sampleEnv true)
         (newRequisition "Test"
            [newNode "n1" [newInterface "10.0.0.1"];
             newNode "n1" [newInterface ""]])) =
    Some (ProblemOnNode "n1" "Test" IPAddressEmpty).
Proof.
  assert (Hname : ∀ ns, name_passes (newRequisition "Test" ns)).
  { intros ns. split; [discriminate | apply matchForbidden_false; reflexivity]. }
  split; [|split].
  - destruct (C3_requisition_order (sampleEnv true)
                (newRequisition "Test"
                   [newNode "n1" [newInterface "10.0.0.1"];
                    newNode "n1" [newInterface "10.0.0.2"]])) as (_ & _ & H & _).
    destruct (H (Hname _)) as [_ H2].
    destruct H2 as [Hdup _]; [all_by_computation|].
    destruct Hdup as (id & _ & E).
    + apply not_NoDup_times. exists "n1". vm_compute. lia.
    + exists id. exact E.
  - destruct (C3_requisition_order (sampleEnv true)
                (newRequisition "Test"
                   [newNode "n1" [newInterface "10.0.0.1"];
                    newNode "n2" [newInterface "10.0.0.2"]])) as (_ & _ & H & _).
    destruct (H (Hname _)) as [_ H2].
    destruct H2 as [_ Hok]; [all_by_computation|].
    apply Hok. apply (bool_decide_unpack _). vm_compute. exact I.
  - destruct (C3_requisition_order (sampleEnv true)
                (newRequisition "Test"
                   [newNode "n1" [newInterface "10.0.0.1"];
                    newNode "n1" [newInterface ""]])) as (_ & _ & H & _).
    destruct (H (Hname _)) as [H1 _].
    apply (H1 [newNode "n1" [newInterface "10.0.0.1"]] (newNode "n1" [newInterface ""]) []);
      [reflexivity | all_by_computation | vm_compute; reflexivity].
Defined.

(** ** C4 *)

(** C4.  [RequisitionInterface.IsValid] runs its checks in a fixed order
    and returns the first failure: (1) an empty address fails at once, the
    interface untouched; (2) the status is defaulted from 0 to 1, and a
    status that is then neither 1 nor 3 fails; (3) the SNMP primary flag is
    defaulted from empty to N, and a flag that is then none of P, S, N
    fails; only when all three have passed does the call go on to address
    resolution, services and meta-data.  An outcome other than one of these
    three failures therefore means the three checks passed, and as long as
    one of them fails the resolver is not consulted: the outcome is the
    same in every environment. *)
Theorem C4_interface_check_order (env : Env) (i : RequisitionInterface.t) :
  let i1 := with_default_status i in
  let i2 := with_defaults i in
  let bad_status := RequisitionInterface.Status i1 ≠ 1 ∧ RequisitionInterface.Status i1 ≠ 3 in
  let bad_snmp :=
    RequisitionInterface.SnmpPrimary i2 ≠ "P" ∧ RequisitionInterface.SnmpPrimary i2 ≠ "S" ∧
    RequisitionInterface.SnmpPrimary i2 ≠ "N" in
  (* the two defaults *)
  (RequisitionInterface.Status i1 =
     (if decide (RequisitionInterface.Status i = 0) then 1 else RequisitionInterface.Status i) ∧
   RequisitionInterface.Status i2 = RequisitionInterface.Status i1 ∧
   RequisitionInterface.SnmpPrimary i2 =
     (if decide (RequisitionInterface.SnmpPrimary i = "") then "N"
      else RequisitionInterface.SnmpPrimary i)) ∧
  (* check 1 *)
  (RequisitionInterface.IPAddress i = "" →
   RequisitionInterface.IsValid env i = fail i IPAddressEmpty) ∧
  (* check 2 *)
  (RequisitionInterface.IPAddress i ≠ "" → bad_status →
   RequisitionInterface.IsValid env i =
     fail i1 (InvalidStatus (RequisitionInterface.IPAddress i) (RequisitionInterface.Status i1))) ∧
  (* check 3 *)
  (RequisitionInterface.IPAddress i ≠ "" → ¬ bad_status → bad_snmp →
   RequisitionInterface.IsValid env i =
     fail i2 (InvalidSnmpPrimary (RequisitionInterface.IPAddress i)
                                 (RequisitionInterface.SnmpPrimary i2))) ∧
  (* the rest, once all three have passed *)
  (RequisitionInterface.IPAddress i ≠ "" → ¬ bad_status → ¬ bad_snmp →
   RequisitionInterface.IsValid env i = after_field_checks env i2) ∧
  (* nothing else happens earlier *)
  (∀ e, err (RequisitionInterface.IsValid env i) = Some e → field_check_error e = false →
        RequisitionInterface.IPAddress i ≠ "" ∧ ¬ bad_status ∧ ¬ bad_snmp) ∧
  (err (RequisitionInterface.IsValid env i) = None →
        RequisitionInterface.IPAddress i ≠ "" ∧ ¬ bad_status ∧ ¬ bad_snmp) ∧
  (¬ (RequisitionInterface.IPAddress i ≠ "" ∧ ¬ bad_status ∧ ¬ bad_snmp) →
   ∀ env', RequisitionInterface.IsValid env' i = RequisitionInterface.IsValid env i).
Proof.
  intros i1 i2 bad_status bad_snmp.
  assert (Hip1 : RequisitionInterface.IPAddress i1 = RequisitionInterface.IPAddress i).
  { unfold i1, with_default_status.
    destruct (decide (RequisitionInterface.Status i = 0)); reflexivity. }
  destruct (with_defaults_fields i) as (Hip2 & _ & _ & Hst2 & Hp2). fold i2 in Hip2, Hst2, Hp2.
  assert (Hst1 : RequisitionInterface.Status i1 =
     (if decide (RequisitionInterface.Status i = 0) then 1 else RequisitionInterface.Status i)).
  { unfold i1, with_default_status.
    destruct (decide (RequisitionInterface.Status i = 0)); reflexivity. }
  assert (Hcases : ∀ env0, RequisitionInterface.IsValid env0 i =
    if decide (RequisitionInterface.IPAddress i = "") then fail i IPAddressEmpty
    else if decide bad_status
    then fail i1 (InvalidStatus (RequisitionInterface.IPAddress i) (RequisitionInterface.Status i1))
    else if decide bad_snmp
    then fail i2 (InvalidSnmpPrimary (RequisitionInterface.IPAddress i)
                                     (RequisitionInterface.SnmpPrimary i2))
    else after_field_checks env0 i2).
  { intros env0. rewrite Interface_IsValid_unfold. fold i1 i2. rewrite Hip1, Hip2. reflexivity. }
  split; [|split; [|split; [|split; [|split; [|split; [|split]]]]]].
  - repeat split; [exact Hst1 | congruence | exact Hp2].
  - intros H. rewrite Hcases. rewrite decide_True by exact H. reflexivity.
  - intros H Hb. rewrite Hcases. rewrite decide_False by exact H.
    rewrite decide_True by exact Hb. reflexivity.
  - intros H Hb Hs. rewrite Hcases. rewrite decide_False by exact H.
    rewrite decide_False by exact Hb. rewrite decide_True by exact Hs. reflexivity.
  - intros H Hb Hs. rewrite Hcases. rewrite decide_False by exact H.
    rewrite decide_False by exact Hb. rewrite decide_False by exact Hs. reflexivity.
  - clear Hst1 Hst2 Hp2. intros e. rewrite Hcases.
    repeat case_decide; simpl; try (intros [= <-]; discriminate).
    intros _ _. tauto.
  - clear Hst1 Hst2 Hp2. rewrite Hcases.
    repeat case_decide; simpl; try discriminate. intros _. tauto.
  - clear Hst1 Hst2 Hp2. intros H env'. rewrite !Hcases.
    repeat case_decide; try reflexivity. tauto.
Qed.

Lemma C4_interface_check_order_witness :
  err (RequisitionInterface.IsValid (sampleEnv true)
         (RequisitionInterface.mk "" "uplink" "X" 7 [] [])) = Some IPAddressEmpty ∧
  err (RequisitionInterface.IsValid (sampleEnv true)
         (RequisitionInterface.mk "10.0.0.1" "uplink" "X" 7 [] []))
    = Some (InvalidStatus "10.0.0.1" 7) ∧
  RequisitionInterface.IsValid (sampleEnv true)
         (RequisitionInterface.mk "10.0.0.1" "uplink" "X" 0 [] [])
    = fail (RequisitionInterface.mk "10.0.0.1" "uplink" "X" 1 [] [])
           (InvalidSnmpPrimary "10.0.0.1" "X") ∧
  RequisitionInterface.IsValid (sampleEnv true)
         (RequisitionInterface.mk "10.0.0.1" "uplink" "" 0 [] [])
    = pass (RequisitionInterface.mk "10.0.0.1" "uplink" "N" 1 [] []).
Proof.
  split; [|split; [|split]].
  - destruct (C4_interface_check_order (sampleEnv true)
                (RequisitionInterface.mk "" "uplink" "X" 7 [] [])) as (_ & H & _).
    rewrite H by reflexivity. reflexivity.
  - destruct (C4_interface_check_order (sampleEnv true)
                (RequisitionInterface.mk "10.0.0.1" "uplink" "X" 7 [] [])) as (_ & _ & H & _).
    rewrite H; [reflexivity | discriminate | simpl; lia].
  - destruct (C4_interface_check_order (sampleEnv true)
                (RequisitionInterface.mk "10.0.0.1" "uplink" "X" 0 [] []))
      as (_ & _ & _ & H & _).
    rewrite H; [reflexivity | discriminate | simpl; lia |].
    simpl. repeat split; discriminate.
  - destruct (C4_interface_check_order (sampleEnv true)
                (RequisitionInterface.mk "10.0.0.1" "uplink" "" 0 [] []))
      as (_ & _ & _ & _ & H & _).
    rewrite H; [reflexivity | discriminate | simpl; lia |].
    simpl. intros (_ & _ & ?). congruence.
Defined.

(** ** C5 *)

Lemma forbidden_listing_complete :
  Forall (λ c, c ∈ chars forbidden_listing) forbidden_chars.
Proof. repeat constructor; apply list_elem_of_In; vm_compute; tauto. Qed.

(** C5.  A name-like field that contains one of the eight forbidden
    characters makes the [IsValid] of its entity fail with the
    invalid-characters error of that field: service name, asset name,
    category name, node foreign ID, requisition name.  The text of each of
    these errors names the field, repeats the value, and ends with the
    listing of the forbidden set, in which every one of the eight
    characters occurs.  A field free of these characters never produces
    the invalid-characters error of that field. *)
Theorem C5_forbidden_characters (s : string) :
  (has_forbidden s →
     (∀ md, snd (RequisitionMonitoredService.IsValid (RequisitionMonitoredService.mk s md)) =
            Some (ServiceNameInvalidChars s)) ∧
     (∀ v, RequisitionAsset.IsValid (RequisitionAsset.mk s v) =
           Some (AssetNameInvalidChars s)) ∧
     RequisitionCategory.IsValid (RequisitionCategory.mk s) =
       Some (CategoryNameInvalidChars s) ∧
     (∀ env n, RequisitionNode.ForeignID n = s →
        RequisitionNode.IsValid env n = fail n (ForeignIDInvalidChars s)) ∧
     (∀ Time env (r : Requisition.t Time), Requisition.Name r = s →
        Requisition.IsValid env r = fail r (RequisitionNameInvalidChars s))) ∧
  (¬ has_forbidden s →
     (∀ md x, snd (RequisitionMonitoredService.IsValid (RequisitionMonitoredService.mk s md)) ≠
              Some (ServiceNameInvalidChars x)) ∧
     (∀ v x, RequisitionAsset.IsValid (RequisitionAsset.mk s v) ≠
             Some (AssetNameInvalidChars x)) ∧
     (∀ x, RequisitionCategory.IsValid (RequisitionCategory.mk s) ≠
           Some (CategoryNameInvalidChars x)) ∧
     (∀ env n x, RequisitionNode.ForeignID n = s →
        err (RequisitionNode.IsValid env n) ≠ Some (ForeignIDInvalidChars x)) ∧
     (∀ Time env (r : Requisition.t Time) x, Requisition.Name r = s →
        err (Requisition.IsValid env r) ≠ Some (RequisitionNameInvalidChars x))) ∧
  (Error_message (ServiceNameInvalidChars s) =
     "Invalid characters on service name " +:+ s +:+ forbidden_listing ∧
   Error_message (AssetNameInvalidChars s) =
     "Invalid characters on asset name " +:+ s +:+ forbidden_listing ∧
   Error_message (CategoryNameInvalidChars s) =
     "Invalid characters on category name " +:+ s +:+ forbidden_listing ∧
   Error_message (ForeignIDInvalidChars s) =
     "Invalid characters on Foreign ID " +:+ s +:+ forbidden_listing ∧
   Error_message (RequisitionNameInvalidChars s) =
     "Invalid characters on requisition name " +:+ s +:+ forbidden_listing ∧
   Forall (λ c, c ∈ chars forbidden_listing) forbidden_chars).
Proof.
  split; [|split].
  - intros Hf. pose proof (has_forbidden_nonempty s Hf) as Hne.
    apply matchForbidden_true in Hf. repeat split.
    + intros md. unfold RequisitionMonitoredService.IsValid. simpl.
      rewrite decide_False by exact Hne. rewrite Hf. reflexivity.
    + intros v. unfold RequisitionAsset.IsValid. simpl.
      rewrite decide_False by exact Hne. rewrite Hf. reflexivity.
    + unfold RequisitionCategory.IsValid. simpl.
      rewrite decide_False by exact Hne. rewrite Hf. reflexivity.
    + intros env n <-. unfold RequisitionNode.IsValid.
      rewrite decide_False by exact Hne. rewrite Hf. reflexivity.
    + intros Time env r <-. unfold Requisition.IsValid.
      rewrite decide_False by exact Hne. rewrite Hf. reflexivity.
  - intros Hf. apply matchForbidden_false in Hf. repeat split.
    + intros md x. rewrite Service_IsValid_err. simpl. rewrite Hf.
      case_decide; [discriminate|]. intros Hmd.
      apply rangePtr_MetaData_origin in Hmd. discriminate.
    + intros v x. unfold RequisitionAsset.IsValid. simpl. rewrite Hf.
      repeat case_decide; discriminate.
    + intros x. unfold RequisitionCategory.IsValid. simpl. rewrite Hf.
      case_decide; discriminate.
    + intros env n x <- H. apply matchForbidden_false in Hf.
      pose proof (Node_IsValid_result env n) as R. rewrite H in R.
      inversion R as [| Hbad | | | | before i rest e Hr Hs Hb Hi | | | e Hr Hall Hp Hd Ho | ];
        subst.
      * contradiction.
      * apply Interface_origin in Hi. simpl in Hi. destruct Hi as [?|[?|?]]; discriminate.
      * simpl in Ho. destruct Ho as [?|[?|?]]; discriminate.
    + intros Time env r x <-. rewrite Requisition_IsValid_err. rewrite Hf.
      case_decide; [discriminate|]. simpl.
      destruct (Requisition.stopped _) as [e|] eqn:S.
      * apply IsValid_range_stopped in S as (? & ? & ? & ? & _ & _ & _ & ->). discriminate.
      * destruct (firstRepeated env _); discriminate.
  - repeat split; try reflexivity. apply forbidden_listing_complete.
Qed.

Lemma C5_forbidden_characters_witness :
  RequisitionCategory.IsValid (RequisitionCategory.mk "routers/core") =
    Some (CategoryNameInvalidChars "routers/core") ∧
  err (RequisitionNode.IsValid (sampleEnv true) (newNode "what?" [])) =
    Some (ForeignIDInvalidChars "what?") ∧
  RequisitionCategory.IsValid (RequisitionCategory.mk "routers") ≠
    Some (CategoryNameInvalidChars "routers").
Proof.
  split; [|split].
  - destruct (C5_forbidden_characters "routers/core") as (H & _).
    apply H. apply matchForbidden_true. reflexivity.
  - destruct (C5_forbidden_characters "what?") as (H & _).
    destruct H as (_ & _ & _ & H & _); [apply matchForbidden_true; reflexivity|].
    rewrite (H (sampleEnv true) (newNode "what?" []) eq_refl). reflexivity.
  - destruct (C5_forbidden_characters "routers") as (_ & H & _).
    destruct H as (_ & _ & H & _); [apply matchForbidden_false; reflexivity|].
    apply H.
Defined.

(** ** C6 *)

(** C6, as stated, fails on two nodes that each carry two interfaces
    with the same address.  On the first both interfaces are flagged
    primary: the check on primary interfaces comes before the check on
    addresses, and its error is the one returned.  The second has no
    foreign ID: the error returned is the one of the foreign ID check. *)
Lemma C6_counterexample :
  (¬ NoDup (addresses
              (newNode "n1" [RequisitionInterface.mk "10.0.0.1" "" "P" 1 [] [];
                             RequisitionInterface.mk "10.0.0.1" "" "P" 1 [] []])) ∧
   Forall (interface_passes (sampleEnv true))
     [RequisitionInterface.mk "10.0.0.1" "" "P" 1 [] [];
      RequisitionInterface.mk "10.0.0.1" "" "P" 1 [] []] ∧
   err (RequisitionNode.IsValid (sampleEnv true)
          (newNode "n1" [RequisitionInterface.mk "10.0.0.1" "" "P" 1 [] [];
                         RequisitionInterface.mk "10.0.0.1" "" "P" 1 [] []]))
     = Some (ManyPrimaryInterfaces "n1")) ∧
  (¬ NoDup (addresses (newNode "" [newInterface "10.0.0.1"; newInterface "10.0.0.1"])) ∧
   Forall (interface_passes (sampleEnv true))
     [newInterface "10.0.0.1"; newInterface "10.0.0.1"] ∧
   err (RequisitionNode.IsValid (sampleEnv true)
          (newNode "" [newInterface "10.0.0.1"; newInterface "10.0.0.1"]))
     = Some ForeignIDEmpty).
Proof.
  assert (Hdup : ¬ NoDup ["10.0.0.1"; "10.0.0.1"]).
  { apply not_NoDup_times. exists "10.0.0.1". vm_compute. lia. }
  repeat split; try exact Hdup; try all_by_computation; vm_compute; reflexivity.
Qed.

(** C6, amended.  A node with two interfaces carrying the same address
    always fails.  When the checks on its own fields pass, every interface
    validates on its own and at most one interface is flagged primary, the
    failure is the duplicate-address error for an address that occurs more
    than once among the addresses as supplied, and it names the node by
    the label it carries after the label default.  Whenever the
    duplicate-address error is returned, every interface has validated on
    its own.  A node whose interfaces all carry distinct addresses never
    gets the duplicate-address error. *)
Theorem C6_duplicate_addresses (env : Env) (n : RequisitionNode.t) :
  (¬ NoDup (addresses n) → ∃ e, err (RequisitionNode.IsValid env n) = Some e) ∧
  (¬ NoDup (addresses n) → reaches_interfaces n →
   Forall (interface_passes env) (RequisitionNode.Interfaces n) →
   (primaries n ≤ 1)%nat →
     ∃ ip, (1 < times ip (addresses n))%nat ∧
       err (RequisitionNode.IsValid env n) = Some (IPAddressDefinedTwice ip (label_of n)) ∧
       RequisitionNode.NodeLabel (after (RequisitionNode.IsValid env n)) = label_of n ∧
       Error_message (IPAddressDefinedTwice ip (label_of n)) =
         "IP Address " +:+ ip +:+ " is defined more than once on node " +:+ label_of n) ∧
  (∀ ip label, err (RequisitionNode.IsValid env n) = Some (IPAddressDefinedTwice ip label) →
     Forall (interface_passes env) (RequisitionNode.Interfaces n) ∧
     reaches_interfaces n ∧ (primaries n ≤ 1)%nat ∧
     (1 < times ip (addresses n))%nat ∧ label = label_of n) ∧
  (NoDup (addresses n) →
   ∀ ip label, err (RequisitionNode.IsValid env n) ≠ Some (IPAddressDefinedTwice ip label)).
Proof.
  split; [|split; [|split]].
  - intros Hd. destruct (err (RequisitionNode.IsValid env n)) as [e|] eqn:E; [eauto|].
    apply Node_IsValid_passes in E. exfalso. destruct E as (_ & _ & _ & ? & _). tauto.
  - intros Hd Hr Hall Hp.
    destruct (Node_IsValid_repeated_address env n Hr Hall Hp Hd) as (ip & Ht & He).
    exists ip. repeat split; try assumption. apply Node_IsValid_label. apply Hr.
  - intros ip label He. apply Node_IsValid_repeated_address_inv in He. tauto.
  - intros Hd ip label He. apply Node_IsValid_repeated_address_inv in He.
    destruct He as (_ & _ & _ & Ht & _).
    pose proof (proj1 (NoDup_times _) Hd ip). lia.
Qed.

Lemma C6_duplicate_addresses_witness :
  err (RequisitionNode.IsValid (sampleEnv true)
         (newNode "n1" [newInterface "10.0.0.1"; newInterface "10.0.0.1"]))
    = Some (IPAddressDefinedTwice "10.0.0.1" "n1") ∧
  err (RequisitionNode.IsValid (sampleEnv true)
         (newNode "n1" [newInterface "10.0.0.1"; newInterface "10.0.0.2"]))
    ≠ Some (IPAddressDefinedTwice "10.0.0.1" "n1").
Proof.
  split.
  - destruct (C6_duplicate_addresses (sampleEnv true)
                (newNode "n1" [newInterface "10.0.0.1"; newInterface "10.0.0.1"]))
      as (_ & H & _).
    destruct H as (ip & Ht & He & _).
    + apply not_NoDup_times. exists "10.0.0.1". vm_compute. lia.
    + repeat split; try discriminate.
      * apply matchForbidden_false. reflexivity.
      * intros [Hpf _]. apply Hpf. reflexivity.
    + all_by_computation.
    + vm_compute. lia.
    + assert (ip = "10.0.0.1") as ->; [|exact He].
      change (1 < count_occ String.eq_dec ["10.0.0.1"; "10.0.0.1"] ip)%nat in Ht.
      destruct (decide (ip = "10.0.0.1")) as [E|E]; [exact E | exfalso].
      rewrite !count_occ_cons_neq in Ht by congruence. simpl in Ht. lia.
  - destruct (C6_duplicate_addresses (sampleEnv true)
                (newNode "n1" [newInterface "10.0.0.1"; newInterface "10.0.0.2"]))
      as (_ & _ & _ & H).
    apply H. apply (bool_decide_unpack _). vm_compute. exact I.
Defined.

(** ** C7 *)

(** C7, as stated, fails on two nodes that each carry two interfaces
    flagged primary.  The first has one interface without an address: the
    error returned is the one of that interface, and its text does not
    name the node, neither by label nor by foreign ID.  The second has no
    foreign ID: the error returned is the one of the foreign ID check, and
    its text does not mention the label of the node. *)
Lemma C7_counterexample :
  ((1 < primaries
          (RequisitionNode.mk "core" "n1" "" "" "" "" "" ""
             [RequisitionInterface.mk "" "" "P" 1 [] [];
              RequisitionInterface.mk "10.0.0.2" "" "P" 1 [] []] [] [] []))%nat ∧
   err (RequisitionNode.IsValid (sampleEnv true)
          (RequisitionNode.mk "core" "n1" "" "" "" "" "" ""
             [RequisitionInterface.mk "" "" "P" 1 [] [];
              RequisitionInterface.mk "10.0.0.2" "" "P" 1 [] []] [] [] []))
     = Some IPAddressEmpty ∧
   mentions "core" (Error_message IPAddressEmpty) = false ∧
   mentions "n1" (Error_message IPAddressEmpty) = false) ∧
  ((1 < primaries
          (RequisitionNode.mk "core" "" "" "" "" "" "" ""
             [RequisitionInterface.mk "10.0.0.1" "" "P" 1 [] [];
              RequisitionInterface.mk "10.0.0.2" "" "P" 1 [] []] [] [] []))%nat ∧
   err (RequisitionNode.IsValid (sampleEnv true)
          (RequisitionNode.mk "core" "" "" "" "" "" "" ""
             [RequisitionInterface.mk "10.0.0.1" "" "P" 1 [] [];
              RequisitionInterface.mk "10.0.0.2" "" "P" 1 [] []] [] [] []))
     = Some ForeignIDEmpty ∧
   mentions "core" (Error_message ForeignIDEmpty) = false).
Proof.
  repeat split; vm_compute; first [reflexivity | lia].
Qed.

(** C7, amended.  A node with two or more interfaces flagged primary
    always fails.  When the checks on its own fields pass and every
    interface validates on its own, the failure is the error for more than
    one primary interface, whose text names the node by the label it
    carries after the label default.  A node with at most one interface
    flagged primary never gets that error. *)
Theorem C7_primary_interfaces (env : Env) (n : RequisitionNode.t) :
  ((1 < primaries n)%nat → ∃ e, err (RequisitionNode.IsValid env n) = Some e) ∧
  ((1 < primaries n)%nat → reaches_interfaces n →
   Forall (interface_passes env) (RequisitionNode.Interfaces n) →
     err (RequisitionNode.IsValid env n) = Some (ManyPrimaryInterfaces (label_of n)) ∧
     RequisitionNode.NodeLabel (after (RequisitionNode.IsValid env n)) = label_of n ∧
     Error_message (ManyPrimaryInterfaces (label_of n)) =
       "Node " +:+ label_of n +:+ " cannot have more than one primary interface" ∧
     mentions (label_of n) (Error_message (ManyPrimaryInterfaces (label_of n))) = true) ∧
  ((primaries n ≤ 1)%nat →
   ∀ label, err (RequisitionNode.IsValid env n) ≠ Some (ManyPrimaryInterfaces label)).
Proof.
  split; [|split].
  - intros Hp. destruct (err (RequisitionNode.IsValid env n)) as [e|] eqn:E; [eauto|].
    apply Node_IsValid_passes in E. exfalso. destruct E as (_ & _ & ? & _). lia.
  - intros Hp Hr Hall. repeat split.
    + apply Node_IsValid_many_primaries; assumption.
    + apply Node_IsValid_label. apply Hr.
    + apply mentions_app.
  - intros Hp label He. apply Node_IsValid_many_primaries_inv in He. lia.
Qed.

Lemma C7_primary_interfaces_witness :
  err (RequisitionNode.IsValid (sampleEnv true)
         (newNode "n1" [RequisitionInterface.mk "10.0.0.1" "" "P" 1 [] [];
                        RequisitionInterface.mk "10.0.0.2" "" "P" 1 [] []]))
    = Some (ManyPrimaryInterfaces "n1") ∧
  err (RequisitionNode.IsValid (sampleEnv true)
         (newNode "n1" [RequisitionInterface.mk "10.0.0.1" "" "P" 1 [] [];
                        RequisitionInterface.mk "10.0.0.2" "" "S" 1 [] []]))
    ≠ Some (ManyPrimaryInterfaces "n1").
Proof.
  split.
  - destruct (C7_primary_interfaces (sampleEnv true)
                (newNode "n1" [RequisitionInterface.mk "10.0.0.1" "" "P" 1 [] [];
                               RequisitionInterface.mk "10.0.0.2" "" "P" 1 [] []]))
      as (_ & H & _).
    destruct H as (H & _).
    + vm_compute. lia.
    + repeat split; try discriminate.
      * apply matchForbidden_false. reflexivity.
      * intros [Hpf _]. apply Hpf. reflexivity.
    + all_by_computation.
    + exact H.
  - destruct (C7_primary_interfaces (sampleEnv true)
                (newNode "n1" [RequisitionInterface.mk "10.0.0.1" "" "P" 1 [] [];
                               RequisitionInterface.mk "10.0.0.2" "" "S" 1 [] []]))
      as (_ & _ & H).
    apply H. vm_compute. lia.
Defined.

(** ** C8 *)

(** C8, as stated, fails on two nodes.  The first has both parent fields
    set but no foreign ID: the foreign ID check comes first and its error
    is the one returned.  The second has a parent foreign ID equal to its
    own foreign ID and a parent label as well: the error is the one for
    both parent fields being set, not the one for a node being its own
    parent. *)
Lemma C8_counterexample :
  (both_parents (RequisitionNode.mk "core" "" "" "" "" "" "n7" "edge" [] [] [] []) ∧
   err (RequisitionNode.IsValid (sampleEnv true)
          (RequisitionNode.mk "core" "" "" "" "" "" "n7" "edge" [] [] [] []))
     = Some ForeignIDEmpty) ∧
  (RequisitionNode.ParentForeignID
     (RequisitionNode.mk "core" "n1" "" "" "" "" "n1" "edge" [] [] [] []) =
   RequisitionNode.ForeignID
     (RequisitionNode.mk "core" "n1" "" "" "" "" "n1" "edge" [] [] [] []) ∧
   err (RequisitionNode.IsValid (sampleEnv true)
          (RequisitionNode.mk "core" "n1" "" "" "" "" "n1" "edge" [] [] [] []))
     = Some (BothParents "core")).
Proof.
  repeat split; try discriminate; vm_compute; reflexivity.
Qed.

(** C8, amended.  A node with both parent fields set, or with a parent
    foreign ID equal to its own foreign ID, or with a parent label equal
    to its own label (after the label default), always fails.  When its
    foreign ID is present and free of forbidden characters, the failure
    is: the error for both parent fields when both are set; otherwise the
    own-parent error by label when the parent label equals the label;
    otherwise the own-parent error by foreign ID when the parent foreign
    ID equals the foreign ID.  In each case the node is left with its
    label defaulted and nothing else changed. *)
Theorem C8_parent_checks (env : Env) (n : RequisitionNode.t) :
  (both_parents n ∨
   RequisitionNode.ParentForeignID n = RequisitionNode.ForeignID n ∨
   RequisitionNode.ParentNodeLabel n = label_of n →
   ∃ e, err (RequisitionNode.IsValid env n) = Some e) ∧
  (foreignID_passes n →
     (both_parents n →
      RequisitionNode.IsValid env n = fail (with_default_label n) (BothParents (label_of n))) ∧
     (¬ both_parents n → RequisitionNode.ParentNodeLabel n = label_of n →
      RequisitionNode.IsValid env n = fail (with_default_label n) ParentIsSelfByLabel) ∧
     (¬ both_parents n →
      RequisitionNode.ParentForeignID n = RequisitionNode.ForeignID n →
      RequisitionNode.IsValid env n = fail (with_default_label n) ParentIsSelfByForeignID)).
Proof.
  split.
  - intros H. destruct (classic_reaches_interfaces n) as [R|R].
    + destruct R as (_ & Hb & Hl & Hp). tauto.
    + destruct (Node_IsValid_not_reached env n R) as (e & _ & He). eauto.
  - intros [Hf Hc]. pose proof Hc as Hm. apply matchForbidden_false in Hm.
    assert (Hcases : RequisitionNode.IsValid env n =
      if decide (both_parents n)
      then fail (with_default_label n) (BothParents (label_of n))
      else if decide (RequisitionNode.ParentNodeLabel n = label_of n)
      then fail (with_default_label n) ParentIsSelfByLabel
      else if decide (RequisitionNode.ParentForeignID n = RequisitionNode.ForeignID n)
      then fail (with_default_label n) ParentIsSelfByForeignID
      else andThen (RequisitionNode.validateInterfaces env (with_default_label n))
                   after_interfaces).
    { rewrite Node_IsValid_unfold. rewrite decide_False by exact Hf. rewrite Hm.
      destruct (with_default_label_fields n) as (-> & -> & -> & _). reflexivity. }
    rewrite Hcases. repeat split.
    + intros Hb. rewrite decide_True by exact Hb. reflexivity.
    + intros Hb Hl. rewrite decide_False by exact Hb. rewrite decide_True by exact Hl.
      reflexivity.
    + intros Hb Hp. rewrite decide_False by exact Hb.
      rewrite decide_False; [rewrite decide_True by exact Hp; reflexivity|].
      intros Hl. apply Hb. split; [congruence|].
      rewrite Hl. apply label_of_nonempty. exact Hf.
Qed.

Lemma C8_parent_checks_witness :
  err (RequisitionNode.IsValid (sampleEnv true)
         (RequisitionNode.mk "" "n1" "" "" "" "" "n7" "edge" [] [] [] []))
    = Some (BothParents "n1") ∧
  err (RequisitionNode.IsValid (sampleEnv true)
         (RequisitionNode.mk "" "n1" "" "" "" "" "" "n1" [] [] [] []))
    = Some ParentIsSelfByLabel ∧
  err (RequisitionNode.IsValid (sampleEnv true)
         (RequisitionNode.mk "core" "n1" "" "" "" "" "n1" "" [] [] [] []))
    = Some ParentIsSelfByForeignID.
Proof.
  assert (Hfid : ∀ l pf pl,
    foreignID_passes (RequisitionNode.mk l "n1" "" "" "" "" pf pl [] [] [] [])).
  { intros l pf pl. split; [discriminate | apply matchForbidden_false; reflexivity]. }
  split; [|split].
  - destruct (C8_parent_checks (sampleEnv true)
                (RequisitionNode.mk "" "n1" "" "" "" "" "n7" "edge" [] [] [] []))
      as (_ & H).
    destruct (H (Hfid _ _ _)) as (H1 & _).
    rewrite H1; [reflexivity | split; discriminate].
  - destruct (C8_parent_checks (sampleEnv true)
                (RequisitionNode.mk "" "n1" "" "" "" "" "" "n1" [] [] [] []))
      as (_ & H).
    destruct (H (Hfid _ _ _)) as (_ & H2 & _).
    rewrite H2; [reflexivity | intros [Hpf _]; apply Hpf; reflexivity | reflexivity].
  - destruct (C8_parent_checks (sampleEnv true)
                (RequisitionNode.mk "core" "n1" "" "" "" "" "n1" "" [] [] [] []))
      as (_ & H).
    destruct (H (Hfid _ _ _)) as (_ & _ & H3).
    rewrite H3; [reflexivity | intros [_ Hpl]; apply Hpl; reflexivity | reflexivity].
Defined.

(** ** C9 *)

Lemma times_pair (ip h1 h2 : string) :
  (1 < times ip [h1; h2])%nat → h1 = ip ∧ h2 = ip.
Proof.
  unfold times. simpl.
  destruct (String.eq_dec h1 ip); destruct (String.eq_dec h2 ip); intros; try lia.
  split; assumption.
Qed.

Lemma validateInterfaces_verdict (env : Env) (n : RequisitionNode.t) :
  Forall (interface_passes env) (RequisitionNode.Interfaces n) →
  (primaries n ≤ 1)%nat →
  (NoDup (addresses n) → err (RequisitionNode.validateInterfaces env n) = None) ∧
  (¬ NoDup (addresses n) →
     ∃ ip, (1 < times ip (addresses n))%nat ∧
       err (RequisitionNode.validateInterfaces env n) =
         Some (IPAddressDefinedTwice ip (RequisitionNode.NodeLabel n))).
Proof.
  intros Hall Hp. pose proof (validateInterfaces_cases env n) as V.
  destruct (err (RequisitionNode.validateInterfaces env n)) as [e|].
  - destruct V as [(before & i & rest & Hs & _ & Hi)|[(_ & ? & _)|(_ & _ & ip & Ht & ->)]].
    + destruct (stopped_interface_absurd _ _ _ _ _ _ Hs Hi Hall).
    + lia.
    + split.
      * intros Hd. pose proof (proj1 (NoDup_times _) Hd ip). lia.
      * intros _. exists ip. split; [exact Ht | reflexivity].
  - destruct V as (_ & _ & Hd). split; [reflexivity | contradiction].
Qed.

(** C9.  The loop of [validateInterfaces] counts each interface under the
    address it carries on entry, before that interface is validated, so
    the counters are those of the addresses as supplied and the rewriting
    of names into addresses does not reach them.  For a node whose
    interfaces all validate and of which at most one is primary, the
    duplicate check passes exactly when the supplied addresses are
    distinct, and otherwise reports a supplied address that occurs more
    than once.  In particular, for two interfaces whose supplied names
    both resolve to one and the same address, both interfaces end up
    carrying that address; two distinct names pass the duplicate check,
    while twice the same name is reported as a duplicate of that name (and
    not of the address it resolved to). *)
Theorem C9_duplicates_counted_before_resolution (env : Env) (n : RequisitionNode.t) :
  (Forall (interface_passes env) (RequisitionNode.Interfaces n) →
     RequisitionNode.intfMap
       (RequisitionNode.validateInterfaces_range env (RequisitionNode.Interfaces n) 0 ∅) =
     tally (addresses n) ∅) ∧
  (Forall (interface_passes env) (RequisitionNode.Interfaces n) → (primaries n ≤ 1)%nat →
     (NoDup (addresses n) → err (RequisitionNode.validateInterfaces env n) = None) ∧
     (¬ NoDup (addresses n) →
        ∃ ip, (1 < times ip (addresses n))%nat ∧
          err (RequisitionNode.validateInterfaces env n) =
            Some (IPAddressDefinedTwice ip (RequisitionNode.NodeLabel n)))) ∧
  (∀ x1 x2 a,
     RequisitionNode.Interfaces n = [x1; x2] →
     interface_passes env x1 → interface_passes env x2 → (primaries n ≤ 1)%nat →
     ParseIP env (RequisitionInterface.IPAddress x1) = false →
     ParseIP env (RequisitionInterface.IPAddress x2) = false →
     resolves_to env (RequisitionInterface.IPAddress x1) a →
     resolves_to env (RequisitionInterface.IPAddress x2) a →
       map RequisitionInterface.IPAddress
         (RequisitionNode.Interfaces (after (RequisitionNode.validateInterfaces env n))) =
         [a; a] ∧
       (RequisitionInterface.IPAddress x1 ≠ RequisitionInterface.IPAddress x2 →
          err (RequisitionNode.validateInterfaces env n) = None) ∧
       (RequisitionInterface.IPAddress x1 = RequisitionInterface.IPAddress x2 →
          err (RequisitionNode.validateInterfaces env n) =
            Some (IPAddressDefinedTwice (RequisitionInterface.IPAddress x1)
                                        (RequisitionNode.NodeLabel n)))).
Proof.
  pose proof (validateInterfaces_range_spec env (RequisitionNode.Interfaces n) 0 ∅)
    as (H1 & H2 & _).
  simpl in H1, H2.
  split; [|split].
  - intros Hall. apply H1 in Hall. apply H2 in Hall as (_ & -> & _). reflexivity.
  - apply validateInterfaces_verdict.
  - intros x1 x2 a Hs Hp1 Hp2 Hp Hl1 Hl2 Hr1 Hr2.
    assert (Hall : Forall (interface_passes env) (RequisitionNode.Interfaces n)).
    { rewrite Hs. repeat constructor; assumption. }
    destruct (validateInterfaces_verdict env n Hall Hp) as (Hok & Hdup).
    unfold addresses in Hok, Hdup. rewrite Hs in Hok, Hdup. simpl in Hok, Hdup.
    split; [|split].
    + destruct (validateInterfaces_after env n) as (_ & _ & _ & _ & _ & ->).
      apply H1 in Hall. apply H2 in Hall as (-> & _). rewrite Hs. simpl.
      rewrite (Interface_IsValid_resolved env x1 a), (Interface_IsValid_resolved env x2 a)
        by assumption.
      reflexivity.
    + intros Hne. apply Hok. apply NoDup_cons. split; [|apply NoDup_singleton].
      intros Hin. inversion Hin as [|? ? ? Hnil]; subst; [congruence | inversion Hnil].
    + intros Heq. destruct Hdup as (ip & Ht & ->).
      * rewrite Heq. intros Hd. inversion Hd as [|? ? Hin _]; subst. apply Hin. left.
      * apply times_pair in Ht as [-> _]. reflexivity.
Qed.

Lemma C9_duplicates_counted_before_resolution_witness :
  (err (RequisitionNode.validateInterfaces (sampleEnv true)
          (RequisitionNode.mk "core" "n1" "" "" "" "" "" ""
             [newInterface "router.example.org"; newInterface "gw.example.org"] [] [] []))
     = None ∧
   map RequisitionInterface.IPAddress
     (RequisitionNode.Interfaces
        (after (RequisitionNode.validateInterfaces (sampleEnv true)
           (RequisitionNode.mk "core" "n1" "" "" "" "" "" ""
              [newInterface "router.example.org"; newInterface "gw.example.org"] [] [] []))))
     = ["10.0.0.1"; "10.0.0.1"]) ∧
  err (RequisitionNode.validateInterfaces (sampleEnv true)
         (RequisitionNode.mk "core" "n1" "" "" "" "" "" ""
            [newInterface "gw.example.org"; newInterface "gw.example.org"] [] [] []))
    = Some (IPAddressDefinedTwice "gw.example.org" "core").
Proof.
  assert (Hrouter : interface_passes (sampleEnv true) (newInterface "router.example.org"))
    by (vm_compute; reflexivity).
  assert (Hgw : interface_passes (sampleEnv true) (newInterface "gw.example.org"))
    by (vm_compute; reflexivity).
  assert (Rrouter : resolves_to (sampleEnv true) "router.example.org" "10.0.0.1")
    by (exists ["2001:db8::1"]; reflexivity).
  assert (Rgw : resolves_to (sampleEnv true) "gw.example.org" "10.0.0.1")
    by (exists []; reflexivity).
  split.
  - destruct (C9_duplicates_counted_before_resolution (sampleEnv true)
                (RequisitionNode.mk "core" "n1" "" "" "" "" "" ""
                   [newInterface "router.example.org"; newInterface "gw.example.org"] [] [] []))
      as (_ & _ & H).
    destruct (H (newInterface "router.example.org") (newInterface "gw.example.org") "10.0.0.1"
                eq_refl Hrouter Hgw
                ltac:(vm_compute; lia)
                eq_refl eq_refl Rrouter Rgw)
      as (Hafter & Hok & _).
    split; [apply Hok; discriminate | exact Hafter].
  - destruct (C9_duplicates_counted_before_resolution (sampleEnv true)
                (RequisitionNode.mk "core" "n1" "" "" "" "" "" ""
                   [newInterface "gw.example.org"; newInterface "gw.example.org"] [] [] []))
      as (_ & _ & H).
    destruct (H (newInterface "gw.example.org") (newInterface "gw.example.org") "10.0.0.1"
                eq_refl Hgw Hgw
                ltac:(vm_compute; lia)
                eq_refl eq_refl Rgw Rgw)
      as (_ & _ & Hdup).
    apply Hdup. reflexivity.
Defined.

(** ** C10 *)

(** C10.  [RequisitionMetaData.IsValid] writes the context default before
    it looks at the key and the value.  For every entry whose context is
    empty and whose key or value is empty, the call returns an error (the
    key error when the key is empty, the value error otherwise) and still
    leaves the entry with the context set to the default, key and value
    untouched: the entry has changed although validation failed. *)
Theorem C10_metadata_default_survives_failure (m : RequisitionMetaData.t) :
  RequisitionMetaData.Context m = "" →
  RequisitionMetaData.Key m = "" ∨ RequisitionMetaData.Value m = "" →
  snd (RequisitionMetaData.IsValid m) =
    Some (if decide (RequisitionMetaData.Key m = "") then MetaDataKeyEmpty
          else MetaDataValueEmpty (RequisitionMetaData.Key m)) ∧
  RequisitionMetaData.Context (fst (RequisitionMetaData.IsValid m)) = "requisition" ∧
  RequisitionMetaData.Key (fst (RequisitionMetaData.IsValid m)) = RequisitionMetaData.Key m ∧
  RequisitionMetaData.Value (fst (RequisitionMetaData.IsValid m)) = RequisitionMetaData.Value m ∧
  fst (RequisitionMetaData.IsValid m) ≠ m.
Proof.
  intros Hc Hkv. rewrite MetaData_IsValid_err, MetaData_IsValid_after.
  unfold with_default_context.
  destruct m as [k v c]; simpl in *. subst c. simpl. repeat split.
  - destruct (decide (k = "")); [reflexivity|].
    destruct Hkv as [?|Hv]; [contradiction|]. rewrite decide_True by exact Hv. reflexivity.
  - discriminate.
Qed.

Lemma C10_metadata_default_survives_failure_witness :
  snd (RequisitionMetaData.IsValid (RequisitionMetaData.mk "location" "" "")) =
    Some (MetaDataValueEmpty "location") ∧
  RequisitionMetaData.Context
    (fst (RequisitionMetaData.IsValid (RequisitionMetaData.mk "location" "" ""))) =
    "requisition".
Proof.
  destruct (C10_metadata_default_survives_failure
              (RequisitionMetaData.mk "location" "" "") eq_refl (or_intror eq_refl))
    as (He & Hc & _).
  split; [exact He | exact Hc].
Defined.

(** * Further properties *)

(** ** When validation succeeds *)

Lemma service_passes_ok (s : RequisitionMonitoredService.t) :
  service_passes s ↔ service_ok s.
Proof.
  rewrite service_passes_iff. unfold service_ok, clean_name.
  rewrite (Forall_iff metaData_passes _ metaData_ok) by apply metaData_passes_iff. tauto.
Qed.

Lemma asset_passes_ok (a : RequisitionAsset.t) : asset_passes a ↔ asset_ok a.
Proof.
  unfold asset_passes, asset_ok, clean_name, RequisitionAsset.IsValid.
  rewrite <- matchForbidden_false.
  destruct (decide (RequisitionAsset.Name a = "")); [split; [discriminate | tauto]|].
  destruct (matchForbidden _); [split; [discriminate | intros [[_ ?] _]; discriminate]|].
  destruct (decide (RequisitionAsset.Value a = "")); [split; [discriminate | tauto]|].
  tauto.
Qed.

Lemma category_passes_ok (c : RequisitionCategory.t) : category_passes c ↔ category_ok c.
Proof.
  unfold category_passes, category_ok, clean_name, RequisitionCategory.IsValid.
  rewrite <- matchForbidden_false.
  destruct (decide (RequisitionCategory.Name c = "")); [split; [discriminate | tauto]|].
  destruct (matchForbidden _); [split; [discriminate | intros [_ ?]; discriminate]|].
  tauto.
Qed.

Lemma interface_passes_ok (env : Env) (i : RequisitionInterface.t) :
  interface_passes env i ↔ interface_ok env i.
Proof.
  rewrite interface_passes_iff. unfold interface_ok, reaches_address_step.
  rewrite (Forall_iff service_passes _ service_ok) by apply service_passes_ok.
  rewrite (Forall_iff metaData_passes _ metaData_ok) by apply metaData_passes_iff. tauto.
Qed.

Lemma node_passes_ok (env : Env) (n : RequisitionNode.t) :
  node_passes env n ↔ node_ok env n.
Proof.
  rewrite Node_IsValid_passes.
  unfold node_ok, reaches_interfaces, foreignID_passes, clean_name.
  rewrite (Forall_iff (interface_passes env) _ (interface_ok env))
    by apply interface_passes_ok.
  rewrite (Forall_iff category_passes _ category_ok) by apply category_passes_ok.
  rewrite (Forall_iff asset_passes _ asset_ok) by apply asset_passes_ok.
  rewrite (Forall_iff metaData_passes _ metaData_ok) by apply metaData_passes_iff. tauto.
Qed.

Lemma requisition_passes_ok {Time : Type} (env : Env) (r : Requisition.t Time) :
  err (Requisition.IsValid env r) = None ↔ requisition_ok env r.
Proof.
  rewrite Requisition_IsValid_passes. unfold requisition_ok, name_passes, clean_name.
  rewrite (Forall_iff (node_passes env) _ (node_ok env)) by apply node_passes_ok. tauto.
Qed.

(** X1.  [RequisitionInterface.IsValid] returns no error exactly when the
    address is not empty, the status is 0, 1 or 3, the primary flag is
    empty, P, S or N, the address is a literal one or resolves while
    resolution is allowed, every service has a name that is not empty and
    free of forbidden characters and only meta-data with a key and a
    value, no two services share a name, and every meta-data entry of the
    interface has a key and a value. *)
Theorem interface_valid_iff (env : Env) (i : RequisitionInterface.t) :
  err (RequisitionInterface.IsValid env i) = None ↔ interface_ok env i.
Proof. apply interface_passes_ok. Qed.

Lemma interface_valid_iff_witness :
  err (RequisitionInterface.IsValid (sampleEnv true)
         (RequisitionInterface.mk "gw.example.org" "uplink" "P" 3
            [RequisitionMonitoredService.mk "ICMP" [];
             RequisitionMonitoredService.mk "SNMP" [RequisitionMetaData.mk "port" "161" ""]]
            [RequisitionMetaData.mk "rack" "12" "site"])) = None.
Proof.
  apply interface_valid_iff. unfold interface_ok. simpl.
  split; [discriminate|]. split; [right; right; reflexivity|].
  split; [right; left; reflexivity|].
  split; [right; split; [reflexivity | exists "10.0.0.1", []; reflexivity]|].
  split.
  { repeat constructor; try discriminate; apply matchForbidden_false; reflexivity. }
  split; [apply (bool_decide_unpack _); vm_compute; exact I|].
  repeat constructor; discriminate.
Defined.

(** X2.  [RequisitionNode.IsValid] returns no error exactly when the
    foreign ID is not empty and free of forbidden characters, at most one
    parent field is set, the node is not its own parent by label or by
    foreign ID, every interface is valid on its own, at most one interface
    is flagged primary, no two interfaces carry the same address as
    supplied, every category has a clean name, every asset a clean name
    and a value, and every meta-data entry a key and a value. *)
Theorem node_valid_iff (env : Env) (n : RequisitionNode.t) :
  err (RequisitionNode.IsValid env n) = None ↔ node_ok env n.
Proof. apply node_passes_ok. Qed.

(** X3.  [Requisition.IsValid] returns no error exactly when the name is
    not empty and free of forbidden characters, every node is valid on its
    own and no two nodes share a foreign ID. *)
Theorem requisition_valid_iff {Time : Type} (env : Env) (r : Requisition.t Time) :
  err (Requisition.IsValid env r) = None ↔ requisition_ok env r.
Proof. apply requisition_passes_ok. Qed.

(** ** Services of an interface *)

Lemma validateServices_range_stops (before : list RequisitionMonitoredService.t)
    (s : RequisitionMonitoredService.t) (rest : list RequisitionMonitoredService.t)
    (e : Error) (m : gmap string Z) :
  Forall service_passes before →
  snd (RequisitionMonitoredService.IsValid s) = Some e →
  (RequisitionInterface.validateServices_range (before ++ s :: rest) m).2 = Some e.
Proof.
  intros Hb Hs. revert m. induction Hb as [|x before Hx Hb IH]; intros m; simpl.
  - destruct (RequisitionMonitoredService.IsValid s) as [s' e']; simpl in *. subst.
    reflexivity.
  - unfold service_passes in Hx.
    destruct (RequisitionMonitoredService.IsValid x) as [x' e']; simpl in *. subst.
    specialize (IH (incr (RequisitionMonitoredService.Name x') m)).
    destruct (RequisitionInterface.validateServices_range _ _) as [[r1 r2] r3]; simpl in *.
    exact IH.
Qed.

(** X4.  [validateServices] validates the services in order and returns
    the error of the first one that fails.  When every service passes on
    its own, it succeeds if the names are distinct, leaving each service
    with the contexts of its meta-data defaulted; if some name occurs more
    than once it fails with the error for a service defined twice, which
    carries such a name and the address of the interface. *)
Theorem validateServices_duplicates (env : Env) (i : RequisitionInterface.t) :
  (∀ before s rest e,
     RequisitionInterface.Services i = before ++ s :: rest →
     Forall service_passes before →
     snd (RequisitionMonitoredService.IsValid s) = Some e →
     err (RequisitionInterface.validateServices env i) = Some e) ∧
  (Forall service_passes (RequisitionInterface.Services i) →
     (NoDup (map RequisitionMonitoredService.Name (RequisitionInterface.Services i)) →
      RequisitionInterface.validateServices env i =
        pass (RequisitionInterface.set_Services
                (map normalized_service (RequisitionInterface.Services i)) i)) ∧
     (¬ NoDup (map RequisitionMonitoredService.Name (RequisitionInterface.Services i)) →
      ∃ name,
        (1 < times name (map RequisitionMonitoredService.Name
                           (RequisitionInterface.Services i)))%nat ∧
        err (RequisitionInterface.validateServices env i) =
          Some (ServiceDefinedTwice name (RequisitionInterface.IPAddress i)))).
Proof.
  split.
  - intros before s rest e Hs Hb He.
    pose proof (validateServices_range_stops before s rest e ∅ Hb He) as H.
    unfold RequisitionInterface.validateServices. rewrite Hs.
    destruct (RequisitionInterface.validateServices_range _ _) as [[r1 r2] r3]; simpl in *.
    subst. reflexivity.
  - intros Hall. split.
    + intros Hd. apply validateServices_pass. apply validateServices_err. tauto.
    + intros Hd.
      destruct (err (RequisitionInterface.validateServices env i)) as [e|] eqn:E.
      * apply validateServices_error_shape in E as [(s & Hin & Hs)|(_ & name & -> & Ht)].
        -- exfalso. rewrite Forall_forall in Hall. specialize (Hall s Hin).
           unfold service_passes in Hall. congruence.
        -- exists name. split; [exact Ht | reflexivity].
      * apply validateServices_err in E. tauto.
Qed.

Lemma validateServices_duplicates_witness :
  err (RequisitionInterface.validateServices (sampleEnv true)
         (RequisitionInterface.mk "10.0.0.1" "" "N" 1
            [RequisitionMonitoredService.mk "ICMP" [];
             RequisitionMonitoredService.mk "" [];
             RequisitionMonitoredService.mk "ICMP" []] [])) = Some ServiceNameEmpty ∧
  (∃ name,
     err (RequisitionInterface.validateServices (sampleEnv true)
            (RequisitionInterface.mk "10.0.0.1" "" "N" 1
               [RequisitionMonitoredService.mk "ICMP" [];
                RequisitionMonitoredService.mk "SNMP" [];
                RequisitionMonitoredService.mk "ICMP" []] [])) =
       Some (ServiceDefinedTwice name "10.0.0.1")).
Proof.
  split.
  - destruct (validateServices_duplicates (sampleEnv true)
                (RequisitionInterface.mk "10.0.0.1" "" "N" 1
                   [RequisitionMonitoredService.mk "ICMP" [];
                    RequisitionMonitoredService.mk "" [];
                    RequisitionMonitoredService.mk "ICMP" []] [])) as (H & _).
    apply (H [RequisitionMonitoredService.mk "ICMP" []]
             (RequisitionMonitoredService.mk "" [])
             [RequisitionMonitoredService.mk "ICMP" []]);
      [reflexivity | all_by_computation | reflexivity].
  - destruct (validateServices_duplicates (sampleEnv true)
                (RequisitionInterface.mk "10.0.0.1" "" "N" 1
                   [RequisitionMonitoredService.mk "ICMP" [];
                    RequisitionMonitoredService.mk "SNMP" [];
                    RequisitionMonitoredService.mk "ICMP" []] [])) as (_ & H).
    destruct H as (_ & H); [all_by_computation|].
    destruct H as (name & _ & E).
    + apply not_NoDup_times. exists "ICMP". vm_compute. lia.
    + exists name. exact E.
Defined.

(** X5.  When an interface reaches the services with an address that was
    a name, the error for a service defined twice carries the address the
    name resolved to, not the name as supplied: for an interface that
    passes the field checks, whose address is accepted and whose services
    pass on their own but repeat a name, [IsValid] fails with that error
    and the resolved address. *)
Theorem duplicate_service_reported_on_resolved_address (env : Env)
    (i : RequisitionInterface.t) :
  reaches_address_step i →
  address_accepted env (RequisitionInterface.IPAddress i) →
  Forall service_passes (RequisitionInterface.Services i) →
  ¬ NoDup (map RequisitionMonitoredService.Name (RequisitionInterface.Services i)) →
  ∃ name,
    (1 < times name (map RequisitionMonitoredService.Name
                       (RequisitionInterface.Services i)))%nat ∧
    err (RequisitionInterface.IsValid env i) =
      Some (ServiceDefinedTwice name
              (resolved_address env (RequisitionInterface.IPAddress i))).
Proof.
  intros Hr Ha Hall Hd. rewrite Interface_IsValid_reached by exact Hr.
  destruct (with_defaults_fields i) as (Hip & Hss & _).
  unfold after_field_checks. rewrite err_andThen.
  assert (E1 : err (RequisitionInterface.validateIP env (with_defaults i)) = None).
  { apply validateIP_err_None. rewrite Hip. exact Ha. }
  rewrite E1, err_andThen. rewrite (validateIP_pass env _ E1), Hip.
  set (j := RequisitionInterface.set_IPAddress _ _).
  assert (Hsj : RequisitionInterface.Services j = RequisitionInterface.Services i)
    by exact Hss.
  destruct (err (RequisitionInterface.validateServices env j)) as [e|] eqn:E.
  - apply validateServices_error_shape in E as [(s & Hin & Hs)|(_ & name & -> & Ht)].
    + exfalso. rewrite Hsj in Hin. rewrite Forall_forall in Hall. specialize (Hall s Hin).
      unfold service_passes in Hall. congruence.
    + rewrite Hsj in Ht. exists name. split; [exact Ht | reflexivity].
  - apply validateServices_err in E. rewrite Hsj in E. tauto.
Qed.

Lemma duplicate_service_reported_on_resolved_address_witness :
  ∃ name,
    err (RequisitionInterface.IsValid (sampleEnv true)
           (RequisitionInterface.mk "gw.example.org" "" "" 0
              [RequisitionMonitoredService.mk "ICMP" [];
               RequisitionMonitoredService.mk "ICMP" []] [])) =
      Some (ServiceDefinedTwice name "10.0.0.1").
Proof.
  destruct (duplicate_service_reported_on_resolved_address (sampleEnv true)
              (RequisitionInterface.mk "gw.example.org" "" "" 0
                 [RequisitionMonitoredService.mk "ICMP" [];
                  RequisitionMonitoredService.mk "ICMP" []] [])) as (name & _ & E).
  - split; [discriminate|]. split; left; reflexivity.
  - right. split; [reflexivity | exists "10.0.0.1", []; reflexivity].
  - all_by_computation.
  - apply not_NoDup_times. exists "ICMP". vm_compute. lia.
  - exists name. exact E.
Defined.

(** ** The tree after a successful validation *)

Lemma with_default_context_nonempty (m : RequisitionMetaData.t) :
  RequisitionMetaData.Context (with_default_context m) ≠ "".
Proof.
  unfold with_default_context.
  destruct (decide (RequisitionMetaData.Context m = "")); [discriminate | assumption].
Qed.

(** X6.  After a successful [Requisition.IsValid] the requisition holds
    the same nodes in the same order, each with its label defaulted to the
    foreign ID, each interface with status, primary flag and address
    settled, and each meta-data entry of a service or of the node with its
    context defaulted.  In the tree left behind no node has an empty
    label, every interface has status 1 or 3 and a primary flag P, S or N,
    and no meta-data entry of a service or of a node has an empty
    context. *)
Theorem valid_requisition_is_normalized {Time : Type} (env : Env) (r : Requisition.t Time) :
  err (Requisition.IsValid env r) = None →
  after (Requisition.IsValid env r) =
    Requisition.set_Nodes (map (normalized_node env) (Requisition.Nodes r)) r ∧
  Forall
    (λ n,
       RequisitionNode.NodeLabel n ≠ "" ∧
       Forall (λ m, RequisitionMetaData.Context m ≠ "") (RequisitionNode.MetaData n) ∧
       Forall
         (λ i,
            (RequisitionInterface.Status i = 1 ∨ RequisitionInterface.Status i = 3) ∧
            (RequisitionInterface.SnmpPrimary i = "P" ∨
             RequisitionInterface.SnmpPrimary i = "S" ∨
             RequisitionInterface.SnmpPrimary i = "N") ∧
            Forall
              (λ s, Forall (λ m, RequisitionMetaData.Context m ≠ "")
                           (RequisitionMonitoredService.MetaData s))
              (RequisitionInterface.Services i))
         (RequisitionNode.Interfaces n))
    (Requisition.Nodes (after (Requisition.IsValid env r))).
Proof.
  intros He. rewrite (Requisition_IsValid_pass env r He). split; [reflexivity|]. simpl.
  apply requisition_passes_ok in He as (_ & Hall & _).
  apply List.Forall_map. eapply Forall_impl; [exact Hall|].
  intros n ((Hf & _) & _ & _ & _ & Hi & _). simpl. split; [|split].
  - apply label_of_nonempty. exact Hf.
  - apply List.Forall_map. apply Forall_forall. intros m _.
    apply with_default_context_nonempty.
  - apply List.Forall_map. eapply Forall_impl; [exact Hi|].
    intros i (_ & Hst & Hsn & _). simpl. split; [|split].
    + destruct Hst as [-> | [-> | ->]]; simpl; auto.
    + destruct Hsn as [-> | [-> | [-> | ->]]]; simpl; auto.
    + apply List.Forall_map. apply Forall_forall. intros s _. simpl.
      apply List.Forall_map. apply Forall_forall. intros m _.
      apply with_default_context_nonempty.
Qed.

Lemma valid_requisition_is_normalized_witness :
  after (Requisition.IsValid (sampleEnv true)
           (newRequisition "Test"
              [newNode "n1" [newInterface "gw.example.org"];
               RequisitionNode.AddMetaData "rack" "12" (newNode "n2" [])])) =
    newRequisition "Test"
      [RequisitionNode.mk "n1" "n1" "" "" "" "" "" ""
         [RequisitionInterface.mk "10.0.0.1" "" "N" 1 [] []] [] [] [];
       RequisitionNode.mk "n2" "n2" "" "" "" "" "" "" [] [] []
         [RequisitionMetaData.mk "rack" "12" "requisition"]].
Proof.
  destruct (valid_requisition_is_normalized (sampleEnv true)
              (newRequisition "Test"
                 [newNode "n1" [newInterface "gw.example.org"];
                  RequisitionNode.AddMetaData "rack" "12" (newNode "n2" [])])) as (H & _).
  - vm_compute. reflexivity.
  - rewrite H. vm_compute. reflexivity.
Defined.

(** ** The tree after a failed validation *)

Lemma IsValid_range_nodes_stop (env : Env) (name : string)
    (before : list RequisitionNode.t) (n : RequisitionNode.t)
    (rest : list RequisitionNode.t) (e : Error) (m : gmap string Z) :
  Forall (node_passes env) before →
  err (RequisitionNode.IsValid env n) = Some e →
  Requisition.nodes (Requisition.IsValid_range env name (before ++ n :: rest) m) =
    map (normalized_node env) before ++ after (RequisitionNode.IsValid env n) :: rest.
Proof.
  intros Hb Hn. revert m. induction Hb as [|x before Hx Hb IH]; intros m; simpl.
  - rewrite Hn. reflexivity.
  - pose proof (Node_IsValid_pass env x Hx) as Hxn. unfold node_passes in Hx.
    rewrite Hx. simpl. rewrite IH, Hxn. reflexivity.
Qed.

Lemma validateInterfaces_range_stop (env : Env)
    (before : list RequisitionInterface.t) (i : RequisitionInterface.t)
    (rest : list RequisitionInterface.t) (e : Error) (pc : Z) (m : gmap string Z) :
  Forall (interface_passes env) before →
  err (RequisitionInterface.IsValid env i) = Some e →
  let r := RequisitionNode.validateInterfaces_range env (before ++ i :: rest) pc m in
  RequisitionNode.stopped r = Some e ∧
  RequisitionNode.intfs r =
    map (normalized_interface env) before ++ after (RequisitionInterface.IsValid env i) :: rest.
Proof.
  intros Hb Hi. revert pc m. induction Hb as [|x before Hx Hb IH]; intros pc m; simpl.
  - rewrite Hi. simpl. split; reflexivity.
  - pose proof (Interface_IsValid_pass env x Hx) as Hxn. unfold interface_passes in Hx.
    rewrite Hx. simpl.
    match goal with |- context [RequisitionNode.validateInterfaces_range env _ ?p ?q] =>
      destruct (IH p q) as (IH1 & IH2) end.
    rewrite IH1, IH2, Hxn. split; reflexivity.
Qed.

(** X7.  A failed validation is not undone.  When the node at some
    position of a requisition with a clean name fails and the nodes before
    it pass, the call returns with the nodes before it normalized, the
    failing node as its own validation left it, and the nodes after it
    untouched.  In the same way, when an interface of a node that passes
    its own field checks fails and the interfaces before it pass, the
    interfaces before it are left normalized, the label of the node
    defaulted, and the interfaces after it untouched. *)
Theorem failed_validation_keeps_its_writes (env : Env) :
  (∀ Time (r : Requisition.t Time) before n rest e,
     name_passes r →
     Requisition.Nodes r = before ++ n :: rest →
     Forall (node_passes env) before →
     err (RequisitionNode.IsValid env n) = Some e →
     after (Requisition.IsValid env r) =
       Requisition.set_Nodes
         (map (normalized_node env) before ++ after (RequisitionNode.IsValid env n) :: rest)
         r) ∧
  (∀ n before i rest e,
     reaches_interfaces n →
     RequisitionNode.Interfaces n = before ++ i :: rest →
     Forall (interface_passes env) before →
     err (RequisitionInterface.IsValid env i) = Some e →
     err (RequisitionNode.IsValid env n) = Some e ∧
     after (RequisitionNode.IsValid env n) =
       RequisitionNode.set_Interfaces
         (map (normalized_interface env) before ++
          after (RequisitionInterface.IsValid env i) :: rest)
         (with_default_label n)).
Proof.
  split.
  - intros Time r before n rest e [Hne Hc] Hs Hb Hn. apply matchForbidden_false in Hc.
    unfold Requisition.IsValid. rewrite decide_False by exact Hne. rewrite Hc. simpl.
    rewrite Hs, (IsValid_range_stops env _ before n rest e ∅ Hb Hn).
    rewrite (IsValid_range_nodes_stop env _ before n rest e ∅ Hb Hn). reflexivity.
  - intros n before i rest e Hr Hs Hb Hi.
    rewrite Node_IsValid_reached by exact Hr.
    destruct (with_default_label_fields n) as (_ & _ & _ & HI & _).
    unfold RequisitionNode.validateInterfaces. rewrite HI, Hs.
    destruct (validateInterfaces_range_stop env before i rest e 0 ∅ Hb Hi) as (-> & ->).
    split; reflexivity.
Qed.

Lemma failed_validation_keeps_its_writes_witness :
  after (Requisition.IsValid (sampleEnv true)
           (newRequisition "Test"
              [newNode "n1" [newInterface "10.0.0.1"];
               newNode "n2" [newInterface "10.0.0.2"; newInterface ""];
               newNode "n3" [newInterface "10.0.0.10"]])) =
    newRequisition "Test"
      [RequisitionNode.mk "n1" "n1" "" "" "" "" "" ""
         [RequisitionInterface.mk "10.0.0.1" "" "N" 1 [] []] [] [] [];
       RequisitionNode.mk "n2" "n2" "" "" "" "" "" ""
         [RequisitionInterface.mk "10.0.0.2" "" "N" 1 [] []; newInterface ""] [] [] [];
       newNode "n3" [newInterface "10.0.0.10"]].
Proof.
  destruct (failed_validation_keeps_its_writes (sampleEnv true)) as (H & _).
  rewrite (H unit _ [newNode "n1" [newInterface "10.0.0.1"]]
             (newNode "n2" [newInterface "10.0.0.2"; newInterface ""])
             [newNode "n3" [newInterface "10.0.0.10"]] IPAddressEmpty).
  - vm_compute. reflexivity.
  - split; [discriminate | apply matchForbidden_false; reflexivity].
  - reflexivity.
  - all_by_computation.
  - vm_compute. reflexivity.
Defined.

(** ** What validation never writes *)

Lemma Forall2_refl {A} (R : A → A → Prop) (l : list A) :
  (∀ x, R x x) → Forall2 R l l.
Proof. intros H. induction l; constructor; auto. Qed.

Lemma rangePtr_kept {A} (R : A → A → Prop) (f : A → A * option Error) (xs : list A) :
  (∀ x, R x x) → (∀ x, R x (fst (f x))) → Forall2 R xs (fst (rangePtr f xs)).
Proof.
  intros Hrefl Hf. induction xs as [|x xs IH]; simpl; [constructor|].
  pose proof (Hf x) as Hx.
  destruct (f x) as [x' [e|]]; simpl in *.
  - constructor; [exact Hx | apply Forall2_refl; exact Hrefl].
  - destruct (rangePtr f xs) as [rest' e']; simpl in *. constructor; assumption.
Qed.

Lemma entry_kept_refl (m : RequisitionMetaData.t) : entry_kept m m.
Proof. unfold entry_kept. auto. Qed.

Lemma MetaData_IsValid_kept (m : RequisitionMetaData.t) :
  entry_kept m (fst (RequisitionMetaData.IsValid m)).
Proof.
  rewrite MetaData_IsValid_after. unfold with_default_context, entry_kept.
  destruct (decide (RequisitionMetaData.Context m = "")); simpl; auto.
Qed.

Lemma service_kept_refl (s : RequisitionMonitoredService.t) : service_kept s s.
Proof. split; [reflexivity | apply Forall2_refl, entry_kept_refl]. Qed.

Lemma Service_IsValid_kept (s : RequisitionMonitoredService.t) :
  service_kept s (fst (RequisitionMonitoredService.IsValid s)).
Proof.
  unfold RequisitionMonitoredService.IsValid.
  destruct (decide (RequisitionMonitoredService.Name s = "")); [apply service_kept_refl|].
  destruct (matchForbidden _); [apply service_kept_refl|].
  pose proof (rangePtr_kept entry_kept RequisitionMetaData.IsValid
                (RequisitionMonitoredService.MetaData s) entry_kept_refl MetaData_IsValid_kept)
    as H.
  destruct (rangePtr _ _) as [md e]; simpl in *. split; [reflexivity | exact H].
Qed.

Lemma validateServices_range_kept (ss : list RequisitionMonitoredService.t)
    (m : gmap string Z) :
  Forall2 service_kept ss (RequisitionInterface.validateServices_range ss m).1.1.
Proof.
  revert m. induction ss as [|s ss IH]; intros m; simpl; [constructor|].
  pose proof (Service_IsValid_kept s) as Hs.
  destruct (RequisitionMonitoredService.IsValid s) as [s' [e|]]; simpl in *.
  - constructor; [exact Hs | apply Forall2_refl, service_kept_refl].
  - specialize (IH (incr (RequisitionMonitoredService.Name s') m)).
    destruct (RequisitionInterface.validateServices_range ss _) as [[r1 r2] r3]; simpl in *.
    constructor; assumption.
Qed.

Lemma interface_kept_refl (env : Env) (i : RequisitionInterface.t) : interface_kept env i i.
Proof.
  unfold interface_kept. repeat split; auto. apply Forall2_refl, service_kept_refl.
Qed.

Lemma validateServices_kept (env : Env) (i : RequisitionInterface.t) :
  let i' := after (RequisitionInterface.validateServices env i) in
  RequisitionInterface.Description i' = RequisitionInterface.Description i ∧
  Forall2 service_kept (RequisitionInterface.Services i) (RequisitionInterface.Services i').
Proof.
  unfold RequisitionInterface.validateServices.
  pose proof (validateServices_range_kept (RequisitionInterface.Services i) ∅) as H.
  destruct (RequisitionInterface.validateServices_range _ _) as [[ss m] e]; simpl in *.
  destruct e; [|destruct (firstRepeated env m)]; simpl; split; auto.
Qed.

Lemma validateIP_kept (env : Env) (i : RequisitionInterface.t) :
  let i' := after (RequisitionInterface.validateIP env i) in
  RequisitionInterface.Description i' = RequisitionInterface.Description i ∧
  (RequisitionInterface.IPAddress i' = RequisitionInterface.IPAddress i ∨
   (ParseIP env (RequisitionInterface.IPAddress i) = false ∧
    AllowFqdnOnRequisitionedInterfaces env = true ∧
    resolves_to env (RequisitionInterface.IPAddress i) (RequisitionInterface.IPAddress i'))).
Proof.
  unfold RequisitionInterface.validateIP, resolves_to.
  destruct (ParseIP env _) eqn:P; [simpl; auto|].
  destruct (AllowFqdnOnRequisitionedInterfaces env) eqn:Al; [|simpl; auto].
  destruct (LookupIP env _) as [addresses [msg|]] eqn:L; [simpl; auto|].
  destruct addresses as [|first others]; simpl; [auto|].
  split; [reflexivity|]. right. repeat split. exists others. reflexivity.
Qed.

Lemma Interface_IsValid_kept (env : Env) (i : RequisitionInterface.t) :
  interface_kept env i (after (RequisitionInterface.IsValid env i)).
Proof.
  assert (Hd : interface_kept env i (with_defaults i)).
  { rewrite with_defaults_eq. unfold interface_kept. simpl.
    repeat split; auto; try (case_decide; auto).
    apply Forall2_refl, service_kept_refl. }
  assert (Hd1 : interface_kept env i (with_default_status i)).
  { unfold with_default_status, interface_kept.
    destruct (decide (RequisitionInterface.Status i = 0)); simpl; repeat split; auto;
      apply Forall2_refl, service_kept_refl. }
  rewrite Interface_IsValid_unfold.
  destruct (decide (RequisitionInterface.IPAddress i = "")); [apply interface_kept_refl|].
  destruct (decide (_ ∧ _)); [exact Hd1|].
  destruct (decide (_ ∧ _)); [exact Hd|].
  set (j := with_defaults i) in *.
  destruct Hd as (HD & HM & _ & HS & HP & _).
  assert (Hipj : RequisitionInterface.IPAddress j = RequisitionInterface.IPAddress i).
  { unfold j. apply with_defaults_fields. }
  assert (Hssj : RequisitionInterface.Services j = RequisitionInterface.Services i).
  { unfold j. apply with_defaults_fields. }
  destruct (after_field_checks_after env j) as (Hip & Hst & Hsn & Hmd).
  destruct (validateIP_kept env j) as (HD1 & HIP1).
  destruct (validateIP_after env j) as (_ & _ & Hss1 & _).
  destruct (validateServices_kept env (after (RequisitionInterface.validateIP env j)))
    as (HD2 & HSS2).
  unfold interface_kept. rewrite Hip, Hst, Hsn, Hmd, <- Hipj.
  split; [|split; [exact HM|split; [exact HIP1|split; [exact HS|split; [exact HP|]]]]].
  - unfold after_field_checks. rewrite after_andThen.
    destruct (err (RequisitionInterface.validateIP env j)); [congruence|].
    rewrite after_andThen.
    destruct (err (RequisitionInterface.validateServices env _)); [congruence|].
    destruct (rangeCopy _ _); simpl; congruence.
  - rewrite <- Hssj. unfold after_field_checks. rewrite after_andThen.
    destruct (err (RequisitionInterface.validateIP env j));
      [rewrite Hss1; apply Forall2_refl, service_kept_refl|].
    rewrite after_andThen. rewrite <- Hss1.
    destruct (err (RequisitionInterface.validateServices env _)); [exact HSS2|].
    destruct (rangeCopy _ _); simpl; exact HSS2.
Qed.

Lemma validateInterfaces_range_kept (env : Env) (ifaces : list RequisitionInterface.t)
    (pc : Z) (m : gmap string Z) :
  Forall2 (interface_kept env) ifaces
    (RequisitionNode.intfs (RequisitionNode.validateInterfaces_range env ifaces pc m)).
Proof.
  revert pc m. induction ifaces as [|i ifaces IH]; intros pc m; simpl; [constructor|].
  pose proof (Interface_IsValid_kept env i) as Hi.
  destruct (err (RequisitionInterface.IsValid env i)); simpl.
  - constructor; [exact Hi | apply Forall2_refl, interface_kept_refl].
  - constructor; [exact Hi | apply IH].
Qed.

Lemma node_kept_refl (env : Env) (n : RequisitionNode.t) : node_kept env n n.
Proof.
  unfold node_kept. repeat split; auto.
  - apply Forall2_refl, interface_kept_refl.
  - apply Forall2_refl, entry_kept_refl.
Qed.

Lemma Node_IsValid_kept (env : Env) (n : RequisitionNode.t) :
  node_kept env n (after (RequisitionNode.IsValid env n)).
Proof.
  assert (Hd : node_kept env n (with_default_label n)).
  { unfold with_default_label, node_kept.
    destruct (decide (RequisitionNode.NodeLabel n = "")); simpl; repeat split; auto;
      first [apply Forall2_refl, interface_kept_refl | apply Forall2_refl, entry_kept_refl]. }
  rewrite Node_IsValid_unfold.
  destruct (decide (RequisitionNode.ForeignID n = "")); [apply node_kept_refl|].
  destruct (matchForbidden _); [apply node_kept_refl|].
  destruct (decide (_ ∧ _)); [exact Hd|].
  destruct (decide (_ = label_of n)); [exact Hd|].
  destruct (decide (_ = _)); [exact Hd|].
  set (j := with_default_label n) in *.
  assert (Hv : node_kept env n (after (RequisitionNode.validateInterfaces env j))).
  { destruct Hd as (H1 & H2 & H3 & H4 & H5 & H6 & H7 & H8 & H9 & H10 & _ & H12).
    assert (HI : RequisitionNode.Interfaces j = RequisitionNode.Interfaces n).
    { unfold j. apply with_default_label_fields. }
    pose proof (validateInterfaces_range_kept env (RequisitionNode.Interfaces j) 0 ∅) as HK.
    rewrite HI in HK at 1.
    unfold RequisitionNode.validateInterfaces.
    destruct (RequisitionNode.stopped _);
      [|destruct (decide (_ > 1)); [|destruct (firstRepeated env _)]];
      simpl; unfold node_kept; simpl; repeat split; assumption. }
  rewrite after_andThen.
  destruct (err (RequisitionNode.validateInterfaces env j)); [exact Hv|].
  set (k := after (RequisitionNode.validateInterfaces env j)) in *.
  unfold after_interfaces.
  destruct (rangeVal RequisitionCategory.IsValid _); [exact Hv|].
  destruct (rangeVal RequisitionAsset.IsValid _); [exact Hv|].
  pose proof (rangePtr_kept entry_kept RequisitionMetaData.IsValid
                (RequisitionNode.MetaData k) entry_kept_refl MetaData_IsValid_kept) as HM.
  destruct (rangePtr _ _) as [md e]; simpl in *.
  destruct Hv as (H1 & H2 & H3 & H4 & H5 & H6 & H7 & H8 & H9 & H10 & H11 & H12).
  unfold node_kept. simpl. repeat split; try assumption.
  clear - H12 HM. revert md HM.
  induction H12 as [|a b l l' Hab Hl IH]; intros md HM; inversion HM; subst; constructor.
  - destruct Hab as (K1 & V1 & C1). match goal with H : entry_kept b _ |- _ =>
      destruct H as (K2 & V2 & C2) end.
    unfold entry_kept. split; [congruence|]. split; [congruence|].
    destruct C1 as [C1|[C1 C1']]; destruct C2 as [C2|[C2 C2']]; try (left; congruence).
    + right. split; congruence.
    + right. split; congruence.
  - apply IH. assumption.
Qed.

Lemma IsValid_range_kept (env : Env) (name : string) (ns : list RequisitionNode.t)
    (m : gmap string Z) :
  Forall2 (node_kept env) ns (Requisition.nodes (Requisition.IsValid_range env name ns m)).
Proof.
  revert m. induction ns as [|n ns IH]; intros m; simpl; [constructor|].
  pose proof (Node_IsValid_kept env n) as Hn.
  destruct (err (RequisitionNode.IsValid env n)); simpl.
  - constructor; [exact Hn | apply Forall2_refl, node_kept_refl].
  - constructor; [exact Hn | apply IH].
Qed.

(** X8.  Whether it succeeds or fails, [Requisition.IsValid] leaves the
    requisition with the same name and time stamps and with the same
    nodes, interfaces, services and meta-data entries, in the same number
    and order.  All it may have written is: the label of a node, from
    empty to the foreign ID; the status of an interface, from 0 to 1; its
    primary flag, from empty to N; its address, from a name to the first
    address the name resolves to (only when resolution is allowed); and
    the context of a meta-data entry of a service or of a node, from empty
    to the default.  Foreign IDs, parent fields, locations, categories,
    assets, descriptions, service names, meta-data keys and values, and
    the meta-data of the interfaces are as supplied. *)
Theorem validation_writes_defaults_only {Time : Type} (env : Env) (r : Requisition.t Time) :
  requisition_kept env r (after (Requisition.IsValid env r)).
Proof.
  unfold Requisition.IsValid, requisition_kept.
  destruct (decide (Requisition.Name r = ""));
    [simpl; repeat split; apply Forall2_refl, node_kept_refl|].
  destruct (matchForbidden _); [simpl; repeat split; apply Forall2_refl, node_kept_refl|].
  pose proof (IsValid_range_kept env (Requisition.Name r) (Requisition.Nodes r) ∅) as H.
  simpl. destruct (Requisition.stopped _); [|destruct (firstRepeated env _)];
    simpl; repeat split; exact H.
Qed.

(** ** What validation prints *)

Lemma stdout_andThen {T} (o : Outcome T) (k : T → Outcome T) :
  stdout (andThen o k) =
    match err o with Some _ => stdout o | None => stdout o ++ stdout (k (after o)) end.
Proof. unfold andThen. destruct (err o); reflexivity. Qed.

Lemma validateServices_stdout (env : Env) (i : RequisitionInterface.t) :
  stdout (RequisitionInterface.validateServices env i) = [].
Proof.
  unfold RequisitionInterface.validateServices.
  destruct (RequisitionInterface.validateServices_range _ _) as [[ss m] e].
  destruct e; [|destruct (firstRepeated env m)]; reflexivity.
Qed.

Lemma after_field_checks_stdout (env : Env) (j : RequisitionInterface.t) :
  stdout (after_field_checks env j) = stdout (RequisitionInterface.validateIP env j).
Proof.
  unfold after_field_checks. rewrite stdout_andThen.
  destruct (err (RequisitionInterface.validateIP env j)); [reflexivity|].
  rewrite stdout_andThen, validateServices_stdout.
  destruct (err (RequisitionInterface.validateServices env _)); [apply app_nil_r|].
  destruct (rangeCopy _ _); simpl; apply app_nil_r.
Qed.

Lemma Interface_IsValid_stdout (env : Env) (i : RequisitionInterface.t) :
  stdout (RequisitionInterface.IsValid env i) = [] ∨
  stdout (RequisitionInterface.IsValid env i) =
    stdout (RequisitionInterface.validateIP env (with_defaults i)).
Proof.
  rewrite Interface_IsValid_unfold.
  destruct (decide (RequisitionInterface.IPAddress i = "")); [left; reflexivity|].
  destruct (decide (_ ∧ _)); [left; reflexivity|].
  destruct (decide (_ ∧ _)); [left; reflexivity|].
  right. apply after_field_checks_stdout.
Qed.

Lemma validateIP_stdout_pass (env : Env) (i j : RequisitionInterface.t) :
  RequisitionInterface.IPAddress j = RequisitionInterface.IPAddress i →
  err (RequisitionInterface.validateIP env j) = None →
  stdout (RequisitionInterface.validateIP env j) = interface_lines env i.
Proof.
  intros H. unfold RequisitionInterface.validateIP, interface_lines, resolved_address.
  rewrite <- H. clear H.
  destruct (ParseIP env _); [reflexivity|].
  destruct (AllowFqdnOnRequisitionedInterfaces env); [|discriminate].
  destruct (LookupIP env _) as [[|first others] [msg|]]; simpl; try discriminate.
  reflexivity.
Qed.

Lemma validateIP_stdout_silent (env : Env) (j : RequisitionInterface.t) :
  AllowFqdnOnRequisitionedInterfaces env = false ∨
  ParseIP env (RequisitionInterface.IPAddress j) = true →
  stdout (RequisitionInterface.validateIP env j) = [].
Proof.
  unfold RequisitionInterface.validateIP. intros [H|H]; rewrite H.
  - destruct (ParseIP env _); reflexivity.
  - reflexivity.
Qed.

Lemma Interface_IsValid_stdout_pass (env : Env) (i : RequisitionInterface.t) :
  interface_passes env i →
  stdout (RequisitionInterface.IsValid env i) = interface_lines env i.
Proof.
  intros Hp. pose proof Hp as Hq. apply interface_passes_iff in Hq as (Hr & _).
  unfold interface_passes in Hp. rewrite Interface_IsValid_reached in * by exact Hr.
  rewrite after_field_checks_stdout. apply validateIP_stdout_pass.
  - apply with_defaults_fields.
  - unfold after_field_checks in Hp. rewrite err_andThen in Hp.
    destruct (err (RequisitionInterface.validateIP env _)); [discriminate | reflexivity].
Qed.

Lemma Interface_IsValid_stdout_silent (env : Env) (i : RequisitionInterface.t) :
  AllowFqdnOnRequisitionedInterfaces env = false ∨
  ParseIP env (RequisitionInterface.IPAddress i) = true →
  stdout (RequisitionInterface.IsValid env i) = [].
Proof.
  intros H. destruct (Interface_IsValid_stdout env i) as [E|E]; [exact E|].
  rewrite E. apply validateIP_stdout_silent.
  destruct (with_defaults_fields i) as (-> & _). exact H.
Qed.

Lemma validateInterfaces_range_printed_pass (env : Env)
    (ifaces : list RequisitionInterface.t) (pc : Z) (m : gmap string Z) :
  Forall (interface_passes env) ifaces →
  RequisitionNode.printed (RequisitionNode.validateInterfaces_range env ifaces pc m) =
    flat_map (interface_lines env) ifaces.
Proof.
  intros H. revert pc m. induction H as [|i ifaces Hi _ IH]; intros pc m; simpl;
    [reflexivity|].
  pose proof (Interface_IsValid_stdout_pass env i Hi) as Hs.
  unfold interface_passes in Hi. rewrite Hi. simpl. rewrite Hs, IH. reflexivity.
Qed.

Lemma validateInterfaces_range_printed_silent (env : Env)
    (ifaces : list RequisitionInterface.t) (pc : Z) (m : gmap string Z) :
  AllowFqdnOnRequisitionedInterfaces env = false ∨
  Forall (λ i, ParseIP env (RequisitionInterface.IPAddress i) = true) ifaces →
  RequisitionNode.printed (RequisitionNode.validateInterfaces_range env ifaces pc m) = [].
Proof.
  intros H. revert pc m. induction ifaces as [|i ifaces IH]; intros pc m; simpl;
    [reflexivity|].
  assert (Hi : stdout (RequisitionInterface.IsValid env i) = []).
  { apply Interface_IsValid_stdout_silent. destruct H as [H|H]; [left; exact H|].
    right. inversion H; assumption. }
  assert (Hrest : AllowFqdnOnRequisitionedInterfaces env = false ∨
                  Forall (λ i, ParseIP env (RequisitionInterface.IPAddress i) = true) ifaces).
  { destruct H as [H|H]; [left; exact H | right; inversion H; assumption]. }
  destruct (err (RequisitionInterface.IsValid env i)); simpl; rewrite Hi; [reflexivity|].
  simpl. apply IH. exact Hrest.
Qed.

Lemma validateInterfaces_stdout (env : Env) (n : RequisitionNode.t) :
  stdout (RequisitionNode.validateInterfaces env n) =
    RequisitionNode.printed
      (RequisitionNode.validateInterfaces_range env (RequisitionNode.Interfaces n) 0 ∅).
Proof.
  unfold RequisitionNode.validateInterfaces.
  destruct (RequisitionNode.stopped _);
    [|destruct (decide (_ > 1)); [|destruct (firstRepeated env _)]]; reflexivity.
Qed.

Lemma after_interfaces_stdout (n : RequisitionNode.t) : stdout (after_interfaces n) = [].
Proof.
  unfold after_interfaces.
  destruct (rangeVal RequisitionCategory.IsValid _); [reflexivity|].
  destruct (rangeVal RequisitionAsset.IsValid _); [reflexivity|].
  destruct (rangePtr _ _); reflexivity.
Qed.

Lemma Node_IsValid_stdout (env : Env) (n : RequisitionNode.t) :
  stdout (RequisitionNode.IsValid env n) = [] ∨
  stdout (RequisitionNode.IsValid env n) =
    RequisitionNode.printed
      (RequisitionNode.validateInterfaces_range env (RequisitionNode.Interfaces n) 0 ∅).
Proof.
  rewrite Node_IsValid_unfold.
  destruct (decide (RequisitionNode.ForeignID n = "")); [left; reflexivity|].
  destruct (matchForbidden _); [left; reflexivity|].
  destruct (decide (_ ∧ _)); [left; reflexivity|].
  destruct (decide (_ = label_of n)); [left; reflexivity|].
  destruct (decide (_ = _)); [left; reflexivity|].
  right. rewrite stdout_andThen, after_interfaces_stdout, app_nil_r, validateInterfaces_stdout.
  assert (HI : RequisitionNode.Interfaces (with_default_label n) = RequisitionNode.Interfaces n)
    by apply with_default_label_fields.
  rewrite HI. destruct (err _); reflexivity.
Qed.

Lemma Node_IsValid_stdout_pass (env : Env) (n : RequisitionNode.t) :
  node_passes env n → stdout (RequisitionNode.IsValid env n) = node_lines env n.
Proof.
  intros Hp. pose proof Hp as Hq. apply Node_IsValid_passes in Hq as (Hr & Hall & _).
  rewrite (Node_IsValid_reached env n Hr).
  rewrite stdout_andThen, after_interfaces_stdout, app_nil_r, validateInterfaces_stdout.
  assert (HI : RequisitionNode.Interfaces (with_default_label n) = RequisitionNode.Interfaces n)
    by apply with_default_label_fields.
  rewrite HI, (validateInterfaces_range_printed_pass env _ 0 ∅ Hall).
  destruct (err _); reflexivity.
Qed.

Lemma Node_IsValid_stdout_silent (env : Env) (n : RequisitionNode.t) :
  AllowFqdnOnRequisitionedInterfaces env = false ∨
  Forall (λ i, ParseIP env (RequisitionInterface.IPAddress i) = true)
         (RequisitionNode.Interfaces n) →
  stdout (RequisitionNode.IsValid env n) = [].
Proof.
  intros H. destruct (Node_IsValid_stdout env n) as [E|E]; [exact E|].
  rewrite E. apply validateInterfaces_range_printed_silent. exact H.
Qed.

Lemma IsValid_range_printed_pass (env : Env) (name : string) (ns : list RequisitionNode.t)
    (m : gmap string Z) :
  Forall (node_passes env) ns →
  Requisition.printed (Requisition.IsValid_range env name ns m) = flat_map (node_lines env) ns.
Proof.
  intros H. revert m. induction H as [|n ns Hn _ IH]; intros m; simpl; [reflexivity|].
  pose proof (Node_IsValid_stdout_pass env n Hn) as Hs.
  unfold node_passes in Hn. rewrite Hn. simpl. rewrite Hs, IH. reflexivity.
Qed.

Lemma IsValid_range_printed_silent (env : Env) (name : string) (ns : list RequisitionNode.t)
    (m : gmap string Z) :
  AllowFqdnOnRequisitionedInterfaces env = false ∨
  Forall (λ n, Forall (λ i, ParseIP env (RequisitionInterface.IPAddress i) = true)
                      (RequisitionNode.Interfaces n)) ns →
  Requisition.printed (Requisition.IsValid_range env name ns m) = [].
Proof.
  intros H. revert m. induction ns as [|n ns IH]; intros m; simpl; [reflexivity|].
  assert (Hn : stdout (RequisitionNode.IsValid env n) = []).
  { apply Node_IsValid_stdout_silent. destruct H as [H|H]; [left; exact H|].
    right. inversion H; assumption. }
  destruct (err (RequisitionNode.IsValid env n)); simpl; rewrite Hn; [reflexivity|].
  simpl. apply IH. destruct H as [H|H]; [left; exact H | right; inversion H; assumption].
Qed.

Lemma Requisition_IsValid_stdout {Time : Type} (env : Env) (r : Requisition.t Time) :
  stdout (Requisition.IsValid env r) = [] ∨
  stdout (Requisition.IsValid env r) =
    Requisition.printed
      (Requisition.IsValid_range env (Requisition.Name r) (Requisition.Nodes r) ∅).
Proof.
  unfold Requisition.IsValid.
  destruct (decide (Requisition.Name r = "")); [left; reflexivity|].
  destruct (matchForbidden _); [left; reflexivity|].
  right. simpl. destruct (Requisition.stopped _); [|destruct (firstRepeated env _)];
    reflexivity.
Qed.

Lemma interfaces_kept_addresses (env : Env) (l l' : list RequisitionInterface.t) :
  Forall2 (interface_kept env) l l' →
  AllowFqdnOnRequisitionedInterfaces env = false ∨
  Forall (λ i, ParseIP env (RequisitionInterface.IPAddress i) = true) l →
  map RequisitionInterface.IPAddress l' = map RequisitionInterface.IPAddress l.
Proof.
  induction 1 as [|i i' l l' Hi _ IH]; intros H; simpl; [reflexivity|].
  f_equal.
  - destruct Hi as (_ & _ & [Hip|(Hp & Ha & _)] & _); [exact Hip|].
    destruct H as [H|H]; [congruence|]. inversion H; congruence.
  - apply IH. destruct H as [H|H]; [left; exact H | right; inversion H; assumption].
Qed.

(** X9.  When [Requisition.IsValid] returns no error, what it has printed
    is exactly one line, name translates to address, for each interface
    whose address as supplied is not a literal one, in the order of the
    nodes and of their interfaces; the address in the line is the first
    one the name resolves to. *)
Theorem valid_requisition_prints_translations {Time : Type} (env : Env)
    (r : Requisition.t Time) :
  err (Requisition.IsValid env r) = None →
  stdout (Requisition.IsValid env r) = requisition_lines env r.
Proof.
  intros He. apply Requisition_IsValid_passes in He as ((Hn & Hf) & Hall & _).
  apply matchForbidden_false in Hf.
  unfold Requisition.IsValid. rewrite decide_False by exact Hn. rewrite Hf. simpl.
  pose proof (IsValid_range_printed_pass env (Requisition.Name r) _ ∅ Hall) as Hp.
  destruct (Requisition.stopped _); [|destruct (firstRepeated env _)]; exact Hp.
Qed.

Lemma valid_requisition_prints_translations_witness :
  stdout (Requisition.IsValid (sampleEnv true)
            (newRequisition "Test"
               [newNode "n1" [newInterface "gw.example.org"; newInterface "10.0.0.10"];
                newNode "n2" [newInterface "switch.example.org"]])) =
    [RequisitionInterface.translates_line "gw.example.org" "10.0.0.1";
     RequisitionInterface.translates_line "switch.example.org" "10.0.0.2"].
Proof.
  rewrite (valid_requisition_prints_translations (sampleEnv true)
             (newRequisition "Test"
                [newNode "n1" [newInterface "gw.example.org"; newInterface "10.0.0.10"];
                 newNode "n2" [newInterface "switch.example.org"]])).
  - vm_compute. reflexivity.
  - vm_compute. reflexivity.
Defined.

(** X10.  When resolution of names is switched off, or when every
    interface carries a literal address, [Requisition.IsValid] prints
    nothing and leaves every address as supplied, whether it succeeds or
    fails. *)
Theorem validation_without_resolution_is_silent {Time : Type} (env : Env)
    (r : Requisition.t Time) :
  AllowFqdnOnRequisitionedInterfaces env = false ∨ all_literal env r →
  stdout (Requisition.IsValid env r) = [] ∧
  map addresses (Requisition.Nodes (after (Requisition.IsValid env r))) =
    map addresses (Requisition.Nodes r).
Proof.
  intros H. split.
  - destruct (Requisition_IsValid_stdout env r) as [E|E]; [exact E|].
    rewrite E. apply IsValid_range_printed_silent. exact H.
  - assert (K : Forall2 (node_kept env) (Requisition.Nodes r)
                  (Requisition.Nodes (after (Requisition.IsValid env r)))).
    { unfold Requisition.IsValid.
      destruct (decide (Requisition.Name r = ""));
        [simpl; apply Forall2_refl, node_kept_refl|].
      destruct (matchForbidden _); [simpl; apply Forall2_refl, node_kept_refl|].
      pose proof (IsValid_range_kept env (Requisition.Name r) (Requisition.Nodes r) ∅) as K.
      simpl. destruct (Requisition.stopped _); [|destruct (firstRepeated env _)]; exact K. }
    unfold all_literal in H. revert H.
    induction K as [|n n' l l' Hn _ IH]; intros H; simpl; [reflexivity|]. f_equal.
    + destruct Hn as (_ & _ & _ & _ & _ & _ & _ & _ & _ & _ & Hi & _).
      unfold addresses. apply (interfaces_kept_addresses env _ _ Hi).
      destruct H as [H|H]; [left; exact H | right; inversion H; assumption].
    + apply IH. destruct H as [H|H]; [left; exact H | right; inversion H; assumption].
Qed.

Lemma validation_without_resolution_is_silent_witness :
  stdout (Requisition.IsValid (sampleEnv false)
            (newRequisition "Test"
               [newNode "n1" [newInterface "10.0.0.1"; newInterface "gw.example.org"]])) = [] ∧
  map addresses
      (Requisition.Nodes
         (after (Requisition.IsValid (sampleEnv false)
                   (newRequisition "Test"
                      [newNode "n1" [newInterface "10.0.0.1";
                                     newInterface "gw.example.org"]])))) =
    [["10.0.0.1"; "gw.example.org"]].
Proof.
  apply (validation_without_resolution_is_silent (sampleEnv false)
           (newRequisition "Test"
              [newNode "n1" [newInterface "10.0.0.1"; newInterface "gw.example.org"]])).
  left. reflexivity.
Defined.

(** ** Validating a second time *)

Lemma with_default_context_idem (m : RequisitionMetaData.t) :
  with_default_context (with_default_context m) = with_default_context m.
Proof.
  unfold with_default_context.
  destruct (decide (RequisitionMetaData.Context m = "")) as [E|E]; simpl.
  - reflexivity.
  - rewrite decide_False by exact E. reflexivity.
Qed.

Lemma with_default_context_ok (m : RequisitionMetaData.t) :
  metaData_ok m → metaData_ok (with_default_context m).
Proof.
  unfold with_default_context, metaData_ok.
  destruct (decide (RequisitionMetaData.Context m = "")); simpl; tauto.
Qed.

Lemma normalized_service_idem (s : RequisitionMonitoredService.t) :
  normalized_service (normalized_service s) = normalized_service s.
Proof.
  unfold normalized_service, RequisitionMonitoredService.set_MetaData. simpl.
  f_equal. rewrite map_map. apply map_ext. intros m. apply with_default_context_idem.
Qed.

Lemma normalized_service_ok (s : RequisitionMonitoredService.t) :
  service_ok s → service_ok (normalized_service s).
Proof.
  intros (Hn & Hm). split; [exact Hn|]. simpl.
  apply List.Forall_map. eapply Forall_impl; [exact Hm|]. apply with_default_context_ok.
Qed.

Lemma resolved_address_idem (env : Env) (ip : string) :
  ParseIP env (resolved_address env ip) = true →
  resolved_address env (resolved_address env ip) = resolved_address env ip.
Proof. intros H. unfold resolved_address at 1. rewrite H. reflexivity. Qed.

Lemma normalized_interface_idem (env : Env) (i : RequisitionInterface.t) :
  ParseIP env (resolved_address env (RequisitionInterface.IPAddress i)) = true →
  normalized_interface env (normalized_interface env i) = normalized_interface env i.
Proof.
  intros H. unfold normalized_interface. simpl. f_equal.
  - apply resolved_address_idem. exact H.
  - destruct (decide (RequisitionInterface.SnmpPrimary i = "")) as [E|E].
    + reflexivity.
    + rewrite decide_False by exact E. reflexivity.
  - destruct (decide (RequisitionInterface.Status i = 0)) as [E|E].
    + reflexivity.
    + rewrite decide_False by exact E. reflexivity.
  - rewrite map_map. apply map_ext. intros s. apply normalized_service_idem.
Qed.

Lemma normalized_interface_ok (env : Env) (i : RequisitionInterface.t) :
  interface_ok env i →
  literal_address env (resolved_address env (RequisitionInterface.IPAddress i)) →
  interface_ok env (normalized_interface env i).
Proof.
  intros (Hip & Hst & Hsn & Ha & Hs & Hd & Hm) (Hne & Hlit).
  unfold interface_ok, status_allowed, snmp_allowed, address_accepted. simpl.
  split; [exact Hne|]. split; [|split; [|split; [left; exact Hlit|split; [|split]]]].
  - destruct Hst as [-> | [-> | ->]]; simpl; auto.
  - destruct Hsn as [-> | [-> | [-> | ->]]]; simpl; auto.
  - apply List.Forall_map. eapply Forall_impl; [exact Hs|]. apply normalized_service_ok.
  - rewrite map_map. simpl. exact Hd.
  - exact Hm.
Qed.

Lemma normalized_interface_primary (env : Env) (i : RequisitionInterface.t) :
  RequisitionInterface.SnmpPrimary (normalized_interface env i) = "P" ↔
  RequisitionInterface.SnmpPrimary i = "P".
Proof.
  simpl. destruct (decide (RequisitionInterface.SnmpPrimary i = "")) as [E|E].
  - rewrite E. split; discriminate.
  - reflexivity.
Qed.

Lemma primaries_normalized (env : Env) (n : RequisitionNode.t) :
  primaries (normalized_node env n) = primaries n.
Proof.
  unfold primaries. simpl.
  induction (RequisitionNode.Interfaces n) as [|i l IH]; [reflexivity|].
  simpl map. rewrite !filter_cons.
  pose proof (normalized_interface_primary env i) as Hp.
  destruct (decide (RequisitionInterface.SnmpPrimary (normalized_interface env i) = "P"))
    as [E|E];
    destruct (decide (RequisitionInterface.SnmpPrimary i = "P")) as [F|F];
    simpl; try rewrite IH; try reflexivity; tauto.
Qed.

Lemma label_of_normalized (env : Env) (n : RequisitionNode.t) :
  RequisitionNode.ForeignID n ≠ "" → label_of (normalized_node env n) = label_of n.
Proof.
  intros Hf. rewrite (label_of_eq (normalized_node env n)). simpl.
  rewrite decide_False by (apply label_of_nonempty; exact Hf). reflexivity.
Qed.

Lemma normalized_node_idem (env : Env) (n : RequisitionNode.t) :
  RequisitionNode.ForeignID n ≠ "" →
  Forall (λ i, literal_address env (resolved_address env (RequisitionInterface.IPAddress i)))
         (RequisitionNode.Interfaces n) →
  normalized_node env (normalized_node env n) = normalized_node env n.
Proof.
  intros Hf Hl. unfold normalized_node at 1. rewrite (label_of_normalized env n Hf).
  unfold normalized_node. simpl. f_equal.
  - rewrite map_map. apply map_ext_Forall. eapply Forall_impl; [exact Hl|].
    intros i (_ & Hi). apply normalized_interface_idem. exact Hi.
  - rewrite map_map. apply map_ext. intros m. apply with_default_context_idem.
Qed.

Lemma normalized_node_ok (env : Env) (n : RequisitionNode.t) :
  node_ok env n →
  Forall (λ i, literal_address env (resolved_address env (RequisitionInterface.IPAddress i)))
         (RequisitionNode.Interfaces n) →
  node_ok env (normalized_node env n) ↔ NoDup (resolved_addresses env n).
Proof.
  intros (Hf & Hb & Hl & Hp & Hi & Hpr & Hd & Hc & Ha & Hm) Hlit.
  assert (Ha' : addresses (normalized_node env n) = resolved_addresses env n).
  { unfold resolved_addresses, addresses. simpl. rewrite !map_map. reflexivity. }
  split.
  - intros (_ & _ & _ & _ & _ & _ & Hd' & _). rewrite <- Ha'. exact Hd'.
  - intros Hd'. unfold node_ok. rewrite Ha', primaries_normalized.
    rewrite (label_of_normalized env n (proj1 Hf)).
    split; [exact Hf|]. split; [exact Hb|]. split; [exact Hl|]. split; [exact Hp|].
    split; [|split; [exact Hpr|split; [exact Hd'|split; [exact Hc|split; [exact Ha|]]]]].
    + simpl. apply List.Forall_map. apply Forall_forall. intros i Hin.
      apply normalized_interface_ok.
      * exact (proj1 (Forall_forall _ _) Hi i Hin).
      * exact (proj1 (Forall_forall _ _) Hlit i Hin).
    + simpl. apply List.Forall_map. eapply Forall_impl; [exact Hm|].
      apply with_default_context_ok.
Qed.

Lemma normalized_lines (env : Env) (n : RequisitionNode.t) :
  Forall (λ i, literal_address env (resolved_address env (RequisitionInterface.IPAddress i)))
         (RequisitionNode.Interfaces n) →
  node_lines env (normalized_node env n) = [].
Proof.
  unfold node_lines. simpl. induction 1 as [|i l (_ & Hi) _ IH]; [reflexivity|].
  simpl. unfold interface_lines at 1. simpl. rewrite Hi. exact IH.
Qed.

(** X11.  Validation is not always repeatable.  Let a requisition pass
    [Requisition.IsValid] and let every name in it resolve to a literal
    address.  Validating the requisition it has left behind passes again
    exactly when, in every node, the addresses are still distinct after
    resolution; two interfaces of one node whose names resolve to the same
    address, or a name next to the address it resolves to, make the second
    call fail although the first one passed.  When the second call passes
    it changes nothing and prints nothing. *)
Theorem second_validation {Time : Type} (env : Env) (r : Requisition.t Time) :
  err (Requisition.IsValid env r) = None →
  resolves_to_literals env r →
  (err (Requisition.IsValid env (after (Requisition.IsValid env r))) = None ↔
     Forall (λ n, NoDup (resolved_addresses env n)) (Requisition.Nodes r)) ∧
  (err (Requisition.IsValid env (after (Requisition.IsValid env r))) = None →
     after (Requisition.IsValid env (after (Requisition.IsValid env r))) =
       after (Requisition.IsValid env r) ∧
     stdout (Requisition.IsValid env (after (Requisition.IsValid env r))) = []).
Proof.
  intros He Hlit. rewrite (Requisition_IsValid_pass env r He).
  apply requisition_passes_ok in He as (Hn & Hall & Hd).
  set (r' := Requisition.set_Nodes (map (normalized_node env) (Requisition.Nodes r)) r).
  assert (Hiff : err (Requisition.IsValid env r') = None ↔
                 Forall (λ n, NoDup (resolved_addresses env n)) (Requisition.Nodes r)).
  { rewrite requisition_passes_ok. unfold requisition_ok, foreign_ids. simpl.
    rewrite map_map. simpl. unfold resolves_to_literals in Hlit. split.
    - intros (_ & Hall' & _). rewrite List.Forall_map in Hall'.
      apply Forall_forall. intros n Hin.
      apply (normalized_node_ok env n).
      + exact (proj1 (Forall_forall _ _) Hall n Hin).
      + exact (proj1 (Forall_forall _ _) Hlit n Hin).
      + exact (proj1 (Forall_forall _ _) Hall' n Hin).
    - intros Hnd. split; [exact Hn|]. split; [|exact Hd].
      apply List.Forall_map. apply Forall_forall. intros n Hin.
      apply (normalized_node_ok env n).
      + exact (proj1 (Forall_forall _ _) Hall n Hin).
      + exact (proj1 (Forall_forall _ _) Hlit n Hin).
      + exact (proj1 (Forall_forall _ _) Hnd n Hin). }
  split; [exact Hiff|]. intros He'. split.
  - rewrite (Requisition_IsValid_pass env r' He'). unfold r', Requisition.set_Nodes. simpl.
    f_equal. rewrite map_map. apply map_ext_Forall. apply Forall_forall. intros n Hin.
    apply normalized_node_idem.
    + exact (proj1 (proj1 (proj1 (Forall_forall _ _) Hall n Hin))).
    + exact (proj1 (Forall_forall _ _) Hlit n Hin).
  - apply Requisition_IsValid_passes in He' as ((Hn' & Hf') & Hall' & _).
    apply matchForbidden_false in Hf'.
    unfold Requisition.IsValid. rewrite decide_False by exact Hn'. rewrite Hf'. simpl.
    pose proof (IsValid_range_printed_pass env (Requisition.Name r') _ ∅ Hall') as Hp.
    assert (Hl : flat_map (node_lines env) (Requisition.Nodes r') = []).
    { simpl. unfold resolves_to_literals in Hlit. clear - Hlit.
      induction Hlit as [|n l Hn _ IH]; [reflexivity|].
      simpl. rewrite (normalized_lines env n Hn). exact IH. }
    rewrite Hl in Hp.
    destruct (Requisition.stopped _); [|destruct (firstRepeated env _)]; exact Hp.
Qed.

Lemma second_validation_witness :
  err (Requisition.IsValid (sampleEnv true)
         (after (Requisition.IsValid (sampleEnv true)
                   (newRequisition "Test"
                      [newNode "n1" [newInterface "gw.example.org";
                                     newInterface "switch.example.org"]])))) = None ∧
  err (Requisition.IsValid (sampleEnv true)
         (after (Requisition.IsValid (sampleEnv true)
                   (newRequisition "Test"
                      [newNode "n1" [newInterface "gw.example.org";
                                     newInterface "router.example.org"]])))) ≠ None.
Proof.
  split.
  - apply (second_validation (sampleEnv true)
             (newRequisition "Test"
                [newNode "n1" [newInterface "gw.example.org";
                               newInterface "switch.example.org"]])).
    + vm_compute. reflexivity.
    + repeat constructor; vm_compute; congruence.
    + constructor; [|constructor]. apply (bool_decide_unpack _). vm_compute. exact I.
  - intros H.
    destruct (second_validation (sampleEnv true)
                (newRequisition "Test"
                   [newNode "n1" [newInterface "gw.example.org";
                                  newInterface "router.example.org"]])) as [Hiff _].
    + vm_compute. reflexivity.
    + repeat constructor; vm_compute; congruence.
    + apply Hiff in H. inversion H as [|? ? Hnd _]; subst. vm_compute in Hnd.
      inversion Hnd as [|? ? Hnot _]; subst. apply Hnot. constructor.
Defined.

(** ** The order of the elements *)

Lemma Forall2_Forall_iff {A} (R : A → A → Prop) (P : A → Prop) (l l' : list A) :
  Forall2 R l l' → (∀ x y, R x y → (P x ↔ P y)) → (Forall P l ↔ Forall P l').
Proof.
  intros H HR. induction H as [|x y l l' Hxy _ IH]; [tauto|].
  rewrite !Forall_cons. rewrite (HR x y Hxy), IH. tauto.
Qed.

Lemma Permutation_Forall_iff {A} (P : A → Prop) (l l' : list A) :
  Permutation l l' → (Forall P l ↔ Forall P l').
Proof.
  intros H. split; intros F.
  - exact (Permutation_Forall H F).
  - exact (Permutation_Forall (Permutation_sym H) F).
Qed.

Lemma Permutation_NoDup_iff {A} (l l' : list A) :
  Permutation l l' → (NoDup l ↔ NoDup l').
Proof. intros H. rewrite H. reflexivity. Qed.

Lemma Permutation_primaries (l l' : list RequisitionInterface.t) :
  Permutation l l' →
  length (filter (λ i, RequisitionInterface.SnmpPrimary i = "P") l) =
  length (filter (λ i, RequisitionInterface.SnmpPrimary i = "P") l').
Proof.
  induction 1 as [|x l l' _ IH|x y l|l l' l'' _ IH1 _ IH2].
  - reflexivity.
  - rewrite !filter_cons. destruct (decide _); simpl; congruence.
  - rewrite !filter_cons. repeat destruct (decide _); reflexivity.
  - congruence.
Qed.

Lemma reordered_node_ok (env : Env) (n n' : RequisitionNode.t) :
  reordered_node n n' → (node_ok env n ↔ node_ok env n').
Proof.
  intros (Hl & Hf & Hpf & Hpl & Hi & Hc & Ha & Hm).
  unfold node_ok, both_parents, primaries, addresses.
  rewrite !label_of_eq, Hl, Hf, Hpf, Hpl.
  rewrite (Permutation_Forall_iff (interface_ok env) _ _ Hi).
  rewrite (Permutation_Forall_iff category_ok _ _ Hc).
  rewrite (Permutation_Forall_iff asset_ok _ _ Ha).
  rewrite (Permutation_Forall_iff metaData_ok _ _ Hm).
  rewrite (Permutation_primaries _ _ Hi).
  rewrite (Permutation_NoDup_iff _ _ (Permutation_map RequisitionInterface.IPAddress Hi)).
  tauto.
Qed.

(** X12.  Whether [Requisition.IsValid] accepts a requisition does not
    depend on the order of its nodes, nor on the order of the interfaces,
    categories, assets and meta-data inside a node: two requisitions of
    the same name that differ in nothing else are both accepted or both
    rejected.  (Which error a rejected one reports does depend on the
    order.) *)
Theorem validity_ignores_order {Time : Type} (env : Env) (r r' : Requisition.t Time) :
  reordered r r' →
  (err (Requisition.IsValid env r) = None ↔ err (Requisition.IsValid env r') = None).
Proof.
  intros (Hn & l & Hp & H2). rewrite !requisition_passes_ok.
  unfold requisition_ok, foreign_ids. rewrite Hn.
  rewrite (Permutation_Forall_iff (node_ok env) _ _ Hp).
  rewrite (Forall2_Forall_iff reordered_node (node_ok env) _ _ H2 (reordered_node_ok env)).
  rewrite (Permutation_NoDup_iff _ _ (Permutation_map RequisitionNode.ForeignID Hp)).
  assert (E : map RequisitionNode.ForeignID l =
              map RequisitionNode.ForeignID (Requisition.Nodes r')).
  { clear - H2. induction H2 as [|x y l l' (_ & Hf & _) _ IH]; [reflexivity|].
    simpl. congruence. }
  rewrite E. tauto.
Qed.

Lemma validity_ignores_order_witness :
  err (Requisition.IsValid (sampleEnv true)
         (newRequisition "Test"
            [newNode "n2" [newInterface "10.0.0.2"; newInterface "gw.example.org"];
             newNode "n1" [newInterface "10.0.0.10"]])) = None.
Proof.
  apply (validity_ignores_order (sampleEnv true)
           (newRequisition "Test"
              [newNode "n1" [newInterface "10.0.0.10"];
               newNode "n2" [newInterface "gw.example.org"; newInterface "10.0.0.2"]])).
  - split; [reflexivity|].
    exists [newNode "n2" [newInterface "gw.example.org"; newInterface "10.0.0.2"];
            newNode "n1" [newInterface "10.0.0.10"]].
    split; [apply perm_swap|].
    constructor; [|constructor; [|constructor]].
    + repeat split; try reflexivity. apply perm_swap.
    + repeat split; reflexivity.
  - vm_compute. reflexivity.
Defined.

(** ** The order in which maps are walked *)

Lemma same_verdict_refl (e : option Error) : same_verdict e e.
Proof. destruct e; simpl; [constructor | exact I]. Qed.

Lemma same_run_refl {T} (o : Outcome T) : same_run o o.
Proof. repeat split. apply same_verdict_refl. Qed.

Lemma andThen_same {T} (o o' : Outcome T) (k k' : T → Outcome T) :
  same_run o o' → (∀ x, same_run (k x) (k' x)) → same_run (andThen o k) (andThen o' k').
Proof.
  intros (Ha & Hs & Hv) Hk. unfold andThen.
  destruct (err o) eqn:E, (err o') eqn:E'; simpl in Hv; try contradiction.
  - unfold same_run. rewrite E, E'. auto.
  - destruct (Hk (after o)) as (Ka & Ks & Kv). rewrite <- Ha.
    unfold same_run. simpl. rewrite Hs, Ks. auto.
Qed.

Lemma firstRepeated_same (env env' : Env) (m : gmap string Z) :
  firstRepeated env m = None ↔ firstRepeated env' m = None.
Proof. rewrite !firstRepeated_None. reflexivity. Qed.

Lemma validateIP_same (env env' : Env) (j : RequisitionInterface.t) :
  same_resolver env env' →
  RequisitionInterface.validateIP env' j = RequisitionInterface.validateIP env j.
Proof.
  intros (Ha & Hp & Hl). unfold RequisitionInterface.validateIP.
  rewrite Ha, Hp, Hl. reflexivity.
Qed.

Lemma validateServices_same (env env' : Env) (j : RequisitionInterface.t) :
  same_run (RequisitionInterface.validateServices env j)
           (RequisitionInterface.validateServices env' j).
Proof.
  unfold RequisitionInterface.validateServices.
  destruct (RequisitionInterface.validateServices_range _ _) as [[ss m] [e|]].
  - apply same_run_refl.
  - pose proof (firstRepeated_same env env' m) as H.
    destruct (firstRepeated env m) as [s|], (firstRepeated env' m) as [s'|].
    + repeat split. simpl. constructor.
    + destruct H as [_ H]. discriminate H. reflexivity.
    + destruct H as [H _]. discriminate H. reflexivity.
    + apply same_run_refl.
Qed.

Lemma Interface_IsValid_same (env env' : Env) (i : RequisitionInterface.t) :
  same_resolver env env' →
  same_run (RequisitionInterface.IsValid env i) (RequisitionInterface.IsValid env' i).
Proof.
  intros H. rewrite !Interface_IsValid_unfold.
  destruct (decide (RequisitionInterface.IPAddress i = "")); [apply same_run_refl|].
  destruct (decide (_ ∧ _)); [apply same_run_refl|].
  destruct (decide (_ ∧ _)); [apply same_run_refl|].
  unfold after_field_checks. rewrite (validateIP_same env env' _ H).
  apply andThen_same; [apply same_run_refl|]. intros x.
  apply andThen_same; [apply validateServices_same|]. intros y. apply same_run_refl.
Qed.

Lemma validateInterfaces_range_same (env env' : Env)
    (ifaces : list RequisitionInterface.t) (pc : Z) (m : gmap string Z) :
  same_resolver env env' →
  let r := RequisitionNode.validateInterfaces_range env ifaces pc m in
  let r' := RequisitionNode.validateInterfaces_range env' ifaces pc m in
  RequisitionNode.intfs r = RequisitionNode.intfs r' ∧
  RequisitionNode.primaryCount r = RequisitionNode.primaryCount r' ∧
  RequisitionNode.intfMap r = RequisitionNode.intfMap r' ∧
  RequisitionNode.printed r = RequisitionNode.printed r' ∧
  same_verdict (RequisitionNode.stopped r) (RequisitionNode.stopped r').
Proof.
  intros H. revert pc m. induction ifaces as [|i ifaces IH]; intros pc m; simpl.
  - repeat split.
  - destruct (Interface_IsValid_same env env' i H) as (Ha & Hs & Hv).
    destruct (err (RequisitionInterface.IsValid env i)) eqn:E,
             (err (RequisitionInterface.IsValid env' i)) eqn:E';
      simpl in Hv; try contradiction; simpl.
    + rewrite Ha, Hs. repeat split. exact Hv.
    + match goal with |- context [RequisitionNode.validateInterfaces_range env ifaces ?p ?q] =>
        destruct (IH p q) as (I1 & I2 & I3 & I4 & I5) end.
      rewrite Ha, Hs, I1, I2, I3, I4. repeat split. exact I5.
Qed.

Lemma validateInterfaces_same (env env' : Env) (n : RequisitionNode.t) :
  same_resolver env env' →
  same_run (RequisitionNode.validateInterfaces env n) (RequisitionNode.validateInterfaces env' n).
Proof.
  intros H. unfold RequisitionNode.validateInterfaces.
  destruct (validateInterfaces_range_same env env' (RequisitionNode.Interfaces n) 0 ∅ H)
    as (I1 & I2 & I3 & I4 & I5).
  rewrite <- I1, <- I2, <- I3, <- I4.
  destruct (RequisitionNode.stopped (RequisitionNode.validateInterfaces_range env _ _ _)),
           (RequisitionNode.stopped (RequisitionNode.validateInterfaces_range env' _ _ _));
    simpl in I5; try contradiction.
  - repeat split. exact I5.
  - destruct (decide (_ > 1)); [apply same_run_refl|].
    match goal with |- context [firstRepeated env ?q] =>
      pose proof (firstRepeated_same env env' q) as F;
      destruct (firstRepeated env q), (firstRepeated env' q) end.
    + repeat split. simpl. constructor.
    + destruct F as [_ F]. discriminate F. reflexivity.
    + destruct F as [F _]. discriminate F. reflexivity.
    + apply same_run_refl.
Qed.

Lemma Node_IsValid_same (env env' : Env) (n : RequisitionNode.t) :
  same_resolver env env' →
  same_run (RequisitionNode.IsValid env n) (RequisitionNode.IsValid env' n).
Proof.
  intros H. rewrite !Node_IsValid_unfold.
  destruct (decide (RequisitionNode.ForeignID n = "")); [apply same_run_refl|].
  destruct (matchForbidden _); [apply same_run_refl|].
  destruct (decide (_ ∧ _)); [apply same_run_refl|].
  destruct (decide (_ = label_of n)); [apply same_run_refl|].
  destruct (decide (_ = _)); [apply same_run_refl|].
  apply andThen_same; [apply validateInterfaces_same; exact H|].
  intros x. apply same_run_refl.
Qed.

Lemma IsValid_range_same (env env' : Env) (name : string) (ns : list RequisitionNode.t)
    (m : gmap string Z) :
  same_resolver env env' →
  let s := Requisition.IsValid_range env name ns m in
  let s' := Requisition.IsValid_range env' name ns m in
  Requisition.nodes s = Requisition.nodes s' ∧
  Requisition.foreignIDs s = Requisition.foreignIDs s' ∧
  Requisition.printed s = Requisition.printed s' ∧
  same_verdict (Requisition.stopped s) (Requisition.stopped s').
Proof.
  intros H. revert m. induction ns as [|n ns IH]; intros m; simpl.
  - repeat split.
  - destruct (Node_IsValid_same env env' n H) as (Ha & Hs & Hv).
    destruct (err (RequisitionNode.IsValid env n)) eqn:E,
             (err (RequisitionNode.IsValid env' n)) eqn:E';
      simpl in Hv; try contradiction; simpl.
    + rewrite Ha, Hs. repeat split. constructor. exact Hv.
    + match goal with |- context [Requisition.IsValid_range env name ns ?q] =>
        destruct (IH q) as (I1 & I2 & I3 & I4) end.
      rewrite Ha, Hs, I1, I2, I3. repeat split. exact I4.
Qed.

(** X13.  Go leaves the order in which a map is walked unspecified, and
    the three duplicate checks walk a map.  That order decides nothing but
    which repeated service, address or foreign ID an error names: under
    any two orders a call of [Requisition.IsValid] leaves the same
    requisition behind, prints the same lines, and either returns no error
    both times or returns two errors that are the same apart from the
    repeated key they name. *)
Theorem map_order_only_picks_the_duplicate {Time : Type} (env env' : Env)
    (r : Requisition.t Time) :
  same_resolver env env' →
  same_run (Requisition.IsValid env r) (Requisition.IsValid env' r).
Proof.
  intros H. unfold Requisition.IsValid.
  destruct (decide (Requisition.Name r = "")); [apply same_run_refl|].
  destruct (matchForbidden _); [apply same_run_refl|].
  destruct (IsValid_range_same env env' (Requisition.Name r) (Requisition.Nodes r) ∅ H)
    as (I1 & I2 & I3 & I4).
  simpl. rewrite <- I1, <- I2, <- I3.
  destruct (Requisition.stopped (Requisition.IsValid_range env _ _ _)),
           (Requisition.stopped (Requisition.IsValid_range env' _ _ _));
    simpl in I4; try contradiction.
  - repeat split. exact I4.
  - match goal with |- context [firstRepeated env ?q] =>
      pose proof (firstRepeated_same env env' q) as F;
      destruct (firstRepeated env q), (firstRepeated env' q) end.
    + repeat split. simpl. constructor.
    + destruct F as [_ F]. discriminate F. reflexivity.
    + destruct F as [F _]. discriminate F. reflexivity.
    + apply same_run_refl.
Qed.

Lemma map_order_only_picks_the_duplicate_witness :
  same_run
    (Requisition.IsValid (sampleEnv true)
       (newRequisition "Test"
          [newNode "n1" [newInterface "10.0.0.1"; newInterface "10.0.0.2";
                         newInterface "10.0.0.2"; newInterface "10.0.0.1"]]))
    (Requisition.IsValid (sampleEnv_backwards true)
       (newRequisition "Test"
          [newNode "n1" [newInterface "10.0.0.1"; newInterface "10.0.0.2";
                         newInterface "10.0.0.2"; newInterface "10.0.0.1"]])) ∧
  err (Requisition.IsValid (sampleEnv true)
         (newRequisition "Test"
            [newNode "n1" [newInterface "10.0.0.1"; newInterface "10.0.0.2";
                           newInterface "10.0.0.2"; newInterface "10.0.0.1"]])) =
    Some (ProblemOnNode "n1" "Test" (IPAddressDefinedTwice "10.0.0.1" "n1")) ∧
  err (Requisition.IsValid (sampleEnv_backwards true)
         (newRequisition "Test"
            [newNode "n1" [newInterface "10.0.0.1"; newInterface "10.0.0.2";
                           newInterface "10.0.0.2"; newInterface "10.0.0.1"]])) =
    Some (ProblemOnNode "n1" "Test" (IPAddressDefinedTwice "10.0.0.2" "n1")).
Proof.
  split.
  - apply (map_order_only_picks_the_duplicate (sampleEnv true) (sampleEnv_backwards true)).
    repeat split.
  - split; vm_compute; reflexivity.
Defined.

(** ** The switch for the resolution of names *)

Lemma Interface_IsValid_toggle (env : Env) (allow : bool) (i : RequisitionInterface.t) :
  ParseIP env (RequisitionInterface.IPAddress i) = true →
  RequisitionInterface.IsValid (with_toggle allow env) i = RequisitionInterface.IsValid env i.
Proof.
  intros H. rewrite !Interface_IsValid_unfold.
  destruct (decide (RequisitionInterface.IPAddress i = "")); [reflexivity|].
  destruct (decide (_ ∧ _)); [reflexivity|].
  destruct (decide (_ ∧ _)); [reflexivity|].
  unfold after_field_checks.
  assert (E : RequisitionInterface.validateIP (with_toggle allow env) (with_defaults i) =
              RequisitionInterface.validateIP env (with_defaults i)).
  { unfold RequisitionInterface.validateIP. simpl.
    destruct (with_defaults_fields i) as (-> & _). rewrite H. reflexivity. }
  rewrite E. reflexivity.
Qed.

Lemma validateInterfaces_range_toggle (env : Env) (allow : bool)
    (ifaces : list RequisitionInterface.t) (pc : Z) (m : gmap string Z) :
  Forall (λ i, ParseIP env (RequisitionInterface.IPAddress i) = true) ifaces →
  RequisitionNode.validateInterfaces_range (with_toggle allow env) ifaces pc m =
  RequisitionNode.validateInterfaces_range env ifaces pc m.
Proof.
  intros H. revert pc m. induction H as [|i ifaces Hi _ IH]; intros pc m; simpl;
    [reflexivity|].
  rewrite (Interface_IsValid_toggle env allow i Hi), IH. reflexivity.
Qed.

Lemma Node_IsValid_toggle (env : Env) (allow : bool) (n : RequisitionNode.t) :
  Forall (λ i, ParseIP env (RequisitionInterface.IPAddress i) = true)
         (RequisitionNode.Interfaces n) →
  RequisitionNode.IsValid (with_toggle allow env) n = RequisitionNode.IsValid env n.
Proof.
  intros H. rewrite !Node_IsValid_unfold.
  destruct (decide (RequisitionNode.ForeignID n = "")); [reflexivity|].
  destruct (matchForbidden _); [reflexivity|].
  destruct (decide (_ ∧ _)); [reflexivity|].
  destruct (decide (_ = label_of n)); [reflexivity|].
  destruct (decide (_ = _)); [reflexivity|].
  assert (E : RequisitionNode.validateInterfaces (with_toggle allow env) (with_default_label n) =
              RequisitionNode.validateInterfaces env (with_default_label n)).
  { unfold RequisitionNode.validateInterfaces.
    assert (HI : RequisitionNode.Interfaces (with_default_label n) =
                 RequisitionNode.Interfaces n) by apply with_default_label_fields.
    rewrite HI, (validateInterfaces_range_toggle env allow _ 0 ∅ H). reflexivity. }
  rewrite E. reflexivity.
Qed.

Lemma IsValid_range_toggle (env : Env) (allow : bool) (name : string)
    (ns : list RequisitionNode.t) (m : gmap string Z) :
  Forall (λ n, Forall (λ i, ParseIP env (RequisitionInterface.IPAddress i) = true)
                      (RequisitionNode.Interfaces n)) ns →
  Requisition.IsValid_range (with_toggle allow env) name ns m =
  Requisition.IsValid_range env name ns m.
Proof.
  intros H. revert m. induction H as [|n ns Hn _ IH]; intros m; simpl; [reflexivity|].
  rewrite (Node_IsValid_toggle env allow n Hn), IH. reflexivity.
Qed.

Lemma valid_without_resolution_is_literal {Time : Type} (env : Env) (r : Requisition.t Time) :
  AllowFqdnOnRequisitionedInterfaces env = false →
  err (Requisition.IsValid env r) = None → all_literal env r.
Proof.
  intros Hoff He. apply requisition_passes_ok in He as (_ & Hall & _).
  unfold all_literal. eapply Forall_impl; [exact Hall|].
  intros n (_ & _ & _ & _ & Hi & _). eapply Forall_impl; [exact Hi|].
  intros i (_ & _ & _ & [Ha|[Ha _]] & _); [exact Ha | congruence].
Qed.

(** X14.  The switch [AllowFqdnOnRequisitionedInterfaces] matters only for
    addresses that are not literal.  For a requisition whose interfaces all
    carry literal addresses, and so for every requisition that is accepted
    with the switch off, [Requisition.IsValid] returns the same error or
    none, leaves the same requisition and prints the same, whatever the
    switch is set to: switching resolution on never rejects what was
    accepted with it off. *)
Theorem switch_matters_only_for_names {Time : Type} (env : Env) (allow : bool)
    (r : Requisition.t Time) :
  all_literal env r ∨
  (AllowFqdnOnRequisitionedInterfaces env = false ∧ err (Requisition.IsValid env r) = None) →
  Requisition.IsValid (with_toggle allow env) r = Requisition.IsValid env r.
Proof.
  intros H.
  assert (Hl : all_literal env r).
  { destruct H as [H|[Hoff He]]; [exact H|].
    apply valid_without_resolution_is_literal; assumption. }
  unfold Requisition.IsValid.
  rewrite (IsValid_range_toggle env allow (Requisition.Name r) _ ∅ Hl). reflexivity.
Qed.

Lemma switch_matters_only_for_names_witness :
  Requisition.IsValid (with_toggle true (sampleEnv false))
    (newRequisition "Test"
       [newNode "n1" [newInterface "10.0.0.1"; newInterface "10.0.0.2"]]) =
  Requisition.IsValid (sampleEnv false)
    (newRequisition "Test"
       [newNode "n1" [newInterface "10.0.0.1"; newInterface "10.0.0.2"]]).
Proof.
  apply (switch_matters_only_for_names (sampleEnv false) true
           (newRequisition "Test"
              [newNode "n1" [newInterface "10.0.0.1"; newInterface "10.0.0.2"]])).
  right. split; vm_compute; reflexivity.
Defined.

(** ** Meta-data added through AddMetaData *)

Lemma Service_AddMetaData_passes (key value : string) (s : RequisitionMonitoredService.t) :
  service_passes (RequisitionMonitoredService.AddMetaData key value s) ↔
  service_passes s ∧ key ≠ "" ∧ value ≠ "".
Proof.
  rewrite !service_passes_ok. unfold service_ok. simpl.
  rewrite Forall_app, Forall_cons, Forall_nil. unfold metaData_ok at 2. simpl. tauto.
Qed.

Lemma Interface_AddMetaData_passes (env : Env) (key value : string)
    (i : RequisitionInterface.t) :
  interface_passes env (RequisitionInterface.AddMetaData key value i) ↔
  interface_passes env i ∧ key ≠ "" ∧ value ≠ "".
Proof.
  rewrite !interface_passes_ok. unfold interface_ok, status_allowed, snmp_allowed. simpl.
  rewrite Forall_app, Forall_cons, Forall_nil. unfold metaData_ok at 2. simpl. tauto.
Qed.

Lemma Node_AddMetaData_passes (env : Env) (key value : string) (n : RequisitionNode.t) :
  node_passes env (RequisitionNode.AddMetaData key value n) ↔
  node_passes env n ∧ key ≠ "" ∧ value ≠ "".
Proof.
  rewrite !node_passes_ok. unfold node_ok, both_parents, primaries, addresses.
  rewrite !label_of_eq. simpl.
  rewrite Forall_app, Forall_cons, Forall_nil. unfold metaData_ok at 2. simpl. tauto.
Qed.

(** X15.  [AddMetaData] appends an entry without a context and checks
    nothing.  A service, interface or node with an entry added is valid
    exactly when it was valid without it and the key and the value are not
    empty; a key that is already present is accepted.  After a successful
    validation the entry added to a service or to a node carries the
    default context, the entry added to an interface still carries none;
    the rest is as validation leaves the entity without the entry. *)
Theorem added_metadata_validation (env : Env) (key value : string) :
  (∀ s : RequisitionMonitoredService.t,
     (snd (RequisitionMonitoredService.IsValid
             (RequisitionMonitoredService.AddMetaData key value s)) = None ↔
      snd (RequisitionMonitoredService.IsValid s) = None ∧ key ≠ "" ∧ value ≠ "") ∧
     (snd (RequisitionMonitoredService.IsValid
             (RequisitionMonitoredService.AddMetaData key value s)) = None →
      fst (RequisitionMonitoredService.IsValid
             (RequisitionMonitoredService.AddMetaData key value s)) =
        RequisitionMonitoredService.set_MetaData
          (RequisitionMonitoredService.MetaData (fst (RequisitionMonitoredService.IsValid s))
             ++ [RequisitionMetaData.mk key value "requisition"])
          (fst (RequisitionMonitoredService.IsValid s)))) ∧
  (∀ i : RequisitionInterface.t,
     (err (RequisitionInterface.IsValid env (RequisitionInterface.AddMetaData key value i)) = None ↔
      err (RequisitionInterface.IsValid env i) = None ∧ key ≠ "" ∧ value ≠ "") ∧
     (err (RequisitionInterface.IsValid env (RequisitionInterface.AddMetaData key value i)) = None →
      after (RequisitionInterface.IsValid env (RequisitionInterface.AddMetaData key value i)) =
        RequisitionInterface.AddMetaData key value
          (after (RequisitionInterface.IsValid env i)))) ∧
  (∀ n : RequisitionNode.t,
     (err (RequisitionNode.IsValid env (RequisitionNode.AddMetaData key value n)) = None ↔
      err (RequisitionNode.IsValid env n) = None ∧ key ≠ "" ∧ value ≠ "") ∧
     (err (RequisitionNode.IsValid env (RequisitionNode.AddMetaData key value n)) = None →
      after (RequisitionNode.IsValid env (RequisitionNode.AddMetaData key value n)) =
        RequisitionNode.set_MetaData
          (RequisitionNode.MetaData (after (RequisitionNode.IsValid env n))
             ++ [RequisitionMetaData.mk key value "requisition"])
          (after (RequisitionNode.IsValid env n)))).
Proof.
  split; [|split].
  - intros s. split; [apply Service_AddMetaData_passes|]. intros H.
    pose proof (proj1 (Service_AddMetaData_passes key value s) H) as (Hs & _).
    rewrite (Service_IsValid_pass _ H), (Service_IsValid_pass _ Hs).
    unfold normalized_service, RequisitionMonitoredService.set_MetaData. simpl.
    rewrite map_app. reflexivity.
  - intros i. split; [apply Interface_AddMetaData_passes|]. intros H.
    pose proof (proj1 (Interface_AddMetaData_passes env key value i) H) as (Hi & _).
    rewrite (Interface_IsValid_pass _ _ H), (Interface_IsValid_pass _ _ Hi). reflexivity.
  - intros n. split; [apply Node_AddMetaData_passes|]. intros H.
    pose proof (proj1 (Node_AddMetaData_passes env key value n) H) as (Hn & _).
    rewrite (Node_IsValid_pass _ _ H), (Node_IsValid_pass _ _ Hn).
    unfold normalized_node, RequisitionNode.set_MetaData. simpl.
    rewrite !label_of_eq. simpl. rewrite map_app. reflexivity.
Qed.

Lemma added_metadata_validation_witness :
  after (RequisitionNode.IsValid (sampleEnv true)
           (RequisitionNode.AddMetaData "rack" "12"
              (newNode "n1" [newInterface "10.0.0.1"]))) =
    RequisitionNode.mk "n1" "n1" "" "" "" "" "" ""
      [RequisitionInterface.mk "10.0.0.1" "" "N" 1 [] []] [] []
      [RequisitionMetaData.mk "rack" "12" "requisition"] ∧
  after (RequisitionInterface.IsValid (sampleEnv true)
           (RequisitionInterface.AddMetaData "rack" "12" (newInterface "10.0.0.1"))) =
    RequisitionInterface.mk "10.0.0.1" "" "N" 1 [] [RequisitionMetaData.mk "rack" "12" ""].
Proof.
  destruct (added_metadata_validation (sampleEnv true) "rack" "12") as (_ & HI & HN).
  split.
  - rewrite (proj2 (HN (newNode "n1" [newInterface "10.0.0.1"])));
      vm_compute; reflexivity.
  - rewrite (proj2 (HI (newInterface "10.0.0.1"))); vm_compute; reflexivity.
Defined.

(** ** Statistics of the requisitions *)

(** X16.  [GetRequisitionStats] returns the first entry of the statistics
    that carries the name asked for, so that a later entry of the same
    name is never returned; when no entry carries the name it returns the
    zero value (empty name, count 0, no foreign IDs, no import time) and
    no error. *)
Theorem GetRequisitionStats_first_match {Time : Type} (stats : RequisitionsStats.t Time)
    (foreignSource : string) :
  (∃ before rest,
     RequisitionsStats.ForeignSources stats =
       before ++ RequisitionsStats.GetRequisitionStats stats foreignSource :: rest ∧
     Forall (λ req, RequisitionStats.Name req ≠ foreignSource) before ∧
     RequisitionStats.Name (RequisitionsStats.GetRequisitionStats stats foreignSource) =
       foreignSource) ∨
  (Forall (λ req, RequisitionStats.Name req ≠ foreignSource)
          (RequisitionsStats.ForeignSources stats) ∧
   RequisitionsStats.GetRequisitionStats stats foreignSource = RequisitionStats.zero).
Proof.
  unfold RequisitionsStats.GetRequisitionStats.
  induction (RequisitionsStats.ForeignSources stats) as [|req l IH]; simpl.
  - right. split; [constructor | reflexivity].
  - destruct (decide (RequisitionStats.Name req = foreignSource)) as [E|E].
    + left. exists [], l. split; [reflexivity|]. split; [constructor | exact E].
    + destruct IH as [(before & rest & H1 & H2 & H3)|(H1 & H2)].
      * left. exists (req :: before), rest. split; [rewrite H1 at 1; reflexivity|].
        split; [constructor; assumption | exact H3].
      * right. split; [constructor; assumption | exact H2].
Qed.

(** ** Splitting a string *)

Lemma Split_nonempty (sep : ascii) (s : string) : Split sep s ≠ [].
Proof.
  induction s as [|c s IH]; simpl; [discriminate|].
  destruct (Ascii.eqb c sep); [discriminate|].
  destruct (Split sep s); [contradiction | discriminate].
Qed.

Lemma Split_length (sep : ascii) (s : string) :
  length (Split sep s) = S (occurrences sep s).
Proof.
  induction s as [|c s IH]; simpl; [reflexivity|].
  destruct (Ascii.eqb c sep); simpl; [congruence|].
  destruct (Split sep s); simpl in *; congruence.
Qed.

Lemma Split_none (sep : ascii) (s : string) :
  occurrences sep s = 0%nat → Split sep s = [s].
Proof.
  induction s as [|c s IH]; simpl; [reflexivity|].
  destruct (Ascii.eqb c sep); [discriminate|].
  intros H. rewrite (IH H). reflexivity.
Qed.

Lemma Split_first (sep : ascii) (a b : string) :
  occurrences sep a = 0%nat →
  Split sep (a +:+ String sep b) = a :: Split sep b.
Proof.
  induction a as [|c a IH]; simpl.
  - rewrite Ascii.eqb_refl. reflexivity.
  - destruct (Ascii.eqb c sep); [discriminate|].
    intros H. rewrite (IH H). reflexivity.
Qed.

Lemma Split_head (sep : ascii) (s : string) :
  ∃ others, Split sep s = before_first sep s :: others.
Proof.
  induction s as [|c s (others & IH)]; simpl.
  - exists []. reflexivity.
  - destruct (Ascii.eqb c sep); [eexists; reflexivity|].
    rewrite IH. eexists. reflexivity.
Qed.

Lemma occurrences_app (sep : ascii) (a b : string) :
  occurrences sep (a +:+ b) = (occurrences sep a + occurrences sep b)%nat.
Proof.
  induction a as [|c a IH]; simpl; [reflexivity|].
  destruct (Ascii.eqb c sep); simpl; rewrite IH; reflexivity.
Qed.

(** ** The command daemon reload *)

Lemma DaemonMap_lookup (k v : string) :
  daemon.DaemonMap !! k = Some v → In (k, v) daemon.DaemonMap_literal.
Proof.
  intros H. apply list_elem_of_In. apply elem_of_list_to_map_2. exact H.
Qed.

Lemma DaemonMap_values (k v : string) :
  daemon.DaemonMap !! k = Some v → v ≠ "".
Proof.
  intros H. apply DaemonMap_lookup in H.
  assert (F : Forall (λ kv, snd kv ≠ "") daemon.DaemonMap_literal).
  { unfold daemon.DaemonMap_literal. repeat constructor; discriminate. }
  exact (proj1 (List.Forall_forall _ _) F (k, v) H).
Qed.

Lemma DaemonMap_correlation :
  index daemon.DaemonMap daemon.CorrelatorPrefix = "DroolsCorrelationEngine".
Proof. vm_compute. reflexivity. Qed.

Lemma getDaemonName_correlation (id : string) :
  HasPrefix id daemon.CorrelatorPrefix = true →
  daemon.getDaemonName id =
    if decide (occurrences ":" id = 1%nat)
    then "DroolsCorrelationEngine:" +:+ nth 1 (Split ":" id) ""
    else "DroolsCorrelationEngine".
Proof.
  intros H. unfold daemon.getDaemonName. rewrite H, DaemonMap_correlation, Split_length.
  destruct (decide (S (occurrences ":" id) = 2%nat)) as [E|E];
    destruct (decide (occurrences ":" id = 1%nat)) as [F|F]; try lia; reflexivity.
Qed.

Lemma getDaemonName_nonempty (id : string) :
  is_Some (daemon.DaemonMap !! id) ∨ HasPrefix id daemon.CorrelatorPrefix = true →
  daemon.getDaemonName id ≠ "".
Proof.
  intros H. destruct (HasPrefix id daemon.CorrelatorPrefix) eqn:P.
  - rewrite (getDaemonName_correlation id P). destruct (decide _); discriminate.
  - destruct H as [[v Hv]|H]; [|discriminate].
    unfold daemon.getDaemonName, index. rewrite P, Hv. simpl.
    exact (DaemonMap_values id v Hv).
Qed.

(** X17.  When the name given to the command daemon reload is written as
    [strings.ToLower] leaves it and is a key of [DaemonMap] or starts with
    the correlation prefix, the command sends the reload event with a
    parameter daemonName that is not empty, followed by the parameter
    configFile exactly when that flag is not empty; further arguments are
    ignored. *)
Theorem reload_names_the_daemon (ToLower : string → string) (daemonName : string)
    (others : list string) (configFile : string) :
  ToLower daemonName = daemonName →
  daemon.isValidDaemon ToLower daemonName = true →
  daemon.getDaemonName daemonName ≠ "" ∧
  daemon.reloadDaemon ToLower (daemonName :: others) configFile =
    daemon.SendEvent
      (daemon.mkEvent "uei.opennms.org/internal/reloadDaemonConfig" "onmsctl"
         (("daemonName", daemon.getDaemonName daemonName) ::
          if decide (configFile = "") then [] else [("configFile", configFile)])).
Proof.
  intros Hl Hv. split.
  - apply getDaemonName_nonempty. unfold daemon.isValidDaemon in Hv. rewrite Hl in Hv.
    destruct (daemon.DaemonMap !! daemonName) as [v|]; [left; eexists; reflexivity|].
    right. destruct (HasPrefix daemonName daemon.CorrelatorPrefix);
      [reflexivity | discriminate].
  - unfold daemon.reloadDaemon. rewrite Hv. simpl.
    destruct (decide (configFile = "")) as [E|E].
    + rewrite decide_False by (intros F; apply F; exact E). reflexivity.
    + rewrite decide_True by exact E. reflexivity.
Qed.

Lemma reload_names_the_daemon_witness :
  daemon.reloadDaemon sample_ToLower ["provisiond"] "" =
    daemon.SendEvent
      (daemon.mkEvent "uei.opennms.org/internal/reloadDaemonConfig" "onmsctl"
         [("daemonName", "Provisiond")]).
Proof.
  destruct (reload_names_the_daemon sample_ToLower "provisiond" [] "") as (_ & H).
  - reflexivity.
  - vm_compute. reflexivity.
  - rewrite H. vm_compute. reflexivity.
Defined.

(** X18.  The name is checked after [strings.ToLower] but looked up as
    given.  A name that becomes a key of [DaemonMap] only once lowered, and
    that does not start with the correlation prefix as given, passes the
    check, and the command sends the reload event with an empty parameter
    daemonName. *)
Theorem reload_with_name_known_only_once_lowered (ToLower : string → string)
    (daemonName : string) (others : list string) (configFile : string) :
  is_Some (daemon.DaemonMap !! ToLower daemonName) →
  daemon.DaemonMap !! daemonName = None →
  HasPrefix daemonName daemon.CorrelatorPrefix = false →
  daemon.isValidDaemon ToLower daemonName = true ∧
  daemon.getDaemonName daemonName = "" ∧
  daemon.reloadDaemon ToLower (daemonName :: others) configFile =
    daemon.SendEvent
      (daemon.mkEvent "uei.opennms.org/internal/reloadDaemonConfig" "onmsctl"
         (("daemonName", "") ::
          if decide (configFile = "") then [] else [("configFile", configFile)])).
Proof.
  intros [v Hv] Hn Hp.
  assert (V : daemon.isValidDaemon ToLower daemonName = true).
  { unfold daemon.isValidDaemon. rewrite Hv. reflexivity. }
  assert (G : daemon.getDaemonName daemonName = "").
  { unfold daemon.getDaemonName, index. rewrite Hp, Hn. reflexivity. }
  split; [exact V|]. split; [exact G|].
  unfold daemon.reloadDaemon. rewrite V, G. simpl.
  destruct (decide (configFile = "")) as [E|E].
  - rewrite decide_False by (intros F; apply F; exact E). reflexivity.
  - rewrite decide_True by exact E. reflexivity.
Qed.

Lemma reload_with_name_known_only_once_lowered_witness :
  daemon.reloadDaemon sample_ToLower ["Eventd"] "" =
    daemon.SendEvent
      (daemon.mkEvent "uei.opennms.org/internal/reloadDaemonConfig" "onmsctl"
         [("daemonName", "")]).
Proof.
  destruct (reload_with_name_known_only_once_lowered sample_ToLower "Eventd" [] "")
    as (_ & _ & H).
  - exists "Eventd". vm_compute. reflexivity.
  - vm_compute. reflexivity.
  - vm_compute. reflexivity.
  - rewrite H. reflexivity.
Defined.

(** X19.  For an identifier that starts with the correlation prefix,
    [getDaemonName] gives the name of the correlation engine followed by a
    colon and by what follows the colon of the identifier when the
    identifier holds exactly one colon; with no colon, or with two or
    more, it gives the name of the correlation engine alone, so that an
    engine name that itself holds a colon is dropped. *)
Theorem correlation_engine_name (id : string) :
  HasPrefix id daemon.CorrelatorPrefix = true →
  (∀ a b, id = a +:+ ":" +:+ b → occurrences ":" a = 0%nat → occurrences ":" b = 0%nat →
     daemon.getDaemonName id = "DroolsCorrelationEngine:" +:+ b) ∧
  (occurrences ":" id ≠ 1%nat → daemon.getDaemonName id = "DroolsCorrelationEngine").
Proof.
  intros H. rewrite (getDaemonName_correlation id H). split.
  - intros a b -> Ha Hb.
    change (a +:+ ":" +:+ b) with (a +:+ String ":" b) in *.
    assert (E : occurrences ":" (a +:+ String ":" b) = 1%nat).
    { rewrite occurrences_app. simpl. lia. }
    rewrite decide_True by exact E.
    rewrite (Split_first ":" a b Ha), (Split_none ":" b Hb). reflexivity.
  - intros Hne. rewrite decide_False by exact Hne. reflexivity.
Qed.

Lemma correlation_engine_name_witness :
  daemon.getDaemonName "correlation:drools-rules" = "DroolsCorrelationEngine:drools-rules" ∧
  daemon.getDaemonName "correlation:site:rules" = "DroolsCorrelationEngine".
Proof.
  split.
  - destruct (correlation_engine_name "correlation:drools-rules") as [H _];
      [reflexivity|].
    apply (H "correlation" "drools-rules"); reflexivity.
  - destruct (correlation_engine_name "correlation:site:rules") as [_ H];
      [reflexivity|].
    apply H. vm_compute. discriminate.
Defined.

(** ** The command events send *)

Lemma sendEvent_range_parameters (kvs : list (string * string)) (event : events.Event) :
  Forall (λ kv, occurrences "=" (fst kv) = 0%nat) kvs →
  events.sendEvent_range (map (λ kv, fst kv +:+ String "=" (snd kv)) kvs) event =
    Some (events.mkEvent (events.UEI event) (events.NodeID event) (events.Interface event)
            (events.Service event) (events.IfIndex event) (events.Description event)
            (events.Severity event) (events.Host event) (events.Source event)
            (events.Parameters event ++
               map (λ kv, (fst kv, before_first "=" (snd kv))) kvs)).
Proof.
  intros H. revert event. induction H as [|[k v] kvs Hk _ IH]; intros event; simpl.
  - rewrite app_nil_r. destruct event; reflexivity.
  - simpl in Hk. rewrite (Split_first "=" k v Hk).
    destruct (Split_head "=" v) as (others & ->).
    rewrite IH. simpl. rewrite <- app_assoc. reflexivity.
Qed.

Lemma sendEvent_range_panics (params : list string) (event : events.Event) :
  events.sendEvent_range params event = None ↔
  Exists (λ p, occurrences "=" p = 0%nat) params.
Proof.
  revert event. induction params as [|p params IH]; intros event; simpl.
  - split; [discriminate | intros H; inversion H].
  - pose proof (Split_length "=" p) as L. rewrite Exists_cons.
    destruct (Split "=" p) as [|name [|value others]]; simpl in L.
    + discriminate.
    + split; [intros _; left; lia | reflexivity].
    + rewrite IH. split; [tauto | intros [H|H]; [lia | exact H]].
Qed.

(** X20.  The command events send reads each parameter as name=value by
    splitting it at every equals sign and taking the first two pieces.
    With parameters whose names hold no equals sign it sends the event
    with the fields taken from the flags, the source onmsctl, and the
    parameters in the order given, each value cut at its first equals
    sign: a value that holds an equals sign does not arrive whole. *)
Theorem send_event_parameters (uei : string) (others : list string) (flags : events.Flags)
    (kvs : list (string * string)) :
  Forall (λ kv, occurrences "=" (fst kv) = 0%nat) kvs →
  events.parm flags = map (λ kv, fst kv +:+ "=" +:+ snd kv) kvs →
  events.sendEvent (uei :: others) flags =
    events.SendEvent
      (events.mkEvent uei (events.nodeid flags) (events.interface flags)
         (events.service flags) (events.ifindex flags) (events.descr flags)
         (events.severity flags) (events.host flags) "onmsctl"
         (map (λ kv, (fst kv, before_first "=" (snd kv))) kvs)).
Proof.
  intros Hk Hp. unfold events.sendEvent. rewrite Hp.
  change (map (λ kv, fst kv +:+ "=" +:+ snd kv) kvs)
    with (map (λ kv : string * string, fst kv +:+ String "=" (snd kv)) kvs).
  rewrite (sendEvent_range_parameters kvs _ Hk). reflexivity.
Qed.

Lemma send_event_parameters_witness :
  events.sendEvent ["uei.opennms.org/test"]
    (events.mkFlags 0 "" "" 0 "" "" ""
       ["url=http://www.google.com/"; "query=a=b"]) =
    events.SendEvent
      (events.mkEvent "uei.opennms.org/test" 0 "" "" 0 "" "" "" "onmsctl"
         [("url", "http://www.google.com/"); ("query", "a")]).
Proof.
  apply (send_event_parameters "uei.opennms.org/test" []
           (events.mkFlags 0 "" "" 0 "" "" ""
              ["url=http://www.google.com/"; "query=a=b"])
           [("url", "http://www.google.com/"); ("query", "a=b")]).
  - repeat constructor.
  - reflexivity.
Defined.

(** X21.  Given a UEI, the command events send ends in a run-time panic
    (index out of range) exactly when one of its parameters holds no
    equals sign; no event is sent then, whatever the other parameters
    are.  Without a UEI it returns its own error before it looks at the
    parameters. *)
Theorem send_event_panics (uei : string) (others : list string) (flags : events.Flags) :
  (events.sendEvent (uei :: others) flags = events.Panic ↔
   Exists (λ p, occurrences "=" p = 0%nat) (events.parm flags)) ∧
  events.sendEvent [] flags = events.Failed events.UEIRequired.
Proof.
  split; [|reflexivity]. unfold events.sendEvent.
  rewrite <- (sendEvent_range_panics (events.parm flags)
    (events.mkEvent uei (events.nodeid flags) (events.interface flags)
       (events.service flags) (events.ifindex flags) (events.descr flags)
       (events.severity flags) (events.host flags) "onmsctl" [])).
  destruct (events.sendEvent_range _ _); split; try discriminate; reflexivity.
Qed.
